(** * Multi-regional CDK demo: configuration resolution and network topology

    A shallow embedding of [cdk/config/config-manager.ts], [cdk/config/types.ts],
    [cdk/config/regions.ts], [cdk/stacks/network-stack.ts] and [cdk/main.ts],
    followed by the properties of the specification that concern them.

    Conventions of the embedding:
    - a JavaScript string is a [string], one character per code unit (code
      units below 256); an array is a [list];
    - a method that may [throw] returns a [Result], the left summand carrying
      the error that was thrown;
    - a plain object used as a dictionary is the list of its own enumerable
      properties, in the order [Object.keys] lists them;
    - a [number] of a configuration is [NaN], an infinity or a rational;
    - what the CDK refuses when a stack is constructed is a parameter of
      the script;
    - the security-group constructs of the CDK, which [NetworkStack] mutates
      through [addIngressRule], live in a store threaded through the
      constructor. *)

From Stdlib Require Import String Ascii List ZArith Lia Bool.
From Stdlib Require QArith.
Import ListNotations.
Open Scope string_scope.
Open Scope list_scope.

(* ================================================================== *)
(** ** JavaScript primitives used by the source *)
(* ================================================================== *)

Module Js.

(** *** Regular expressions

    Every pattern of the source has the shape [/^...$/] with no flag, so
    [RegExp.prototype.test] decides membership of the whole string in the
    language of the pattern between the anchors. *)

Inductive regex : Type :=
| Void                              (* matches nothing *)
| Eps                               (* the empty string *)
| Class (p : ascii -> bool)         (* one character of a class *)
| Seq (r1 r2 : regex)
| Alt (r1 r2 : regex)
| Star (r : regex).

Fixpoint nullable (r : regex) : bool :=
  match r with
  | Void => false
  | Eps => true
  | Class _ => false
  | Seq r1 r2 => nullable r1 && nullable r2
  | Alt r1 r2 => nullable r1 || nullable r2
  | Star _ => true
  end.

(** Brzozowski derivative: the words [w] such that [c :: w] is matched. *)
Fixpoint deriv (c : ascii) (r : regex) : regex :=
  match r with
  | Void => Void
  | Eps => Void
  | Class p => if p c then Eps else Void
  | Seq r1 r2 =>
      if nullable r1
      then Alt (Seq (deriv c r1) r2) (deriv c r2)
      else Seq (deriv c r1) r2
  | Alt r1 r2 => Alt (deriv c r1) (deriv c r2)
  | Star r1 => Seq (deriv c r1) (Star r1)
  end.

Fixpoint test (r : regex) (s : string) : bool :=
  match s with
  | EmptyString => nullable r
  | String c s' => test (deriv c r) s'
  end.

(** Character classes and quantifiers of the patterns. *)
Definition in_range (lo hi : ascii) (c : ascii) : bool :=
  (nat_of_ascii lo <=? nat_of_ascii c)%nat && (nat_of_ascii c <=? nat_of_ascii hi)%nat.

Definition is_digit : ascii -> bool := in_range "0" "9".           (* \d *)
Definition is_lower : ascii -> bool := in_range "a" "z".           (* [a-z] *)
Definition is_lower_or_digit (c : ascii) : bool :=                 (* [a-z0-9] *)
  is_lower c || is_digit c.

Definition Lit (c : ascii) : regex := Class (Ascii.eqb c).
Definition Digit : regex := Class is_digit.
Definition Lower : regex := Class is_lower.
Definition LowerOrDigit : regex := Class is_lower_or_digit.

Definition Opt (r : regex) : regex := Alt Eps r.                   (* r? *)
Definition Plus (r : regex) : regex := Seq r (Star r).             (* r+ *)

Fixpoint Rep (n : nat) (r : regex) : regex :=                      (* r{n} *)
  match n with
  | O => Eps
  | S n' => Seq r (Rep n' r)
  end.

(** [r{0,n}], greedy as in the source; the language does not depend on it. *)
Fixpoint UpTo (n : nat) (r : regex) : regex :=
  match n with
  | O => Eps
  | S n' => Opt (Seq r (UpTo n' r))
  end.

Definition Range (lo hi : nat) (r : regex) : regex :=              (* r{lo,hi} *)
  Seq (Rep lo r) (UpTo (hi - lo) r).

Fixpoint Word (s : string) : regex :=                              (* a literal *)
  match s with
  | EmptyString => Eps
  | String c s' => Seq (Lit c) (Word s')
  end.

(** *** Strings *)

(** [s.startsWith(p)] *)
Fixpoint startsWith (s p : string) : bool :=
  match p with
  | EmptyString => true
  | String c p' =>
      match s with
      | EmptyString => false
      | String d s' => Ascii.eqb d c && startsWith s' p'
      end
  end.

(** The first field of [s] before [sep], and the fields after it. *)
Fixpoint split_from (sep : ascii) (s : string) : string * list string :=
  match s with
  | EmptyString => (EmptyString, [])
  | String c s' =>
      let (p, ps) := split_from sep s' in
      if Ascii.eqb c sep then (EmptyString, p :: ps) else (String c p, ps)
  end.

(** [s.split(sep)] for a separator of one character: never empty. *)
Definition split (sep : ascii) (s : string) : list string :=
  let (p, ps) := split_from sep s in p :: ps.

(** [a.slice(0, n)] *)
Definition slice0 {A : Type} (n : nat) (a : list A) : list A := firstn n a.

(** [a.join(sep)] *)
Fixpoint join (sep : string) (a : list string) : string :=
  match a with
  | [] => EmptyString
  | [x] => x
  | x :: rest => x ++ sep ++ join sep rest
  end.

(** *** Numbers

    A number is an integer or [NaN] ([None]); every comparison with [NaN]
    is false. *)

Definition number : Type := option Z.

Definition lt (a b : number) : bool :=
  match a, b with
  | Some x, Some y => (x <? y)%Z
  | _, _ => false
  end.

Definition gt (a b : number) : bool := lt b a.

Definition ge (a b : number) : bool :=
  match a, b with
  | Some x, Some y => (y <=? x)%Z
  | _, _ => false
  end.

Definition le (a b : number) : bool := ge b a.

(** *** Numbers held by a configuration

    A field of type [number] holds any double: [NaN], an infinity, or a
    finite value, which is a rational.  [a < b] and [a > b] compare the
    values exactly and are false as soon as one side is [NaN]. *)

Inductive double : Type :=
| NaN
| PosInfinity
| NegInfinity
| Finite (q : QArith_base.Q).

Definition integer (z : Z) : double := Finite (QArith_base.inject_Z z).

Definition less (a b : double) : bool :=
  match a, b with
  | Finite x, Finite y =>
      match QArith_base.Qcompare x y with
      | Lt => true
      | _ => false
      end
  | NegInfinity, Finite _ | NegInfinity, PosInfinity | Finite _, PosInfinity => true
  | _, _ => false
  end.

Definition greater (a b : double) : bool := less b a.

Definition digit_value (c : ascii) : Z := Z.of_nat (nat_of_ascii c) - 48.

(** Value of the longest prefix of decimal digits, read after [acc]; the
    boolean tells whether a digit was read. *)
Fixpoint read_digits (acc : Z) (seen : bool) (s : string) : Z * bool :=
  match s with
  | EmptyString => (acc, seen)
  | String c s' =>
      if is_digit c then read_digits (10 * acc + digit_value c) true s'
      else (acc, seen)
  end.

Definition is_space (c : ascii) : bool :=
  let n := nat_of_ascii c in
  (n =? 32)%nat || ((9 <=? n)%nat && (n <=? 13)%nat) || (n =? 160)%nat.

Fixpoint trim_start (s : string) : string :=
  match s with
  | String c s' => if is_space c then trim_start s' else s
  | EmptyString => EmptyString
  end.

(** [parseInt(s, 10)]: leading white space, a sign, then the longest run of
    digits; [NaN] when there is no digit. *)
Definition parseInt10 (s : string) : number :=
  let body (t : string) :=
    let (v, seen) := read_digits 0 false t in if seen then Some v else None in
  match trim_start s with
  | String "-" t => option_map Z.opp (body t)
  | String "+" t => body t
  | t => body t
  end.

(** [parseInt(x, 10)] where [x] may be [undefined] (a destructured element
    that is missing): the string ["undefined"] holds no digit. *)
Definition parseInt10_opt (x : option string) : number :=
  match x with
  | Some s => parseInt10 s
  | None => None
  end.

Fixpoint all_digits (s : string) : bool :=
  match s with
  | EmptyString => true
  | String c s' => is_digit c && all_digits s'
  end.

(** [Number(s)] on the strings that reach it in the source: the fields of a
    dotted quad that matched [(\d{1,3}\.){3}\d{1,3}], which are non-empty
    runs of decimal digits (lemma [octets_of_wellformed] below).  The empty
    string converts to 0; any other string is outside this fragment and is
    mapped to [NaN]. *)
Definition Number (s : string) : number :=
  if all_digits s then Some (fst (read_digits 0 false s)) else None.

(** [new Set(a).size] on strings. *)
Definition Set_size (a : list string) : nat := List.length (nodup string_dec a).

End Js.

(* ================================================================== *)
(** ** Exceptions *)
(* ================================================================== *)

(** What a [throw] carries: the source only throws [new Error(message)];
    reading a property of [undefined] raises a [TypeError] (its message is
    the engine's and is abbreviated here to the property that was read). *)
Inductive Exception : Type :=
| Error (message : string)
| TypeError (property : string).

Definition Result (A : Type) : Type := (Exception + A)%type.

Definition ok {A : Type} (a : A) : Result A := inr a.
Definition throw {A : Type} (e : Exception) : Result A := inl e.

Definition bind {A B : Type} (c : Result A) (k : A -> Result B) : Result B :=
  match c with
  | inl e => inl e
  | inr a => k a
  end.

Notation "x <- c ;; k" := (bind c (fun x => k))
  (at level 61, c at next level, right associativity).
Notation "c ;; k" := (bind c (fun _ => k))
  (at level 61, right associativity).

(** [a.forEach(f)] where [f] may throw: the first exception leaves the loop. *)
Fixpoint forEach {A : Type} (f : A -> Result unit) (a : list A) : Result unit :=
  match a with
  | [] => ok tt
  | x :: rest => f x ;; forEach f rest
  end.

(** [a.some(f)] where [f] may throw: stops at the first element for which
    [f] is true. *)
Fixpoint some {A : Type} (f : A -> Result bool) (a : list A) : Result bool :=
  match a with
  | [] => ok false
  | x :: rest => b <- f x ;; if b then ok true else some f rest
  end.

(* ================================================================== *)
(** ** [types.ts] *)
(* ================================================================== *)

Record DatabaseConfig : Type := {
  instanceClass : string;
  allocatedStorage : Js.double;
  multiAz : bool;
  backupRetentionPeriod : Js.double;
  engineVersion : option string;
  encrypted : option bool
}.

Record InstanceTypes : Type := {
  instanceTypes_iot : string;
  instanceTypes_payment : string
}.

Record DatabaseConfigs : Type := {
  databaseConfig_iot : DatabaseConfig;
  databaseConfig_payment : DatabaseConfig
}.

(** [availabilityZones] is optional here although the interface declares it:
    the validation tests [!region.availabilityZones] before reading it. *)
Record RegionConfig : Type := {
  regionName : string;
  cidrBlock : string;
  availabilityZones : option (list string);
  deployIoT : bool;
  deployPayment : bool;
  deployDemo : bool;
  instanceTypes : InstanceTypes;
  databaseConfig : DatabaseConfigs
}.

Record StackNaming : Type := { prefix : string; suffix : string }.

Record CostOptimization : Type := {
  useSpotInstances : bool;
  enableAutoScaling : bool
}.

Record EnvironmentSettings : Type := {
  enableCdkNag : bool;
  enableDetailedMonitoring : bool;
  costOptimization : CostOptimization
}.

(** A dictionary: own enumerable properties in [Object.keys] order. *)
Definition Dict (A : Type) : Type := list (string * A).

(** [regions] is optional for the same reason as [availabilityZones]: the
    validation tests [!envConfig.regions]. *)
Record EnvironmentConfig : Type := {
  regions : option (list RegionConfig);
  stackNaming : StackNaming;
  tags : Dict string;
  settings : EnvironmentSettings
}.

Record CrossRegionSettings : Type := {
  enableTransitGateway : bool;
  paymentApiEndpoint : string;
  primaryRegion : string
}.

(** [environments] is optional: the validation tests
    [!this.deploymentConfig.environments]. *)
Record DeploymentConfig : Type := {
  environments : option (Dict EnvironmentConfig);
  crossRegionSettings : CrossRegionSettings
}.

Record NetworkStackProps : Type := {
  props_region : string;
  props_cidrBlock : string;
  props_enableTransitGateway : option bool;
  props_environment : string;
  props_tags : option (Dict string)
}.

(** *** Dictionaries *)

Definition Object_keys {A : Type} (d : Dict A) : list string := map fst d.
Definition Object_values {A : Type} (d : Dict A) : list A := map snd d.

(** The own property [d[k]], if any. *)
Fixpoint own {A : Type} (d : Dict A) (k : string) : option A :=
  match d with
  | [] => None
  | (k', v) :: rest => if String.eqb k' k then Some v else own rest k
  end.

(** Names that every plain object inherits from [Object.prototype]; each is
    a truthy value (a function, or the prototype itself). *)
Definition Object_prototype_keys : list string :=
  [ "constructor"; "hasOwnProperty"; "isPrototypeOf"; "propertyIsEnumerable";
    "toLocaleString"; "toString"; "valueOf"; "__proto__";
    "__defineGetter__"; "__defineSetter__"; "__lookupGetter__";
    "__lookupSetter__" ].

(** [!!d[k]] for a dictionary whose own values are objects. *)
Definition truthy_at {A : Type} (d : Dict A) (k : string) : bool :=
  match own d k with
  | Some _ => true
  | None => existsb (String.eqb k) Object_prototype_keys
  end.

(* ================================================================== *)
(** ** [regions.ts] *)
(* ================================================================== *)

Module Regions.

Definition default_iot_db : DatabaseConfig :=
  {| instanceClass := "db.t3.micro"; allocatedStorage := Js.integer 20;
     multiAz := true;
     backupRetentionPeriod := Js.integer 7; engineVersion := Some "8.0.35";
     encrypted := Some true |}.

Definition default_payment_db : DatabaseConfig :=
  {| instanceClass := "db.t3.small"; allocatedStorage := Js.integer 100;
     multiAz := true;
     backupRetentionPeriod := Js.integer 30; engineVersion := Some "8.0.35";
     encrypted := Some true |}.

Definition default_region (name cidr : string) (azs : list string)
    (payment demo : bool) : RegionConfig :=
  {| regionName := name; cidrBlock := cidr; availabilityZones := Some azs;
     deployIoT := true; deployPayment := payment; deployDemo := demo;
     instanceTypes :=
       {| instanceTypes_iot := "t3.medium"; instanceTypes_payment := "t3.large" |};
     databaseConfig :=
       {| databaseConfig_iot := default_iot_db;
          databaseConfig_payment := default_payment_db |} |}.

Definition us_east_1 : RegionConfig :=
  default_region "us-east-1" "10.1.0.0/16" ["us-east-1a"; "us-east-1b"] true true.

Definition eu_central_1 : RegionConfig :=
  default_region "eu-central-1" "10.3.0.0/16"
    ["eu-central-1a"; "eu-central-1b"] false false.

Definition ap_southeast_2 : RegionConfig :=
  default_region "ap-southeast-2" "10.4.0.0/16"
    ["ap-southeast-2a"; "ap-southeast-2b"] false false.

Definition DEFAULT_REGIONS : Dict RegionConfig :=
  [ ("us-east-1", us_east_1); ("eu-central-1", eu_central_1);
    ("ap-southeast-2", ap_southeast_2) ].

Definition default_tags (env : string) : Dict string :=
  [ ("Environment", env); ("Project", "AWS-Multi-Region-CDK-Demo");
    ("Owner", "DevOps-Team"); ("CostCenter", "Engineering") ].

Definition development : EnvironmentConfig :=
  {| regions := Some [us_east_1];
     stackNaming := {| prefix := "MultiRegionDemo"; suffix := "Dev" |};
     tags := default_tags "Development";
     settings :=
       {| enableCdkNag := true; enableDetailedMonitoring := false;
          costOptimization :=
            {| useSpotInstances := true; enableAutoScaling := true |} |} |}.

Definition production : EnvironmentConfig :=
  {| regions := Some [us_east_1; eu_central_1; ap_southeast_2];
     stackNaming := {| prefix := "MultiRegionDemo"; suffix := "Prod" |};
     tags := default_tags "Production";
     settings :=
       {| enableCdkNag := true; enableDetailedMonitoring := true;
          costOptimization :=
            {| useSpotInstances := false; enableAutoScaling := true |} |} |}.

Definition DEFAULT_DEPLOYMENT_CONFIG : DeploymentConfig :=
  {| environments :=
       Some [ ("development", development); ("production", production) ];
     crossRegionSettings :=
       {| enableTransitGateway := true;
          paymentApiEndpoint := "https://payment-api.us-east-1.amazonaws.com";
          primaryRegion := "us-east-1" |} |}.

End Regions.

(* ================================================================== *)
(** ** [config-manager.ts]: class ConfigurationManager *)
(* ================================================================== *)

Module ConfigurationManager.

Import Js.

Record t : Type := {
  deploymentConfig : DeploymentConfig;
  currentEnvironment : string
}.

(** [/^(\d{1,3}\.){3}\d{1,3}\/\d{1,2}$/] *)
Definition cidrRegex : regex :=
  Seq (Rep 3 (Seq (Range 1 3 Digit) (Lit ".")))
      (Seq (Range 1 3 Digit) (Seq (Lit "/") (Range 1 2 Digit))).

(** [/^[a-z]{2}-[a-z]+-\d+$/] *)
Definition regionRegex : regex :=
  Seq (Rep 2 Lower) (Seq (Lit "-") (Seq (Plus Lower) (Seq (Lit "-") (Plus Digit)))).

(** [/^[a-z]\d+[a-z]*\.[a-z0-9]+$/] *)
Definition validInstanceTypePattern : regex :=
  Seq Lower (Seq (Plus Digit) (Seq (Star Lower) (Seq (Lit ".") (Plus LowerOrDigit)))).

(** [/^db\.[a-z]\d+\.[a-z0-9]+$/] *)
Definition validDbInstancePattern : regex :=
  Seq (Word "db") (Seq (Lit ".") (Seq Lower (Seq (Plus Digit)
      (Seq (Lit ".") (Plus LowerOrDigit))))).

(** [/^\d+\.\d+(\.\d+)?$/] *)
Definition engineVersionPattern : regex :=
  Seq (Plus Digit) (Seq (Lit ".") (Seq (Plus Digit)
      (Opt (Seq (Lit ".") (Plus Digit))))).

Definition getPrimaryRegion (this : t) : string :=
  primaryRegion (crossRegionSettings (deploymentConfig this)).

Definition shouldEnableTransitGateway (this : t) (regionName : string) : bool :=
  enableTransitGateway (crossRegionSettings (deploymentConfig this))
  && String.eqb regionName (getPrimaryRegion this).

Definition validateEnvironments (this : t) : Result unit :=
  match environments (deploymentConfig this) with
  | None => throw (Error "No environment configurations found")
  | Some envs =>
      if (List.length (Object_keys envs) =? 0)%nat
      then throw (Error "No environment configurations found")
      else if negb (truthy_at envs (currentEnvironment this))
      then throw (Error ("Current environment '" ++ currentEnvironment this
                         ++ "' not found in configuration"))
      else ok tt
  end.

(** [env.regions.some(r => r.regionName === primary)] *)
Definition environment_has_region (primary : string) (env : EnvironmentConfig)
    : Result bool :=
  match regions env with
  | None => throw (TypeError "some")
  | Some rs => ok (existsb (fun r => String.eqb (regionName r) primary) rs)
  end.

Definition validateCrossRegionSettings (this : t) : Result unit :=
  let settings := crossRegionSettings (deploymentConfig this) in
  if String.eqb (primaryRegion settings) ""
  then throw (Error "Primary region must be specified in cross-region settings")
  else if String.eqb (paymentApiEndpoint settings) ""
  then throw (Error "Payment API endpoint must be specified in cross-region settings")
  else
    match environments (deploymentConfig this) with
    | None => throw (TypeError "values")
    | Some envs =>
        primaryRegionExists <-
          some (environment_has_region (primaryRegion settings)) (Object_values envs) ;;
        if negb primaryRegionExists
        then throw (Error ("Primary region '" ++ primaryRegion settings
                           ++ "' not found in any environment configuration"))
        else ok tt
    end.

Definition validateCidrBlocks (regions : list RegionConfig) : Result unit :=
  let cidrBlocks := map cidrBlock regions in
  if negb (List.length cidrBlocks =? Set_size cidrBlocks)%nat
  then throw (Error "Overlapping CIDR blocks detected in region configuration")
  else
    forEach (fun cidr =>
               if negb (test cidrRegex cidr)
               then throw (Error ("Invalid CIDR block format: " ++ cidr))
               else ok tt)
            cidrBlocks.

Definition validateInstanceTypes (instanceTypes : InstanceTypes) (regionName : string)
    : Result unit :=
  if negb (test validInstanceTypePattern (instanceTypes_iot instanceTypes))
  then throw (Error ("Invalid IoT instance type format in region " ++ regionName
                     ++ ": " ++ instanceTypes_iot instanceTypes))
  else if negb (test validInstanceTypePattern (instanceTypes_payment instanceTypes))
  then throw (Error ("Invalid Payment instance type format in region " ++ regionName
                     ++ ": " ++ instanceTypes_payment instanceTypes))
  else ok tt.

Definition validateDatabaseConfig (dbConfig : DatabaseConfig) (type regionName : string)
    : Result unit :=
  if negb (test validDbInstancePattern (instanceClass dbConfig))
  then throw (Error ("Invalid " ++ type ++ " database instance class in region "
                     ++ regionName ++ ": " ++ instanceClass dbConfig))
  else if less (allocatedStorage dbConfig) (integer 20)
          || greater (allocatedStorage dbConfig) (integer 65536)
  then throw (Error (type ++ " database allocated storage must be between 20 and 65536 GB in region "
                     ++ regionName))
  else if less (backupRetentionPeriod dbConfig) (integer 0)
          || greater (backupRetentionPeriod dbConfig) (integer 35)
  then throw (Error (type ++ " database backup retention period must be between 0 and 35 days in region "
                     ++ regionName))
  else
    match engineVersion dbConfig with
    | Some v =>
        if negb (String.eqb v "") && negb (test engineVersionPattern v)
        then throw (Error ("Invalid " ++ type ++ " database engine version format in region "
                           ++ regionName ++ ": " ++ v))
        else ok tt
    | None => ok tt
    end.

Definition validateRegionConfiguration (region : RegionConfig) : Result unit :=
  if negb (test regionRegex (regionName region))
  then throw (Error ("Invalid region name format: " ++ regionName region))
  else
    match availabilityZones region with
    | None =>
        throw (Error ("Region " ++ regionName region
                      ++ " must have at least 2 availability zones"))
    | Some azs =>
        if (List.length azs <? 2)%nat
        then throw (Error ("Region " ++ regionName region
                           ++ " must have at least 2 availability zones"))
        else
          forEach (fun az =>
                     if negb (startsWith az (regionName region))
                     then throw (Error ("Availability zone " ++ az
                                        ++ " does not match region " ++ regionName region))
                     else ok tt)
                  azs ;;
          validateInstanceTypes (instanceTypes region) (regionName region) ;;
          validateDatabaseConfig (databaseConfig_iot (databaseConfig region))
                                 "IoT" (regionName region) ;;
          validateDatabaseConfig (databaseConfig_payment (databaseConfig region))
                                 "Payment" (regionName region)
    end.

Definition validateEnvironmentConfiguration (this : t) (environment : string)
    : Result unit :=
  match environments (deploymentConfig this) with
  | None => throw (TypeError environment)
  | Some envs =>
      match own envs environment with
      | None => throw (TypeError "regions")
      | Some envConfig =>
          match regions envConfig with
          | None => throw (Error ("No regions configured for environment: " ++ environment))
          | Some rs =>
              if (List.length rs =? 0)%nat
              then throw (Error ("No regions configured for environment: " ++ environment))
              else
                validateCidrBlocks rs ;;
                forEach validateRegionConfiguration rs ;;
                let primaryRegion :=
                  primaryRegion (crossRegionSettings (deploymentConfig this)) in
                match find (fun r => String.eqb (regionName r) primaryRegion) rs with
                | Some primaryRegionInEnv =>
                    if negb (deployPayment primaryRegionInEnv)
                    then throw (Error ("Primary region '" ++ primaryRegion
                                       ++ "' must have payment deployment enabled"))
                    else ok tt
                | None => ok tt
                end
          end
      end
  end.

Definition validateConfiguration (this : t) : Result unit :=
  validateEnvironments this ;;
  validateCrossRegionSettings this ;;
  match environments (deploymentConfig this) with
  | None => throw (TypeError "keys")
  | Some envs => forEach (validateEnvironmentConfiguration this) (Object_keys envs)
  end.

(** [new ConfigurationManager(environment, customConfig)]: both arguments
    are optional. *)
Definition new (environment : option string) (customConfig : option DeploymentConfig)
    : Result t :=
  let this :=
    {| currentEnvironment :=
         match environment with Some e => e | None => "development" end;
       deploymentConfig :=
         match customConfig with
         | Some c => c
         | None => Regions.DEFAULT_DEPLOYMENT_CONFIG
         end |} in
  validateConfiguration this ;;
  ok this.

End ConfigurationManager.

(* ================================================================== *)
(** ** [config-manager.ts]: class ConfigurationValidator *)
(* ================================================================== *)

Module ConfigurationValidator.

Import Js.

(** [/^(\d{1,3}\.){3}\d{1,3}\/(\d{1,2})$/] *)
Definition cidrRegex : regex :=
  Seq (Rep 3 (Seq (Range 1 3 Digit) (Lit ".")))
      (Seq (Range 1 3 Digit) (Seq (Lit "/") (Range 1 2 Digit))).

Definition validateCidrBlock (cidr : string) : bool :=
  if negb (test cidrRegex cidr) then false
  else
    let parts := split "/" cidr in
    let ip := nth 0 parts "" in
    let prefixStr := nth_error parts 1 in
    let prefix := parseInt10_opt prefixStr in
    if lt prefix (Some 8%Z) || gt prefix (Some 28%Z) then false
    else
      let octets := map Number (split "." ip) in
      forallb (fun octet => ge octet (Some 0%Z) && le octet (Some 255%Z)) octets.

Definition cidrBlocksOverlap (cidr1 cidr2 : string) : bool :=
  if String.eqb cidr1 cidr2 then true
  else
    let ip1 := nth 0 (split "/" cidr1) "" in
    let ip2 := nth 0 (split "/" cidr2) "" in
    let network1 := join "." (slice0 2 (split "." ip1)) in
    let network2 := join "." (slice0 2 (split "." ip2)) in
    String.eqb network1 network2.

(** [/^[a-z]{2}-[a-z]+-\d+$/], the literal of [validateRegionConfiguration] *)
Definition regionRegex : regex := ConfigurationManager.regionRegex.

Definition validateRegionName (regionName : string) : bool :=
  test regionRegex regionName.

(** [/^[a-z]{2}-[a-z]+-\d+[a-z]$/] *)
Definition availabilityZoneRegex : regex :=
  Seq (Rep 2 Lower) (Seq (Lit "-") (Seq (Plus Lower) (Seq (Lit "-")
      (Seq (Plus Digit) Lower)))).

Definition validateAvailabilityZone (az regionName : string) : bool :=
  startsWith az regionName && test availabilityZoneRegex az.

(** [/^[a-z]\d+[a-z]*\.[a-z0-9]+$/], the literal of [validateInstanceTypes] *)
Definition instanceTypeRegex : regex :=
  ConfigurationManager.validInstanceTypePattern.

Definition validateInstanceType (instanceType : string) : bool :=
  test instanceTypeRegex instanceType.

(** [/^db\.[a-z]\d+\.[a-z0-9]+$/], the literal of [validateDatabaseConfig] *)
Definition rdsInstanceRegex : regex :=
  ConfigurationManager.validDbInstancePattern.

Definition validateRdsInstanceClass (instanceClass : string) : bool :=
  test rdsInstanceRegex instanceClass.

End ConfigurationValidator.

(* ================================================================== *)
(** ** [network-stack.ts]: class NetworkStack *)
(* ================================================================== *)

Module NetworkStack.

(** The constructs the stack hands to the CDK, as the arguments they are
    built with.  A security group is referred to by its construct id, so a
    rule whose peer is a group (possibly the group itself) holds a reference
    and not a copy. *)

Inductive Peer : Type :=
| anyIpv4
| securityGroup (id : string).

Inductive Port : Type :=
| tcp (port : Z)
| allTraffic.

Record IngressRule : Type := {
  rule_peer : Peer;
  rule_port : Port;
  rule_description : string
}.

Record SecurityGroup : Type := {
  description : string;
  allowAllOutbound : bool;
  ingressRules : list IngressRule
}.

Inductive SubnetType : Type := PUBLIC | PRIVATE_WITH_EGRESS.

Record SubnetConfiguration : Type := {
  cidrMask : Z;
  subnet_name : string;
  subnetType : SubnetType
}.

Record Vpc : Type := {
  ipAddresses : string;
  maxAzs : Z;
  enableDnsHostnames : bool;
  enableDnsSupport : bool;
  subnetConfiguration : list SubnetConfiguration;
  natGateways : Z
}.

Record TransitGateway : Type := {
  amazonSideAsn : Z;
  tgw_description : string;
  defaultRouteTableAssociation : string;
  defaultRouteTablePropagation : string;
  dnsSupport : string;
  vpnEcmpSupport : string;
  (* destination of the route added to each private route table *)
  destinationCidrBlock : string
}.

(** The security groups of the stack under construction, by construct id. *)
Definition Scope : Type := Dict SecurityGroup.

(** Construction steps read and update the scope. *)
Definition Build (A : Type) : Type := Scope -> A * Scope.

Definition andThen {A B : Type} (m : Build A) (k : A -> Build B) : Build B :=
  fun sc => let (a, sc') := m sc in k a sc'.

Notation "x <~ m ;; k" := (andThen m (fun x => k))
  (at level 61, m at next level, right associativity).
Notation "m ;;; k" := (andThen m (fun _ => k))
  (at level 61, right associativity).

Definition done {A : Type} (a : A) : Build A := fun sc => (a, sc).

(** [new ec2.SecurityGroup(this, id, { vpc, description, allowAllOutbound })]:
    returns the reference to the new group. *)
Definition new_SecurityGroup (id description : string) (allowAllOutbound : bool)
    : Build string :=
  fun sc =>
    (id, sc ++ [(id, {| description := description;
                        allowAllOutbound := allowAllOutbound;
                        ingressRules := [] |})]).

(** [sg.addIngressRule(peer, port, description)] *)
Definition addIngressRule (sg : string) (peer : Peer) (port : Port)
    (description : string) : Build unit :=
  fun sc =>
    (tt,
     map (fun entry : string * SecurityGroup =>
            let (id, g) := entry in
            if String.eqb id sg
            then (id, {| NetworkStack.description := NetworkStack.description g;
                         allowAllOutbound := allowAllOutbound g;
                         ingressRules :=
                           ingressRules g
                           ++ [{| rule_peer := peer; rule_port := port;
                                  rule_description := description |}] |})
            else entry)
         sc).

Definition configureSecurityGroupRules (webSg appSg dbSg : string) : Build unit :=
  (* Web tier security group rules *)
  addIngressRule webSg anyIpv4 (tcp 80) "Allow HTTP traffic from internet" ;;;
  addIngressRule webSg anyIpv4 (tcp 443) "Allow HTTPS traffic from internet" ;;;
  (* App tier security group rules *)
  addIngressRule appSg (securityGroup webSg) (tcp 8080) "Allow HTTP traffic from web tier" ;;;
  addIngressRule appSg (securityGroup webSg) (tcp 8443) "Allow HTTPS traffic from web tier" ;;;
  addIngressRule appSg (securityGroup appSg) allTraffic "Allow communication within app tier" ;;;
  (* Database tier security group rules *)
  addIngressRule dbSg (securityGroup appSg) (tcp 3306) "Allow MySQL access from app tier" ;;;
  addIngressRule dbSg (securityGroup appSg) (tcp 6379) "Allow Redis access from app tier" ;;;
  addIngressRule dbSg (securityGroup dbSg) allTraffic "Allow communication within database tier" ;;;
  (* IoT specific ports for app tier *)
  addIngressRule appSg anyIpv4 (tcp 8883) "Allow MQTT over TLS for IoT devices" ;;;
  addIngressRule appSg anyIpv4 (tcp 443) "Allow HTTPS for IoT device management".

Definition createTransitGateway : TransitGateway :=
  {| amazonSideAsn := 64512;
     tgw_description := "Transit Gateway for multi-region connectivity";
     defaultRouteTableAssociation := "enable";
     defaultRouteTablePropagation := "enable";
     dnsSupport := "enable";
     vpnEcmpSupport := "enable";
     destinationCidrBlock := "10.0.0.0/8" |}.

Record t : Type := {
  vpc : Vpc;
  webSecurityGroup : string;
  appSecurityGroup : string;
  databaseSecurityGroup : string;
  securityGroups : Scope;
  transitGateway : option TransitGateway;
  stackTags : list (string * string)
}.

(** [new NetworkStack(scope, id, props)]: the constructs the constructor
    builds.  Whether the CDK lets it build them is the matter of
    [Main.new_NetworkStack]. *)
Definition new (props : NetworkStackProps) : t :=
  let vpc :=
    {| ipAddresses := props_cidrBlock props;
       maxAzs := 2;
       enableDnsHostnames := true;
       enableDnsSupport := true;
       subnetConfiguration :=
         [ {| cidrMask := 24; subnet_name := "Public"; subnetType := PUBLIC |};
           {| cidrMask := 24; subnet_name := "Private";
              subnetType := PRIVATE_WITH_EGRESS |} ];
       natGateways := 2 |} in
  let build : Build (string * string * string) :=
    webSecurityGroup <~
      new_SecurityGroup "WebSecurityGroup"
        "Security group for web tier (ALB, public-facing services)" true ;;
    appSecurityGroup <~
      new_SecurityGroup "AppSecurityGroup"
        "Security group for application tier (EC2, ECS)" true ;;
    databaseSecurityGroup <~
      new_SecurityGroup "DatabaseSecurityGroup"
        "Security group for database tier (RDS, ElastiCache)" false ;;
    configureSecurityGroupRules webSecurityGroup appSecurityGroup databaseSecurityGroup ;;;
    done (webSecurityGroup, appSecurityGroup, databaseSecurityGroup) in
  let '((web, app, db), scope) := build [] in
  {| vpc := vpc;
     webSecurityGroup := web;
     appSecurityGroup := app;
     databaseSecurityGroup := db;
     securityGroups := scope;
     transitGateway :=
       match props_enableTransitGateway props with
       | Some true => Some createTransitGateway
       | _ => None
       end;
     stackTags :=
       match props_tags props with Some tags => tags | None => [] end
       ++ [ ("Environment", props_environment props);
            ("Region", props_region props);
            ("StackType", "Network") ] |}.

End NetworkStack.

(* ================================================================== *)
(** ** Vocabulary of the specification *)
(* ================================================================== *)

(** *** The language of a pattern *)

Inductive lang : Js.regex -> string -> Prop :=
| lang_eps : lang Js.Eps ""
| lang_class p c : p c = true -> lang (Js.Class p) (String c "")
| lang_seq r1 r2 s1 s2 :
    lang r1 s1 -> lang r2 s2 -> lang (Js.Seq r1 r2) (s1 ++ s2)
| lang_alt_l r1 r2 s : lang r1 s -> lang (Js.Alt r1 r2) s
| lang_alt_r r1 r2 s : lang r2 s -> lang (Js.Alt r1 r2) s
| lang_star_nil r : lang (Js.Star r) ""
| lang_star_cons r s1 s2 :
    lang r s1 -> lang (Js.Star r) s2 -> lang (Js.Star r) (s1 ++ s2).

(** *** Dotted-quad/prefix text *)

(** Every character of [s] satisfies [p]. *)
Fixpoint every_char (p : ascii -> bool) (s : string) : Prop :=
  match s with
  | EmptyString => True
  | String c s' => p c = true /\ every_char p s'
  end.

(** [c] is not the separator. *)
Definition differs (sep : ascii) (c : ascii) : bool := negb (Ascii.eqb c sep).

(** Value of a run of decimal digits, most significant first. *)
Fixpoint decimal (s : string) : Z :=
  match s with
  | EmptyString => 0
  | String c s' =>
      Js.digit_value c * 10 ^ Z.of_nat (String.length s') + decimal s'
  end.

(** Between [lo] and [hi] decimal digits. *)
Definition digits_between (lo hi : nat) (s : string) : Prop :=
  every_char Js.is_digit s /\ (lo <= String.length s <= hi)%nat.

(** The parts of [a.b.c.d/len] as they are written. *)
Record Cidr : Type := {
  octet1 : string;
  octet2 : string;
  octet3 : string;
  octet4 : string;
  prefixLength : string
}.

Definition cidr_text (c : Cidr) : string :=
  octet1 c ++ "." ++ octet2 c ++ "." ++ octet3 c ++ "." ++ octet4 c
  ++ "/" ++ prefixLength c.

(** The address part, before the slash. *)
Definition cidr_ip (c : Cidr) : string :=
  octet1 c ++ "." ++ octet2 c ++ "." ++ octet3 c ++ "." ++ octet4 c.

(** Dotted-quad/prefix syntax: four fields of one to three digits and a
    prefix length of one or two digits. *)
Definition cidr_syntax (c : Cidr) : Prop :=
  digits_between 1 3 (octet1 c) /\ digits_between 1 3 (octet2 c) /\
  digits_between 1 3 (octet3 c) /\ digits_between 1 3 (octet4 c) /\
  digits_between 1 2 (prefixLength c).

(** The ranges [validateCidrBlock] asks for. *)
Definition cidr_in_range (c : Cidr) : Prop :=
  (8 <= decimal (prefixLength c) <= 28)%Z /\
  (0 <= decimal (octet1 c) <= 255)%Z /\ (0 <= decimal (octet2 c) <= 255)%Z /\
  (0 <= decimal (octet3 c) <= 255)%Z /\ (0 <= decimal (octet4 c) <= 255)%Z.

(** *** Bundles *)

(** [env] is the environment that [cfg] declares under [name]. *)
Definition declares (cfg : DeploymentConfig) (name : string)
    (env : EnvironmentConfig) : Prop :=
  exists envs, environments cfg = Some envs /\ own envs name = Some env.

(** [r] is one of the regions of [env]. *)
Definition has_region (env : EnvironmentConfig) (r : RegionConfig) : Prop :=
  exists rs, regions env = Some rs /\ In r rs.

(** The region that [find] returns for the primary region's name. *)
Definition primary_region_of (cfg : DeploymentConfig) (env : EnvironmentConfig)
    (r : RegionConfig) : Prop :=
  exists rs,
    regions env = Some rs /\
    find (fun r' => String.eqb (regionName r')
                      (primaryRegion (crossRegionSettings cfg))) rs = Some r.

(** [r1] and [r2] are two regions of the list, at different positions. *)
Definition two_regions (rs : list RegionConfig) (r1 r2 : RegionConfig) : Prop :=
  exists i j, i <> j /\ nth_error rs i = Some r1 /\ nth_error rs j = Some r2.

(** The keys of the bundle's dictionary of environments are distinct, as
    the keys of an object are. *)
Definition keys_unique (cfg : DeploymentConfig) : Prop :=
  forall envs, environments cfg = Some envs -> NoDup (Object_keys envs).

(** The regions pass the CIDR check and the per-region checks. *)
Definition regions_valid (rs : list RegionConfig) : Prop :=
  ConfigurationManager.validateCidrBlocks rs = ok tt /\
  Forall (fun r => ConfigurationManager.validateRegionConfiguration r = ok tt) rs.

(** [az] is [region] followed by something. *)
Definition prefixed_by (az region : string) : Prop :=
  exists rest, az = (region ++ rest)%string.

(** [word] occurs in [text]. *)
Fixpoint mentions (text word : string) : bool :=
  Js.startsWith text word
  || match text with
     | EmptyString => false
     | String _ rest => mentions rest word
     end.

(** Outcome of [new ConfigurationManager(environment, customConfig)]. *)
Definition accepted (environment : option string)
    (customConfig : option DeploymentConfig) : Prop :=
  exists this, ConfigurationManager.new environment customConfig = inr this.

Definition rejected (environment : option string)
    (customConfig : option DeploymentConfig) : Prop :=
  exists e, ConfigurationManager.new environment customConfig = inl e.

(** The configuration the constructor validates. *)
Definition config_of (customConfig : option DeploymentConfig) : DeploymentConfig :=
  match customConfig with
  | Some c => c
  | None => Regions.DEFAULT_DEPLOYMENT_CONFIG
  end.

(** The instance as the constructor has assigned it when validation starts. *)
Definition instance_of (environment : option string)
    (customConfig : option DeploymentConfig) : ConfigurationManager.t :=
  {| ConfigurationManager.currentEnvironment :=
       match environment with Some e => e | None => "development" end;
     ConfigurationManager.deploymentConfig := config_of customConfig |}.

(** Validation reaches environment [name]: the two bundle-level checks pass
    and so does every environment that [Object.keys] lists before [name]. *)
Definition reaches (this : ConfigurationManager.t) (name : string) : Prop :=
  ConfigurationManager.validateEnvironments this = ok tt /\
  ConfigurationManager.validateCrossRegionSettings this = ok tt /\
  exists envs before after,
    environments (ConfigurationManager.deploymentConfig this) = Some envs /\
    Object_keys envs = before ++ name :: after /\
    Forall (fun k =>
              ConfigurationManager.validateEnvironmentConfiguration this k = ok tt)
           before.

(* ================================================================== *)
(** ** Bundles of [config-manager.test.ts], and a few more *)
(* ================================================================== *)

Module Examples.

Import Regions.

(** [{ ...r, cidrBlock }] and the like. *)
Definition set_cidrBlock (r : RegionConfig) (cidr : string) : RegionConfig :=
  {| regionName := regionName r; cidrBlock := cidr;
     availabilityZones := availabilityZones r; deployIoT := deployIoT r;
     deployPayment := deployPayment r; deployDemo := deployDemo r;
     instanceTypes := instanceTypes r; databaseConfig := databaseConfig r |}.

Definition set_deployPayment (r : RegionConfig) (b : bool) : RegionConfig :=
  {| regionName := regionName r; cidrBlock := cidrBlock r;
     availabilityZones := availabilityZones r; deployIoT := deployIoT r;
     deployPayment := b; deployDemo := deployDemo r;
     instanceTypes := instanceTypes r; databaseConfig := databaseConfig r |}.

Definition set_regionName (r : RegionConfig) (name : string) : RegionConfig :=
  {| regionName := name; cidrBlock := cidrBlock r;
     availabilityZones := availabilityZones r; deployIoT := deployIoT r;
     deployPayment := deployPayment r; deployDemo := deployDemo r;
     instanceTypes := instanceTypes r; databaseConfig := databaseConfig r |}.


(** The environment the tests wrap around a list of regions. *)
Definition test_environment (rs : option (list RegionConfig)) : EnvironmentConfig :=
  {| regions := rs;
     stackNaming := {| prefix := "Test"; suffix := "Stack" |};
     tags := [];
     settings :=
       {| enableCdkNag := false; enableDetailedMonitoring := false;
          costOptimization :=
            {| useSpotInstances := false; enableAutoScaling := false |} |} |}.

Definition bundle (envs : Dict EnvironmentConfig) (primary : string)
    : DeploymentConfig :=
  {| environments := Some envs;
     crossRegionSettings :=
       {| enableTransitGateway := false;
          paymentApiEndpoint := "https://test.com";
          primaryRegion := primary |} |}.

Definition test_config (rs : list RegionConfig) : DeploymentConfig :=
  bundle [("test", test_environment (Some rs))] "us-east-1".

(** 'should validate overlapping CIDR blocks' *)
Definition same_cidr : DeploymentConfig :=
  test_config [ set_cidrBlock us_east_1 "10.1.0.0/16";
                set_cidrBlock eu_central_1 "10.1.0.0/16" ].

(** 'should validate primary region has payment deployment' *)
Definition primary_without_payment : DeploymentConfig :=
  test_config [ set_deployPayment us_east_1 false ].

(** 'should validate region name format' *)
Definition invalid_region_name : DeploymentConfig :=
  bundle [("test", test_environment
                     (Some [set_regionName us_east_1 "invalid-region"]))]
         "invalid-region".


(** Two environments, the second without the primary region. *)
Definition edge : EnvironmentConfig := test_environment (Some [eu_central_1]).

Definition primary_absent_from_edge : DeploymentConfig :=
  bundle [ ("development", test_environment (Some [us_east_1]));
           ("edge", edge) ] "us-east-1".

(** The primary region is in no environment. *)
Definition primary_absent : DeploymentConfig := test_config [ eu_central_1 ].

(** Two regions on the network 10.1, written differently. *)
Definition eu_on_10_1 : RegionConfig := set_cidrBlock eu_central_1 "10.1.5.0/24".

Definition shared_network : DeploymentConfig :=
  test_config [ us_east_1; eu_on_10_1 ].

(** Two regions named as the primary region, the second without payment. *)
Definition second_us_east_1 : RegionConfig :=
  set_deployPayment (set_cidrBlock us_east_1 "10.2.0.0/16") false.

Definition shadowed_primary : DeploymentConfig :=
  test_config [ us_east_1; second_us_east_1 ].

(** Two regions of the same name. *)
Definition us_east_1_again : RegionConfig := set_cidrBlock us_east_1 "10.2.0.0/16".

Definition repeated_name : DeploymentConfig :=
  test_config [ us_east_1; us_east_1_again ].




(** An only environment without regions. *)
Definition no_regions : DeploymentConfig := test_config [].

(** A second environment without regions, or without the array. *)
Definition staging_empty : DeploymentConfig :=
  bundle [ ("test", test_environment (Some [us_east_1]));
           ("staging", test_environment (Some [])) ] "us-east-1".

Definition staging_missing : DeploymentConfig :=
  bundle [ ("test", test_environment (Some [us_east_1]));
           ("staging", test_environment None) ] "us-east-1".

End Examples.

(* ================================================================== *)
(** ** Reading a property through the prototype chain *)
(* ================================================================== *)

(** What [d[k]] evaluates to when it is not [undefined]: an own property of
    the dictionary, or a member of [Object.prototype] (a function, or the
    prototype itself), which is truthy and has none of the fields the source
    reads from it afterwards. *)
Inductive Value (A : Type) : Type :=
| Object (a : A)
| Builtin.

Arguments Object {A} a.
Arguments Builtin {A}.

(** [d[k]]; [None] is [undefined]. *)
Definition get {A : Type} (d : Dict A) (k : string) : option (Value A) :=
  match own d k with
  | Some a => Some (Object a)
  | None =>
      if existsb (String.eqb k) Object_prototype_keys then Some Builtin else None
  end.

(** [a || b] on strings: the empty string and [undefined] are falsy. *)
Definition or_else (a : option string) (b : string) : string :=
  match a with
  | Some s => if String.eqb s "" then b else s
  | None => b
  end.

(* ================================================================== *)
(** ** [config-manager.ts]: the queries of class ConfigurationManager *)
(* ================================================================== *)

Module Queries.

Import ConfigurationManager.

Definition getDeploymentConfig (this : t) : DeploymentConfig :=
  deploymentConfig this.

Definition getEnvironmentConfig (this : t) (environment : option string)
    : Result (Value EnvironmentConfig) :=
  let env := or_else environment (currentEnvironment this) in
  match environments (deploymentConfig this) with
  | None => throw (TypeError env)
  | Some envs =>
      match get envs env with
      | None => throw (Error ("Environment configuration not found for: " ++ env))
      | Some config => ok config
      end
  end.

(** [envConfig.regions], [envConfig.stackNaming], [envConfig.tags]:
    [undefined] on a member of [Object.prototype]. *)
Definition regions_of (envConfig : Value EnvironmentConfig)
    : option (list RegionConfig) :=
  match envConfig with
  | Object c => regions c
  | Builtin => None
  end.

Definition stackNaming_of (envConfig : Value EnvironmentConfig)
    : option StackNaming :=
  match envConfig with
  | Object c => Some (stackNaming c)
  | Builtin => None
  end.

Definition tags_of (envConfig : Value EnvironmentConfig) : option (Dict string) :=
  match envConfig with
  | Object c => Some (tags c)
  | Builtin => None
  end.

(** [getRegionConfig(regionName)]; the argument is called [name] here, to
    leave [regionName] to the field. *)
Definition getRegionConfig (this : t) (name : string)
    : Result (Value RegionConfig) :=
  envConfig <- getEnvironmentConfig this None ;;
  match regions_of envConfig with
  | None => throw (TypeError "find")
  | Some rs =>
      match find (fun r => String.eqb (regionName r) name) rs with
      | Some regionInEnv => ok (Object regionInEnv)
      | None =>
          match get Regions.DEFAULT_REGIONS name with
          | None => throw (Error ("Region configuration not found for: " ++ name))
          | Some defaultRegion => ok defaultRegion
          end
      end
  end.

Definition getEnvironmentRegions (this : t) (environment : option string)
    : Result (option (list RegionConfig)) :=
  envConfig <- getEnvironmentConfig this environment ;;
  ok (regions_of envConfig).

(** [getEnvironmentRegions(environment).filter(flag)] *)
Definition filtered (flag : RegionConfig -> bool) (this : t)
    (environment : option string) : Result (list RegionConfig) :=
  rs <- getEnvironmentRegions this environment ;;
  match rs with
  | None => throw (TypeError "filter")
  | Some l => ok (filter flag l)
  end.

Definition getIoTRegions : t -> option string -> Result (list RegionConfig) :=
  filtered deployIoT.

Definition getPaymentRegions : t -> option string -> Result (list RegionConfig) :=
  filtered deployPayment.

Definition getDemoRegions : t -> option string -> Result (list RegionConfig) :=
  filtered deployDemo.

Definition getStackNaming (this : t) (environment : option string)
    : Result (option StackNaming) :=
  envConfig <- getEnvironmentConfig this environment ;;
  ok (stackNaming_of envConfig).

Definition getCommonTags (this : t) (environment : option string)
    : Result (option (Dict string)) :=
  envConfig <- getEnvironmentConfig this environment ;;
  ok (tags_of envConfig).

Definition generateStackName (this : t) (stackType regionName : string)
    (environment : option string) : Result string :=
  naming <- getStackNaming this environment ;;
  match naming with
  | None => throw (TypeError "prefix")
  | Some n =>
      ok (prefix n ++ "-" ++ stackType ++ "-" ++ regionName ++ "-" ++ suffix n)%string
  end.

End Queries.

(* ================================================================== *)
(** ** [regions.ts]: the utility functions *)
(* ================================================================== *)

Module RegionsUtil.

Import Regions.

Definition getRegionConfig (regionName : string) : Result (Value RegionConfig) :=
  match get DEFAULT_REGIONS regionName with
  | None => throw (Error ("Region configuration not found for: " ++ regionName))
  | Some config => ok config
  end.

Definition getAllRegions : list RegionConfig := Object_values DEFAULT_REGIONS.

Definition getEnvironmentRegions (environment : string)
    : Result (option (list RegionConfig)) :=
  match environments DEFAULT_DEPLOYMENT_CONFIG with
  | None => throw (TypeError environment)
  | Some envs =>
      match get envs environment with
      | None => throw (Error ("Environment configuration not found for: " ++ environment))
      | Some envConfig => ok (Queries.regions_of envConfig)
      end
  end.

Definition validateCidrBlocks (regions : list RegionConfig) : Result bool :=
  let cidrBlocks := map cidrBlock regions in
  if negb (List.length cidrBlocks =? Js.Set_size cidrBlocks)%nat
  then throw (Error "Overlapping CIDR blocks detected in region configuration")
  else ok true.

End RegionsUtil.

(* ================================================================== *)
(** ** [config-manager.ts]: class ConfigurationLoader *)
(* ================================================================== *)

Module ConfigurationLoader.

(** [Partial<DeploymentConfig>] *)
Record PartialDeploymentConfig : Type := {
  override_environments : option (Dict EnvironmentConfig);
  override_crossRegionSettings : option CrossRegionSettings
}.

(** [loadFromEnvironment()], as a function of [process.env.CDK_ENVIRONMENT]. *)
Definition loadFromEnvironment (CDK_ENVIRONMENT : option string)
    : Result DeploymentConfig :=
  let environment := or_else CDK_ENVIRONMENT "development" in
  configManager <- ConfigurationManager.new (Some environment) None ;;
  ok (Queries.getDeploymentConfig configManager).

(** *** Writing a property

    [Object.keys] lists the keys that are array indices first, in ascending
    order, and then the others in the order they were created. *)

(** The index that [k] denotes if it is an array index: a canonical decimal
    numeral below [2^32 - 1]. *)
Definition array_index (k : string) : option Z :=
  match k with
  | EmptyString => None
  | String c rest =>
      if Js.all_digits k
         && (negb (Ascii.eqb c "0") || String.eqb rest "")
      then
        let v := fst (Js.read_digits 0 false k) in
        if (v <? 4294967295)%Z then Some v else None
      else None
  end.

(** Replaces the value of the own property [k]. *)
Fixpoint replace_own {A : Type} (d : Dict A) (k : string) (v : A) : Dict A :=
  match d with
  | [] => []
  | (k', v') :: rest =>
      if String.eqb k' k then (k', v) :: rest
      else (k', v') :: replace_own rest k v
  end.

(** Creates the array-index property [k], of index [i], at its place. *)
Fixpoint insert_index {A : Type} (d : Dict A) (i : Z) (k : string) (v : A)
    : Dict A :=
  match d with
  | [] => [(k, v)]
  | (k', v') :: rest =>
      match array_index k' with
      | Some j =>
          if (j <? i)%Z then (k', v') :: insert_index rest i k v
          else (k, v) :: d
      | None => (k, v) :: d
      end
  end.

(** [d[k] = v] on a plain object.  When [k] is ["__proto__"] and no own
    property has that name, the assignment replaces the prototype of the
    object instead of creating a property: the dictionary that results is no
    plain object any more and is outside this embedding ([None]). *)
Definition assign {A : Type} (d : Dict A) (k : string) (v : A)
    : option (Dict A) :=
  match own d k with
  | Some _ => Some (replace_own d k v)
  | None =>
      if String.eqb k "__proto__" then None
      else
        match array_index k with
        | Some i => Some (insert_index d i k v)
        | None => Some (d ++ [(k, v)])
        end
  end.

(** [{ ...base, ...override }] on environments: [regions] is copied from
    [override] when it has the property, the other fields always are. *)
Definition spread_environment (base : option EnvironmentConfig)
    (override : EnvironmentConfig) : EnvironmentConfig :=
  {| regions :=
       match regions override with
       | Some rs => Some rs
       | None =>
           match base with
           | Some b => regions b
           | None => None
           end
       end;
     stackNaming := stackNaming override;
     tags := tags override;
     settings := settings override |}.

(** The loop over [Object.keys(overrideConfig.environments)]. *)
Fixpoint merge_environments (merged : Dict EnvironmentConfig)
    (overrides : Dict EnvironmentConfig) (keys : list string)
    : option (Dict EnvironmentConfig) :=
  match keys with
  | [] => Some merged
  | env :: rest =>
      match own overrides env with
      | Some o =>
          match assign merged env (spread_environment (own merged env) o) with
          | Some merged' => merge_environments merged' overrides rest
          | None => None
          end
      | None => merge_environments merged overrides rest
      end
  end.

(** [mergeConfigurations(baseConfig, overrideConfig)]; [None] when an
    assignment leaves the embedding (see [assign]). *)
Definition mergeConfigurations (baseConfig : DeploymentConfig)
    (overrideConfig : PartialDeploymentConfig)
    : option (Result DeploymentConfig) :=
  let environments0 :=
    match environments baseConfig with
    | Some envs => envs
    | None => []
    end in
  let crossRegionSettings1 :=
    match override_crossRegionSettings overrideConfig with
    | Some s => s
    | None => crossRegionSettings baseConfig
    end in
  let environments1 :=
    match override_environments overrideConfig with
    | Some overrides =>
        merge_environments environments0 overrides (Object_keys overrides)
    | None => Some environments0
    end in
  match environments1 with
  | None => None
  | Some envs =>
      let merged :=
        {| environments := Some envs;
           crossRegionSettings := crossRegionSettings1 |} in
      Some (manager <- ConfigurationManager.new (Some "development") (Some merged) ;;
            ok merged)
  end.

End ConfigurationLoader.

(* ================================================================== *)
(** ** [main.ts] *)
(* ================================================================== *)

Module Main.

(** A stack the application has created: its id, the properties it was
    given and the constructs it holds. *)
Record CreatedStack : Type := {
  stackName : string;
  stackProps : NetworkStackProps;
  stack : NetworkStack.t
}.

(** The CDK, as far as the script depends on it.  The constructor of
    [NetworkStack] runs [super(scope, id, props)] and [new ec2.Vpc(...)]
    before anything else: code of the CDK, which throws on ids and
    properties that the configuration manager lets through (an id the
    application already holds, a block too small for the subnets asked
    for).  That code is no part of this repository and is a parameter here:
    in the process environment the script runs in, for the stacks the
    application holds, an id and the properties, it tells whether the
    constructor throws, and what. *)
Definition Cdk : Type :=
  list CreatedStack -> string -> NetworkStackProps -> option Exception.

(** [new NetworkStack(app, id, props)] in an application that holds the
    stacks [app]. *)
Definition new_NetworkStack (cdk : Cdk) (app : list CreatedStack) (id : string)
    (props : NetworkStackProps) : Result CreatedStack :=
  match cdk app id props with
  | Some e => throw e
  | None =>
      ok {| stackName := id; stackProps := props; stack := NetworkStack.new props |}
  end.

(** The loop over the regions of the current environment, in an application
    that holds the stacks [app]; it returns the stacks of the application. *)
Fixpoint createNetworkStacksIn (cdk : Cdk) (configManager : ConfigurationManager.t)
    (environment : string) (regions : list RegionConfig) (app : list CreatedStack)
    : Result (list CreatedStack) :=
  match regions with
  | [] => ok app
  | regionConfig :: rest =>
      stackName <- Queries.generateStackName configManager "Network"
                     (regionName regionConfig) None ;;
      tags <- Queries.getCommonTags configManager None ;;
      created <- new_NetworkStack cdk app stackName
                   {| props_region := regionName regionConfig;
                      props_cidrBlock := cidrBlock regionConfig;
                      props_enableTransitGateway :=
                        Some (ConfigurationManager.shouldEnableTransitGateway
                                configManager (regionName regionConfig));
                      props_environment := environment;
                      props_tags := tags |} ;;
      createNetworkStacksIn cdk configManager environment rest (app ++ [created])
  end.

Definition createNetworkStacksUnder (cdk : Cdk)
    (configManager : ConfigurationManager.t) (environment : string)
    (regions : list RegionConfig) : Result (list CreatedStack) :=
  createNetworkStacksIn cdk configManager environment regions [].

(** A CDK that refuses nothing. *)
Definition lenient : Cdk := fun _ _ _ => None.

(** The loop when the CDK refuses none of its stacks. *)
Definition createNetworkStacks (configManager : ConfigurationManager.t)
    (environment : string) (regions : list RegionConfig)
    : Result (list CreatedStack) :=
  createNetworkStacksUnder lenient configManager environment regions.

(** The script, as a function of the context value ["environment"], when
    the CDK refuses none of its stacks. *)
Definition main (context_environment : option string) : Result (list CreatedStack) :=
  let environment := or_else context_environment "development" in
  configManager <- ConfigurationManager.new (Some environment) None ;;
  regions <- Queries.getEnvironmentRegions configManager None ;;
  match regions with
  | None => throw (TypeError "forEach")
  | Some rs => createNetworkStacks configManager environment rs
  end.

End Main.

(* ================================================================== *)
(** ** Further bundles *)
(* ================================================================== *)

Module MoreExamples.

Import Regions Examples.

(** A block of the right shape whose numbers are out of range. *)
Definition out_of_range : DeploymentConfig :=
  test_config [ set_cidrBlock us_east_1 "999.1.0.0/99" ].

(** A block without prefix length. *)
Definition no_prefix_length : DeploymentConfig :=
  test_config [ set_cidrBlock us_east_1 "10.1.0.0" ].

(** Example 3 of the usage file: one environment, "staging". *)
Definition us_west_2 : RegionConfig :=
  {| regionName := "us-west-2"; cidrBlock := "10.5.0.0/16";
     availabilityZones := Some ["us-west-2a"; "us-west-2b"];
     deployIoT := true; deployPayment := true; deployDemo := false;
     instanceTypes :=
       {| instanceTypes_iot := "t3.small"; instanceTypes_payment := "t3.medium" |};
     databaseConfig :=
       {| databaseConfig_iot :=
            {| instanceClass := "db.t3.micro"; allocatedStorage := Js.integer 20;
               multiAz := false; backupRetentionPeriod := Js.integer 3;
               engineVersion := None; encrypted := Some true |};
          databaseConfig_payment :=
            {| instanceClass := "db.t3.small"; allocatedStorage := Js.integer 50;
               multiAz := false; backupRetentionPeriod := Js.integer 7;
               engineVersion := None; encrypted := Some true |} |} |}.

Definition staging : EnvironmentConfig :=
  {| regions := Some [us_west_2];
     stackNaming := {| prefix := "Staging"; suffix := "Stack" |};
     tags := [("Environment", "Staging"); ("Project", "Multi-Region-Demo")];
     settings :=
       {| enableCdkNag := true; enableDetailedMonitoring := false;
          costOptimization :=
            {| useSpotInstances := true; enableAutoScaling := true |} |} |}.

Definition customConfig : DeploymentConfig :=
  {| environments := Some [("staging", staging)];
     crossRegionSettings :=
       {| enableTransitGateway := false;
          paymentApiEndpoint := "https://staging-payment-api.com";
          primaryRegion := "us-west-2" |} |}.


(** An override that only renames the stacks of "development": it has no
    [regions] property. *)
Definition renamed_development : EnvironmentConfig :=
  {| regions := None;
     stackNaming := {| prefix := "Demo"; suffix := "Sandbox" |};
     tags := [];
     settings := settings Regions.development |}.

Definition rename_development : ConfigurationLoader.PartialDeploymentConfig :=
  {| ConfigurationLoader.override_environments :=
       Some [("development", renamed_development)];
     ConfigurationLoader.override_crossRegionSettings := None |}.

(** A storage that is no number, as [Number("20GB")] gives it. *)
Definition set_iot_storage (r : RegionConfig) (storage : Js.double) : RegionConfig :=
  {| regionName := regionName r; cidrBlock := cidrBlock r;
     availabilityZones := availabilityZones r; deployIoT := deployIoT r;
     deployPayment := deployPayment r; deployDemo := deployDemo r;
     instanceTypes := instanceTypes r;
     databaseConfig :=
       {| databaseConfig_iot :=
            let db := databaseConfig_iot (databaseConfig r) in
            {| instanceClass := instanceClass db; allocatedStorage := storage;
               multiAz := multiAz db;
               backupRetentionPeriod := backupRetentionPeriod db;
               engineVersion := engineVersion db; encrypted := encrypted db |};
          databaseConfig_payment := databaseConfig_payment (databaseConfig r) |} |}.

Definition storage_not_a_number : DeploymentConfig :=
  test_config [ set_iot_storage us_east_1 Js.NaN ].

Definition storage_unbounded : DeploymentConfig :=
  test_config [ set_iot_storage us_east_1 Js.PosInfinity ].

(** A CDK that refuses an id the application already holds, and nothing
    else. *)
Definition distinct_ids : Main.Cdk :=
  fun app id _ =>
    if existsb (String.eqb id) (map Main.stackName app)
    then Some (Error ("There is already a Construct with name '" ++ id ++ "' in App"))
    else None.


End MoreExamples.

(* ================================================================== *)
(** ** Vocabulary for the queries and the field rules *)
(* ================================================================== *)

(** [name] is a member of [Object.prototype]. *)
Definition inherited (name : string) : Prop := In name Object_prototype_keys.

(** [x] is [NaN], or a finite number from [lo] to [hi]: what passes
    [x < lo || x > hi]. *)
Definition NaN_or_within (lo hi : Z) (x : Js.double) : Prop :=
  x = Js.NaN \/
  exists q, x = Js.Finite q /\
            QArith_base.Qle (QArith_base.inject_Z lo) q /\
            QArith_base.Qle q (QArith_base.inject_Z hi).

(** The rules [validateDatabaseConfig] enforces. *)
Definition database_rules (db : DatabaseConfig) : Prop :=
  lang ConfigurationManager.validDbInstancePattern (instanceClass db) /\
  NaN_or_within 20 65536 (allocatedStorage db) /\
  NaN_or_within 0 35 (backupRetentionPeriod db) /\
  forall v, engineVersion db = Some v -> v <> EmptyString ->
            lang ConfigurationManager.engineVersionPattern v.

(** A region name as it is written: two lower-case letters, a dash, a
    non-empty run of lower-case letters, a dash, a non-empty run of digits. *)
Record RegionName : Type := {
  area1 : ascii;
  area2 : ascii;
  direction : string;
  number : string
}.

Definition region_text (n : RegionName) : string :=
  String (area1 n) (String (area2 n) ("-" ++ direction n ++ "-" ++ number n)).

Definition region_syntax (n : RegionName) : Prop :=
  Js.is_lower (area1 n) = true /\ Js.is_lower (area2 n) = true /\
  every_char Js.is_lower (direction n) /\ direction n <> EmptyString /\
  every_char Js.is_digit (number n) /\ number n <> EmptyString.

(** The environments of a bundle; none when the property is missing. *)
Definition environments_of (cfg : DeploymentConfig) : Dict EnvironmentConfig :=
  match environments cfg with
  | Some envs => envs
  | None => []
  end.

(** The environment an override gives for [name], if any. *)
Definition override_at (overrideConfig : ConfigurationLoader.PartialDeploymentConfig)
    (name : string) : option EnvironmentConfig :=
  match ConfigurationLoader.override_environments overrideConfig with
  | Some overrides => own overrides name
  | None => None
  end.

(** The environment a manager is current in, when the bundle declares it. *)
Definition current_environment (this : ConfigurationManager.t)
    (env : EnvironmentConfig) : Prop :=
  declares (ConfigurationManager.deploymentConfig this)
           (ConfigurationManager.currentEnvironment this) env.

(** The stack that the loop of [main.ts] creates for a region. *)
Definition network_stack_for (this : ConfigurationManager.t) (env : EnvironmentConfig)
    (label : string) (r : RegionConfig) : Main.CreatedStack :=
  let props :=
    {| props_region := regionName r;
       props_cidrBlock := cidrBlock r;
       props_enableTransitGateway :=
         Some (ConfigurationManager.shouldEnableTransitGateway this (regionName r));
       props_environment := label;
       props_tags := Some (tags env) |} in
  {| Main.stackName :=
       (prefix (stackNaming env) ++ "-" ++ "Network" ++ "-" ++ regionName r
        ++ "-" ++ suffix (stackNaming env))%string;
     Main.stackProps := props;
     Main.stack := NetworkStack.new props |}.

(** What the CDK throws, if it does, when the stacks of the list are
    created one after the other in an application that holds [app]. *)
Fixpoint first_refusal (cdk : Main.Cdk) (app stacks : list Main.CreatedStack)
    : option Exception :=
  match stacks with
  | [] => None
  | s :: rest =>
      match cdk app (Main.stackName s) (Main.stackProps s) with
      | Some e => Some e
      | None => first_refusal cdk (app ++ [s]) rest
      end
  end.

(** The stack [s] is the one [main.ts] creates for region [r]. *)
Definition stack_of_region (this : ConfigurationManager.t)
    (env : EnvironmentConfig) (r : RegionConfig) (s : Main.CreatedStack) : Prop :=
  Main.stackName s =
    (prefix (stackNaming env) ++ "-Network-" ++ regionName r ++ "-"
     ++ suffix (stackNaming env))%string /\
  props_region (Main.stackProps s) = regionName r /\
  props_cidrBlock (Main.stackProps s) = cidrBlock r /\
  props_tags (Main.stackProps s) = Some (tags env) /\
  Main.stack s = NetworkStack.new (Main.stackProps s) /\
  (NetworkStack.transitGateway (Main.stack s) =
     Some NetworkStack.createTransitGateway <->
   enableTransitGateway
     (crossRegionSettings (ConfigurationManager.deploymentConfig this)) = true /\
   regionName r =
     primaryRegion (crossRegionSettings (ConfigurationManager.deploymentConfig this))) /\
  (NetworkStack.transitGateway (Main.stack s) = None \/
   NetworkStack.transitGateway (Main.stack s) =
     Some NetworkStack.createTransitGateway).

(* ================================================================== *)
(** ** Regular expressions: the matcher decides the language *)
(* ================================================================== *)

Ltac invert H := inversion H; subst; clear H.

Section RegexCorrect.

Import Js.
Local Open Scope string_scope.

Lemma append_nil_r (s : string) : s ++ "" = s.
Proof. induction s as [|c s IH]; simpl; [reflexivity | now rewrite IH]. Qed.

Lemma append_assoc (a b c : string) : (a ++ b) ++ c = a ++ b ++ c.
Proof. induction a as [|x a IH]; simpl; [reflexivity | now rewrite IH]. Qed.

Lemma append_eq_nil (a b : string) : a ++ b = "" -> a = "" /\ b = "".
Proof. destruct a; simpl; [auto | discriminate]. Qed.

Lemma nullable_lang (r : regex) : nullable r = true <-> lang r "".
Proof.
  induction r as [| |p|r1 IH1 r2 IH2|r1 IH1 r2 IH2|r IH]; simpl.
  - split; [discriminate | intros H; invert H].
  - split; [constructor | reflexivity].
  - split; [discriminate | intros H; invert H].
  - rewrite andb_true_iff, IH1, IH2. split.
    + intros [H1 H2]. exact (lang_seq _ _ "" "" H1 H2).
    + intros H. inversion H as [| |? ? s1 s2 H1 H2 [E1 E2] E| | | |].
      apply append_eq_nil in E as [-> ->]. auto.
  - rewrite orb_true_iff, IH1, IH2. split.
    + intros [H|H]; [now apply lang_alt_l | now apply lang_alt_r].
    + intros H; invert H; auto.
  - split; [constructor | reflexivity].
Qed.

(** A non-empty word of [r*] starts with a non-empty word of [r]. *)
Lemma star_uncons (r : regex) (c : ascii) (s : string) :
  lang (Star r) (String c s) ->
  exists s1 s2, s = s1 ++ s2 /\ lang r (String c s1) /\ lang (Star r) s2.
Proof.
  intros H. remember (Star r) as r' eqn:Er. remember (String c s) as w eqn:Ew.
  revert Er Ew.
  induction H as [| | | | | |r0 s1 s2 H1 _ H2 IH2]; try discriminate.
  intros Er Ew. injection Er as ->.
  destruct s1 as [|d s1]; simpl in Ew.
  - apply IH2; auto.
  - injection Ew as -> <-. eauto.
Qed.

Lemma seq_uncons (r1 r2 : regex) (c : ascii) (s : string) :
  lang (Seq r1 r2) (String c s) ->
  (exists s1 s2, s = s1 ++ s2 /\ lang r1 (String c s1) /\ lang r2 s2) \/
  (lang r1 "" /\ lang r2 (String c s)).
Proof.
  intros H. inversion H as [| |? ? s1 s2 H1 H2 [E1 E2] E| | | |].
  destruct s1 as [|d s1]; simpl in E.
  - subst s2. right; auto.
  - injection E as -> <-. left; eauto.
Qed.

Lemma deriv_lang (r : regex) (c : ascii) (s : string) :
  lang (deriv c r) s <-> lang r (String c s).
Proof.
  revert s. induction r as [| |p|r1 IH1 r2 IH2|r1 IH1 r2 IH2|r IH]; intros s; simpl.
  - split; intros H; invert H.
  - split; intros H; invert H.
  - destruct (p c) eqn:Hp; split; intros H; invert H.
    + now constructor.
    + constructor.
    + congruence.
  - assert (Hseq : lang (Seq (deriv c r1) r2) s -> lang (Seq r1 r2) (String c s)).
    { intros H. invert H.
      match goal with H1 : lang (deriv c r1) ?a, H2 : lang r2 ?b |- _ =>
        apply IH1 in H1; exact (lang_seq _ _ _ _ H1 H2) end. }
    destruct (nullable r1) eqn:Hn; split.
    + intros H. invert H; [auto|].
      apply nullable_lang in Hn.
      match goal with H2 : lang (deriv c r2) s |- _ =>
        apply IH2 in H2; exact (lang_seq _ _ "" _ Hn H2) end.
    + intros H. destruct (seq_uncons _ _ _ _ H) as [(s1 & s2 & -> & H1 & H2)|[_ H']].
      * apply lang_alt_l. apply lang_seq; [now apply IH1 | assumption].
      * apply lang_alt_r. now apply IH2.
    + exact Hseq.
    + intros H. destruct (seq_uncons _ _ _ _ H) as [(s1 & s2 & -> & H1 & H2)|[H' _]].
      * apply lang_seq; [now apply IH1 | assumption].
      * apply nullable_lang in H'. congruence.
  - split; intros H; invert H;
      solve [apply lang_alt_l; now apply IH1 | apply lang_alt_r; now apply IH2].
  - split.
    + intros H. invert H.
      match goal with H1 : lang (deriv c r) ?a, H2 : lang (Star r) ?b |- _ =>
        apply IH in H1; exact (lang_star_cons _ _ _ H1 H2) end.
    + intros H. apply star_uncons in H as (s1 & s2 & -> & H1 & H2).
      apply lang_seq; [now apply IH | assumption].
Qed.

Lemma test_lang (r : regex) (s : string) : test r s = true <-> lang r s.
Proof.
  revert r. induction s as [|c s IH]; intros r; simpl.
  - apply nullable_lang.
  - rewrite IH. apply deriv_lang.
Qed.

End RegexCorrect.

(* ================================================================== *)
(** ** Strings, fields and numbers *)
(* ================================================================== *)

Section Strings.

Import Js.
Local Open Scope string_scope.

Lemma every_char_app (p : ascii -> bool) (a b : string) :
  every_char p (a ++ b) <-> every_char p a /\ every_char p b.
Proof. induction a as [|c a IH]; simpl; [tauto | rewrite IH; tauto]. Qed.

Lemma every_char_weaken (p q : ascii -> bool) (s : string) :
  (forall c, p c = true -> q c = true) -> every_char p s -> every_char q s.
Proof. intros Hpq. induction s as [|c s IH]; simpl; [auto | intros [H1 H2]; auto]. Qed.

Lemma all_digits_every (s : string) :
  all_digits s = true <-> every_char is_digit s.
Proof.
  induction s as [|c s IH]; simpl; [tauto|].
  rewrite andb_true_iff, IH. tauto.
Qed.

Lemma length_app (a b : string) :
  String.length (a ++ b) = (String.length a + String.length b)%nat.
Proof. induction a as [|c a IH]; simpl; [reflexivity | now rewrite IH]. Qed.

Lemma digit_differs (sep : ascii) :
  is_digit sep = false -> forall c, is_digit c = true -> differs sep c = true.
Proof.
  intros Hsep c Hc. unfold differs.
  destruct (Ascii.eqb_spec c sep) as [->|_]; [congruence | reflexivity].
Qed.

Lemma digits_no_dot (s : string) :
  every_char is_digit s -> every_char (differs ".") s.
Proof. apply every_char_weaken, digit_differs. reflexivity. Qed.

Lemma digits_no_slash (s : string) :
  every_char is_digit s -> every_char (differs "/") s.
Proof. apply every_char_weaken, digit_differs. reflexivity. Qed.

(** *** [split] *)

Lemma split_from_plain (sep : ascii) (s : string) :
  every_char (differs sep) s -> split_from sep s = (s, []).
Proof.
  induction s as [|c s IH]; simpl; [reflexivity|].
  intros [Hc Hs]. rewrite (IH Hs).
  unfold differs in Hc. apply negb_true_iff in Hc. now rewrite Hc.
Qed.

Lemma split_from_field (sep : ascii) (a b : string) :
  every_char (differs sep) a ->
  split_from sep (a ++ String sep b) = (a, split sep b).
Proof.
  induction a as [|c a IH]; simpl.
  - intros _. unfold split. destruct (split_from sep b) as [p ps].
    now rewrite Ascii.eqb_refl.
  - intros [Hc Ha]. rewrite (IH Ha).
    unfold differs in Hc. apply negb_true_iff in Hc. now rewrite Hc.
Qed.

Lemma split_plain (sep : ascii) (s : string) :
  every_char (differs sep) s -> split sep s = [s].
Proof. intros H. unfold split. now rewrite (split_from_plain _ _ H). Qed.

Lemma split_field (sep : ascii) (a b : string) :
  every_char (differs sep) a ->
  split sep (a ++ String sep b) = a :: split sep b.
Proof. intros H. unfold split at 1. now rewrite (split_from_field _ _ _ H). Qed.

(** Two texts that agree share their first field and what follows it. *)
Lemma field_injective (sep : ascii) (a a' b b' : string) :
  every_char (differs sep) a -> every_char (differs sep) a' ->
  a ++ String sep b = a' ++ String sep b' -> a = a' /\ b = b'.
Proof.
  revert a'. induction a as [|c a IH]; intros [|c' a']; simpl.
  - intros _ _ E. injection E as ->. auto.
  - intros _ [Hc _] E. injection E as <- _.
    unfold differs in Hc. now rewrite Ascii.eqb_refl in Hc.
  - intros [Hc _] _ E. injection E as -> _.
    unfold differs in Hc. now rewrite Ascii.eqb_refl in Hc.
  - intros [_ Ha] [_ Ha'] E. injection E as -> E.
    destruct (IH _ Ha Ha' E) as [-> ->]. auto.
Qed.

(** *** Decimal values *)

Lemma digit_value_range (c : ascii) :
  is_digit c = true -> (0 <= digit_value c <= 9)%Z.
Proof.
  unfold is_digit, in_range, digit_value. rewrite andb_true_iff.
  intros [H1 H2]. apply Nat.leb_le in H1, H2.
  change (nat_of_ascii "0") with 48%nat in H1.
  change (nat_of_ascii "9") with 57%nat in H2. lia.
Qed.

Lemma decimal_nonneg (s : string) : every_char is_digit s -> (0 <= decimal s)%Z.
Proof.
  induction s as [|c s IH]; simpl; [lia|].
  intros [Hc Hs]. specialize (IH Hs). apply digit_value_range in Hc.
  assert (0 < 10 ^ Z.of_nat (String.length s))%Z by (apply Z.pow_pos_nonneg; lia).
  nia.
Qed.

Lemma read_digits_decimal (s : string) (acc : Z) (seen : bool) :
  every_char is_digit s ->
  read_digits acc seen s =
    ((acc * 10 ^ Z.of_nat (String.length s) + decimal s)%Z,
     seen || negb (String.eqb s "")).
Proof.
  revert acc seen. induction s as [|c s IH]; intros acc seen.
  - intros _. simpl. f_equal; [lia | now rewrite orb_false_r].
  - intros [Hc Hs]. cbn [read_digits decimal String.length].
    rewrite Hc, (IH _ _ Hs). f_equal.
    + rewrite Nat2Z.inj_succ, Z.pow_succ_r by lia. ring.
    + simpl. now rewrite orb_true_r.
Qed.

Lemma Number_digits (s : string) :
  every_char is_digit s -> Number s = Some (decimal s).
Proof.
  intros H. unfold Number.
  rewrite (proj2 (all_digits_every s) H), (read_digits_decimal _ _ _ H).
  reflexivity.
Qed.

Lemma digit_not_space (c : ascii) : is_digit c = true -> is_space c = false.
Proof.
  unfold is_digit, in_range, is_space. rewrite andb_true_iff.
  intros [H1 H2]. apply Nat.leb_le in H1, H2.
  change (nat_of_ascii "0") with 48%nat in H1.
  change (nat_of_ascii "9") with 57%nat in H2.
  cbv zeta.
  destruct (Nat.eqb_spec (nat_of_ascii c) 32); [lia|].
  destruct (Nat.eqb_spec (nat_of_ascii c) 160); [lia|].
  destruct (Nat.leb_spec (nat_of_ascii c) 13); [lia|].
  now rewrite andb_false_r.
Qed.

Lemma parseInt10_digits (s : string) :
  every_char is_digit s -> s <> "" -> parseInt10 s = Some (decimal s).
Proof.
  intros H Hne. destruct s as [|c s]; [congruence|].
  destruct H as [Hc Hs]. unfold parseInt10.
  cbn [trim_start]. rewrite (digit_not_space _ Hc).
  assert (Hbody :
    (let (v, seen) := read_digits 0 false (String c s) in
     if seen then Some v else None) = Some (decimal (String c s))).
  { rewrite read_digits_decimal by (split; assumption). simpl. f_equal. }
  destruct (Ascii.eqb_spec c "-") as [->|Hm]; [discriminate Hc|].
  destruct (Ascii.eqb_spec c "+") as [->|Hp]; [discriminate Hc|].
  destruct c as [[] [] [] [] [] [] [] []]; try exact Hbody; congruence.
Qed.

End Strings.

(* ================================================================== *)
(** ** The CIDR pattern and dotted-quad/prefix text *)
(* ================================================================== *)

Section CidrSyntax.

Import Js.
Local Open Scope string_scope.

Lemma lang_eps_iff (s : string) : lang Eps s <-> s = "".
Proof. split; [intros H; now invert H | intros ->; constructor]. Qed.

Lemma lang_class_iff (p : ascii -> bool) (s : string) :
  lang (Class p) s <-> exists c, s = String c "" /\ p c = true.
Proof.
  split.
  - intros H. invert H. eauto.
  - intros (c & -> & Hc). now constructor.
Qed.

Lemma lang_lit_iff (c : ascii) (s : string) : lang (Lit c) s <-> s = String c "".
Proof.
  unfold Lit. rewrite lang_class_iff. split.
  - intros (d & -> & Hd). apply Ascii.eqb_eq in Hd. now subst.
  - intros ->. exists c. split; [reflexivity | apply Ascii.eqb_refl].
Qed.

Lemma lang_seq_iff (r1 r2 : regex) (s : string) :
  lang (Seq r1 r2) s <-> exists s1 s2, s = s1 ++ s2 /\ lang r1 s1 /\ lang r2 s2.
Proof.
  split.
  - intros H. invert H. eauto.
  - intros (s1 & s2 & -> & H1 & H2). now constructor.
Qed.

Lemma lang_seq_class (p : ascii -> bool) (r : regex) (s : string) :
  lang (Seq (Class p) r) s <->
  exists c s', s = String c s' /\ p c = true /\ lang r s'.
Proof.
  rewrite lang_seq_iff. split.
  - intros (s1 & s2 & -> & H1 & H2).
    apply lang_class_iff in H1 as (c & -> & Hc). simpl. eauto.
  - intros (c & s' & -> & Hc & H). exists (String c ""), s'.
    split; [reflexivity | split; [now constructor | assumption]].
Qed.

Lemma lang_rep_class (p : ascii -> bool) (n : nat) (s : string) :
  lang (Rep n (Class p)) s <-> every_char p s /\ String.length s = n.
Proof.
  revert s. induction n as [|n IH]; intros s; cbn [Rep].
  - rewrite lang_eps_iff. split.
    + intros ->. simpl. auto.
    + intros [_ H]. destruct s; [reflexivity | discriminate].
  - rewrite lang_seq_class. split.
    + intros (c & s' & -> & Hc & H). apply IH in H as [H1 H2].
      simpl. auto.
    + intros [H1 H2]. destruct s as [|c s']; [discriminate|].
      destruct H1 as [Hc H1]. injection H2 as H2.
      exists c, s'. rewrite IH. auto.
Qed.

Lemma lang_upto_class (p : ascii -> bool) (n : nat) (s : string) :
  lang (UpTo n (Class p)) s <-> every_char p s /\ (String.length s <= n)%nat.
Proof.
  revert s. induction n as [|n IH]; intros s; cbn [UpTo].
  - rewrite lang_eps_iff. split.
    + intros ->. simpl. auto.
    + intros [_ H]. destruct s; [reflexivity | simpl in H; lia].
  - unfold Opt. split.
    + intros H. invert H.
      * match goal with H0 : lang Eps _ |- _ => apply lang_eps_iff in H0 as -> end.
        simpl. split; [exact I | lia].
      * match goal with H0 : lang (Seq _ _) _ |- _ =>
          apply lang_seq_class in H0 as (c & s' & -> & Hc & Hs) end.
        apply IH in Hs as [H1 H2]. simpl. split; [auto | lia].
    + intros [H1 H2]. destruct s as [|c s'].
      * apply lang_alt_l. constructor.
      * destruct H1 as [Hc H1]. simpl in H2. apply lang_alt_r.
        apply lang_seq_class. exists c, s'. rewrite IH.
        repeat split; auto; lia.
Qed.

Lemma string_split_at (n : nat) (s : string) :
  (n <= String.length s)%nat ->
  exists a b, s = a ++ b /\ String.length a = n.
Proof.
  revert s. induction n as [|n IH]; intros s H.
  - exists "", s. auto.
  - destruct s as [|c s]; simpl in H; [lia|].
    destruct (IH s) as (a & b & -> & Ha); [lia|].
    exists (String c a), b. simpl. auto.
Qed.

Lemma lang_range_class (p : ascii -> bool) (lo hi : nat) (s : string) :
  (lo <= hi)%nat ->
  lang (Range lo hi (Class p)) s <->
  every_char p s /\ (lo <= String.length s <= hi)%nat.
Proof.
  intros Hle. unfold Range. rewrite lang_seq_iff. split.
  - intros (s1 & s2 & -> & H1 & H2).
    apply lang_rep_class in H1 as [H1 L1]. apply lang_upto_class in H2 as [H2 L2].
    rewrite every_char_app, length_app. repeat split; auto; lia.
  - intros [H [L1 L2]].
    destruct (string_split_at lo s L1) as (a & b & -> & La).
    apply every_char_app in H as [Ha Hb]. rewrite length_app in L2.
    exists a, b. rewrite lang_rep_class, lang_upto_class.
    repeat split; auto; lia.
Qed.

Lemma lang_digits (lo hi : nat) (s : string) :
  (lo <= hi)%nat -> lang (Range lo hi Digit) s <-> digits_between lo hi s.
Proof. intros H. unfold Digit, digits_between. now apply lang_range_class. Qed.

Lemma cidr_text_ip (c : Cidr) :
  cidr_text c = cidr_ip c ++ String "/" (prefixLength c).
Proof.
  unfold cidr_text, cidr_ip. repeat (rewrite append_assoc; simpl). reflexivity.
Qed.

(** The pattern of the source matches exactly the texts [a.b.c.d/len] whose
    fields have the right numbers of digits. *)
Lemma cidrRegex_lang (s : string) :
  lang ConfigurationValidator.cidrRegex s <->
  exists c, s = cidr_text c /\ cidr_syntax c.
Proof.
  unfold ConfigurationValidator.cidrRegex. cbn [Rep]. split.
  - intros H.
    repeat match goal with
    | H : lang (Range _ _ Digit) _ |- _ => apply lang_digits in H; [|lia]
    | H : lang (Lit _) _ |- _ => apply lang_lit_iff in H as ->
    | H : lang Eps _ |- _ => apply lang_eps_iff in H as ->
    | H : lang (Seq _ _) _ |- _ => apply lang_seq_iff in H as (? & ? & -> & ? & ?)
    end.
    match goal with
    | H1 : digits_between 1 3 ?a, H2 : digits_between 1 3 ?b,
      H3 : digits_between 1 3 ?c, H4 : digits_between 1 3 ?d,
      H5 : digits_between 1 2 ?e
      |- context [((?a ++ _) ++ (?b ++ _) ++ (?c ++ _) ++ _) ++ ?d ++ _ ++ ?e] =>
        exists {| octet1 := a; octet2 := b; octet3 := c; octet4 := d;
                  prefixLength := e |}
    end.
    split; [|unfold cidr_syntax; simpl; tauto].
    unfold cidr_text. simpl. repeat (rewrite append_assoc; simpl).
    now rewrite ?append_nil_r.
  - intros ([o1 o2 o3 o4 len] & -> & (H1 & H2 & H3 & H4 & H5)). simpl in *.
    replace (cidr_text _) with
      (((o1 ++ ".") ++ (o2 ++ ".") ++ (o3 ++ ".") ++ "") ++ o4 ++ "/" ++ len).
    + repeat apply lang_seq;
        try (apply lang_digits; [lia | assumption]);
        try (apply lang_lit_iff; reflexivity).
      constructor.
    + unfold cidr_text. simpl. repeat (rewrite append_assoc; simpl).
      now rewrite ?append_nil_r.
Qed.

Lemma cidr_ip_no_slash (c : Cidr) :
  cidr_syntax c -> every_char (differs "/") (cidr_ip c).
Proof.
  intros ([H1 _] & [H2 _] & [H3 _] & [H4 _] & _). unfold cidr_ip.
  repeat (apply every_char_app; split); simpl; repeat split;
    now apply digits_no_slash.
Qed.

Lemma split_slash_cidr (c : Cidr) :
  cidr_syntax c -> split "/" (cidr_text c) = [cidr_ip c; prefixLength c].
Proof.
  intros H. rewrite cidr_text_ip, split_field by now apply cidr_ip_no_slash.
  f_equal. apply split_plain, digits_no_slash. apply H.
Qed.

Lemma split_dot_ip (c : Cidr) :
  cidr_syntax c ->
  split "." (cidr_ip c) = [octet1 c; octet2 c; octet3 c; octet4 c].
Proof.
  intros ([H1 _] & [H2 _] & [H3 _] & [H4 _] & _). unfold cidr_ip. simpl.
  rewrite !split_field by now apply digits_no_dot.
  now rewrite split_plain by now apply digits_no_dot.
Qed.

(** Once the pattern has matched, [Number] only meets runs of digits. *)
Lemma octets_of_wellformed (c : Cidr) :
  cidr_syntax c ->
  map Number (split "." (cidr_ip c)) =
    [Some (decimal (octet1 c)); Some (decimal (octet2 c));
     Some (decimal (octet3 c)); Some (decimal (octet4 c))].
Proof.
  intros H. rewrite (split_dot_ip _ H).
  destruct H as ([H1 _] & [H2 _] & [H3 _] & [H4 _] & _). simpl.
  now rewrite !Number_digits.
Qed.

Lemma digits_between_nonempty (hi : nat) (s : string) :
  digits_between 1 hi s -> s <> "".
Proof. intros [_ [H _]] ->. simpl in H. lia. Qed.

(** What [validateCidrBlock] computes on a text of the right shape. *)
Lemma validateCidrBlock_text (c : Cidr) :
  cidr_syntax c ->
  ConfigurationValidator.validateCidrBlock (cidr_text c) =
    ((8 <=? decimal (prefixLength c))%Z && (decimal (prefixLength c) <=? 28)%Z
     && ((decimal (octet1 c) <=? 255)%Z && (decimal (octet2 c) <=? 255)%Z
         && (decimal (octet3 c) <=? 255)%Z && (decimal (octet4 c) <=? 255)%Z)).
Proof.
  intros H. unfold ConfigurationValidator.validateCidrBlock.
  assert (Ht : test ConfigurationValidator.cidrRegex (cidr_text c) = true).
  { apply test_lang, cidrRegex_lang. eauto. }
  rewrite Ht, (split_slash_cidr _ H). cbn [negb nth nth_error parseInt10_opt].
  rewrite (octets_of_wellformed _ H).
  pose proof H as ([H1 _] & [H2 _] & [H3 _] & [H4 _] & H5).
  rewrite (parseInt10_digits (prefixLength c))
    by (try apply H5; eapply digits_between_nonempty, H5).
  apply decimal_nonneg in H1, H2, H3, H4.
  unfold gt, lt, ge, le. cbn [forallb].
  repeat match goal with
  | |- context [(?a <? ?b)%Z] => destruct (Z.ltb_spec a b)
  | |- context [(?a <=? ?b)%Z] => destruct (Z.leb_spec a b)
  end; simpl; try reflexivity; lia.
Qed.

End CidrSyntax.

(* ================================================================== *)
(** ** Validation: what an accepted bundle has passed *)
(* ================================================================== *)

Section Validation.

Import Js ConfigurationManager.
Local Open Scope string_scope.

(** *** Loops *)

Lemma forEach_ok {A : Type} (f : A -> Result unit) (a : list A) :
  forEach f a = ok tt <-> Forall (fun x => f x = ok tt) a.
Proof.
  induction a as [|x a IH]; simpl.
  - split; [constructor | reflexivity].
  - split.
    + destruct (f x) as [e|[]] eqn:Hx; simpl; [discriminate|].
      intros H. constructor; [exact Hx | now apply IH].
    + intros H. invert H.
      match goal with Hx : f x = ok tt |- _ => rewrite Hx end.
      simpl. now apply IH.
Qed.

Lemma forEach_first_error {A : Type} (f : A -> Result unit)
    (before after : list A) (x : A) (e : Exception) :
  Forall (fun y => f y = ok tt) before -> f x = inl e ->
  forEach f (before ++ x :: after) = inl e.
Proof.
  intros Hb Hx. induction Hb as [|y before Hy _ IH]; simpl.
  - now rewrite Hx.
  - now rewrite Hy.
Qed.

Lemma result_cases {A : Type} (c : Result A) :
  (exists a, c = inr a) \/ (exists e, c = inl e).
Proof. destruct c; eauto. Qed.

(** *** Dictionaries *)

Lemma own_in_keys {A : Type} (d : Dict A) (k : string) (v : A) :
  own d k = Some v -> In k (Object_keys d).
Proof.
  induction d as [|[k' v'] d IH]; simpl; [discriminate|].
  destruct (String.eqb_spec k' k); [auto | intros H; right; auto].
Qed.

Lemma own_in {A : Type} (d : Dict A) (k : string) (v : A) :
  own d k = Some v -> In (k, v) d.
Proof.
  induction d as [|[k' v'] d IH]; simpl; [discriminate|].
  destruct (String.eqb_spec k' k) as [->|_].
  - intros H. injection H as ->. auto.
  - intros H. right; auto.
Qed.

Lemma in_own {A : Type} (d : Dict A) (k : string) (v : A) :
  NoDup (Object_keys d) -> In (k, v) d -> own d k = Some v.
Proof.
  induction d as [|[k' v'] d IH]; simpl; [tauto|].
  intros Hnd [H|H]; invert Hnd.
  - injection H as -> ->. now rewrite String.eqb_refl.
  - destruct (String.eqb_spec k' k) as [->|_]; [|auto].
    exfalso. match goal with Hn : ~ In _ _ |- _ => apply Hn end.
    apply in_map_iff. exists (k, v). auto.
Qed.

(** *** Sets of strings *)

Lemma nodup_length_le (a : list string) :
  (List.length (nodup string_dec a) <= List.length a)%nat.
Proof.
  induction a as [|x a IH]; simpl; [lia|].
  destruct (in_dec string_dec x a); simpl; lia.
Qed.

Lemma Set_size_full (a : list string) :
  List.length a = Set_size a <-> NoDup a.
Proof.
  unfold Set_size. split.
  - induction a as [|x a IH]; simpl; [constructor|].
    pose proof (nodup_length_le a).
    destruct (in_dec string_dec x a); simpl; intros H'; [lia|].
    constructor; [assumption | apply IH; lia].
  - intros H. now rewrite nodup_fixed_point.
Qed.

Lemma NoDup_map_positions {A B : Type} (f : A -> B) (l : list A)
    (i j : nat) (a b : A) :
  NoDup (map f l) -> i <> j ->
  nth_error l i = Some a -> nth_error l j = Some b -> f a <> f b.
Proof.
  intros Hnd. revert i j.
  induction l as [|x l IH]; intros i j Hij Hi Hj.
  - destruct i; discriminate.
  - simpl in Hnd. invert Hnd.
    destruct i as [|i], j as [|j]; simpl in Hi, Hj; try congruence.
    + injection Hi as ->. apply nth_error_In in Hj. intros E.
      match goal with Hn : ~ In _ _ |- _ => apply Hn end.
      rewrite E. now apply in_map.
    + injection Hj as ->. apply nth_error_In in Hi. intros E.
      match goal with Hn : ~ In _ _ |- _ => apply Hn end.
      rewrite <- E. now apply in_map.
    + apply (IH ltac:(assumption) i j); auto.
Qed.

(** *** The constructor *)

Lemma outcome (environment : option string) (customConfig : option DeploymentConfig) :
  accepted environment customConfig \/ rejected environment customConfig.
Proof. apply result_cases. Qed.

Lemma validateConfiguration_ok (this : t) :
  validateConfiguration this = ok tt <->
  validateEnvironments this = ok tt /\
  validateCrossRegionSettings this = ok tt /\
  exists envs,
    environments (deploymentConfig this) = Some envs /\
    Forall (fun k => validateEnvironmentConfiguration this k = ok tt)
           (Object_keys envs).
Proof.
  unfold validateConfiguration. split.
  - destruct (validateEnvironments this) as [e|[]]; simpl; [discriminate|].
    destruct (validateCrossRegionSettings this) as [e|[]]; simpl; [discriminate|].
    destruct (environments (deploymentConfig this)) as [envs|]; [|discriminate].
    intros H. apply forEach_ok in H. eauto.
  - intros (-> & -> & envs & -> & H). simpl. now apply forEach_ok.
Qed.

Lemma accepted_iff (environment : option string)
    (customConfig : option DeploymentConfig) :
  accepted environment customConfig <->
  validateConfiguration (instance_of environment customConfig) = ok tt.
Proof.
  unfold accepted, new. fold (config_of customConfig).
  fold (instance_of environment customConfig). split.
  - intros [this H].
    destruct (validateConfiguration _) as [e|[]]; [discriminate | reflexivity].
  - intros ->. simpl. eauto.
Qed.

(** The exception of the first environment that fails is the constructor's. *)
Lemma new_first_error (environment : option string)
    (customConfig : option DeploymentConfig) (name : string) (e : Exception) :
  reaches (instance_of environment customConfig) name ->
  validateEnvironmentConfiguration (instance_of environment customConfig) name = inl e ->
  new environment customConfig = inl e.
Proof.
  intros (H1 & H2 & envs & before & after & He & Hk & Hb) Hn.
  unfold new. fold (config_of customConfig).
  fold (instance_of environment customConfig).
  unfold validateConfiguration. rewrite H1, H2. simpl.
  simpl in He. rewrite He, Hk.
  now rewrite (forEach_first_error _ _ _ _ _ Hb Hn).
Qed.

(** *** One environment *)

Lemma validated_environment (this : t) (name : string) (env : EnvironmentConfig) :
  validateEnvironmentConfiguration this name = ok tt ->
  declares (deploymentConfig this) name env ->
  exists rs,
    regions env = Some rs /\ rs <> [] /\ regions_valid rs /\
    forall r, primary_region_of (deploymentConfig this) env r ->
              deployPayment r = true.
Proof.
  intros H (envs & He & Ho). unfold validateEnvironmentConfiguration in H.
  rewrite He, Ho in H.
  destruct (regions env) as [rs|] eqn:Hr; [|discriminate].
  destruct rs as [|r0 rs0] eqn:Hrs; [discriminate|]. rewrite <- Hrs in *.
  replace (List.length rs =? 0)%nat with false in H by (now subst rs).
  destruct (validateCidrBlocks rs) as [e|[]] eqn:Hc; [discriminate|].
  simpl in H.
  destruct (forEach validateRegionConfiguration rs) as [e|[]] eqn:Hf;
    [discriminate|].
  simpl in H. exists rs. repeat split.
  - subst rs. discriminate.
  - assumption.
  - now apply forEach_ok.
  - intros r (rs' & Hr' & Hfind). rewrite Hr in Hr'. injection Hr' as <-.
    rewrite Hfind in H.
    destruct (deployPayment r); [reflexivity | discriminate].
Qed.

Lemma accepted_environment (environment : option string)
    (customConfig : option DeploymentConfig) (name : string)
    (env : EnvironmentConfig) :
  accepted environment customConfig ->
  declares (config_of customConfig) name env ->
  exists rs,
    regions env = Some rs /\ rs <> [] /\ regions_valid rs /\
    forall r, primary_region_of (config_of customConfig) env r ->
              deployPayment r = true.
Proof.
  intros Ha Hd. apply accepted_iff, validateConfiguration_ok in Ha.
  destruct Ha as (_ & _ & envs & He & Hall).
  pose proof Hd as (envs' & He' & Ho). simpl in He.
  assert (envs' = envs) by congruence. subst envs'.
  apply own_in_keys in Ho. rewrite Forall_forall in Hall.
  apply (validated_environment (instance_of environment customConfig) name env);
    auto.
Qed.

(** *** The checks on regions *)

Lemma validateCidrBlocks_ok (rs : list RegionConfig) :
  validateCidrBlocks rs = ok tt ->
  NoDup (map cidrBlock rs) /\
  Forall (fun r => test cidrRegex (cidrBlock r) = true) rs.
Proof.
  unfold validateCidrBlocks.
  destruct (Nat.eqb_spec (List.length (map cidrBlock rs))
                         (Set_size (map cidrBlock rs))) as [E|_];
    simpl; [|discriminate].
  intros H. split; [now apply Set_size_full|].
  apply forEach_ok in H. rewrite Forall_map in H.
  eapply Forall_impl; [|exact H]. simpl. intros r Hr.
  destruct (test cidrRegex (cidrBlock r)); [reflexivity | discriminate].
Qed.

Lemma validateCidrBlocks_duplicate (rs : list RegionConfig) :
  ~ NoDup (map cidrBlock rs) ->
  validateCidrBlocks rs =
    throw (Error "Overlapping CIDR blocks detected in region configuration").
Proof.
  intros H. unfold validateCidrBlocks.
  destruct (Nat.eqb_spec (List.length (map cidrBlock rs))
                         (Set_size (map cidrBlock rs))) as [E|_];
    simpl; [|reflexivity].
  now apply Set_size_full in E.
Qed.

Lemma validateRegionConfiguration_ok (r : RegionConfig) :
  validateRegionConfiguration r = ok tt ->
  test regionRegex (regionName r) = true /\
  exists azs,
    availabilityZones r = Some azs /\ (2 <= List.length azs)%nat /\
    Forall (fun az => startsWith az (regionName r) = true) azs.
Proof.
  unfold validateRegionConfiguration.
  destruct (test regionRegex (regionName r)); simpl; [|discriminate].
  destruct (availabilityZones r) as [azs|]; [|discriminate].
  destruct (Nat.ltb_spec (List.length azs) 2) as [|Hlen]; [discriminate|].
  destruct (forEach _ azs) as [e|[]] eqn:Hf; simpl; [discriminate|].
  intros _. split; [reflexivity|]. exists azs. repeat split; [assumption|].
  apply forEach_ok in Hf. eapply Forall_impl; [|exact Hf]. simpl. intros az Haz.
  destruct (startsWith az (regionName r)); [reflexivity | discriminate].
Qed.

End Validation.

(* ================================================================== *)
(** ** Properties of the validation primitives *)
(* ================================================================== *)

Section Primitives.

Import Js.
Local Open Scope string_scope.

(** C7. [validateCidrBlock] returns a boolean for every string, and it
    returns [true] exactly on the texts [a.b.c.d/len] with one to three
    digits per octet and one or two for the length, whose length lies in
    [8,28] and whose octets lie in [0,255]; it accepts ["10.1.0.0/16"] and
    refuses ["10.1.0.0/29"] and ["256.1.0.0/16"]. *)
Theorem validateCidrBlock_spec :
  (forall s,
     ConfigurationValidator.validateCidrBlock s = true <->
     exists c, s = cidr_text c /\ cidr_syntax c /\ cidr_in_range c) /\
  (forall s,
     ConfigurationValidator.validateCidrBlock s = true \/
     ConfigurationValidator.validateCidrBlock s = false) /\
  ConfigurationValidator.validateCidrBlock "10.1.0.0/16" = true /\
  ConfigurationValidator.validateCidrBlock "10.1.0.0/29" = false /\
  ConfigurationValidator.validateCidrBlock "256.1.0.0/16" = false.
Proof.
  split; [|split; [|repeat split; reflexivity]].
  - intros s. split.
    + intros H.
      assert (Ht : test ConfigurationValidator.cidrRegex s = true).
      { unfold ConfigurationValidator.validateCidrBlock in H.
        destruct (test ConfigurationValidator.cidrRegex s);
          [reflexivity | discriminate]. }
      apply test_lang, cidrRegex_lang in Ht as (c & -> & Hc).
      rewrite (validateCidrBlock_text _ Hc) in H.
      exists c. split; [reflexivity | split; [assumption|]].
      pose proof Hc as ([H1 _] & [H2 _] & [H3 _] & [H4 _] & _).
      apply decimal_nonneg in H1, H2, H3, H4.
      repeat rewrite andb_true_iff in H. rewrite !Z.leb_le in H.
      unfold cidr_in_range. lia.
    + intros (c & -> & Hc & Hr). rewrite (validateCidrBlock_text _ Hc).
      unfold cidr_in_range in Hr.
      repeat rewrite andb_true_iff. rewrite !Z.leb_le. lia.
  - intros s. destruct (ConfigurationValidator.validateCidrBlock s); auto.
Qed.

Lemma network_of_cidr (c : Cidr) :
  cidr_syntax c ->
  join "." (slice0 2 (split "." (nth 0 (split "/" (cidr_text c)) ""))) =
    octet1 c ++ "." ++ octet2 c.
Proof.
  intros H. rewrite (split_slash_cidr _ H). cbn [nth].
  now rewrite (split_dot_ip _ H).
Qed.

(** C6. On well-formed CIDR texts (those the CIDR pattern matches, lemma
    [cidrRegex_lang]), [cidrBlocksOverlap] is true exactly when the two
    texts are equal or their first two octets are written the same;
    it is true of ["10.1.0.0/16"] and ["10.1.5.0/24"], and false of
    ["10.1.0.0/16"] and ["10.2.0.0/16"]. *)
Theorem cidrBlocksOverlap_spec :
  (forall a b,
     cidr_syntax a -> cidr_syntax b ->
     (ConfigurationValidator.cidrBlocksOverlap (cidr_text a) (cidr_text b) = true <->
      cidr_text a = cidr_text b \/
      (octet1 a = octet1 b /\ octet2 a = octet2 b))) /\
  ConfigurationValidator.cidrBlocksOverlap "10.1.0.0/16" "10.1.5.0/24" = true /\
  ConfigurationValidator.cidrBlocksOverlap "10.1.0.0/16" "10.2.0.0/16" = false.
Proof.
  split; [|split; reflexivity].
  intros a b Ha Hb. unfold ConfigurationValidator.cidrBlocksOverlap.
  destruct (String.eqb_spec (cidr_text a) (cidr_text b)) as [E|_]; [tauto|].
  rewrite (network_of_cidr _ Ha), (network_of_cidr _ Hb).
  pose proof Ha as ([H1 _] & _). pose proof Hb as ([H1' _] & _).
  apply digits_no_dot in H1, H1'. rewrite String.eqb_eq. split.
  - intros E. right. simpl in E. now apply field_injective in E.
  - intros [E|[-> ->]]; [|reflexivity].
    rewrite !cidr_text_ip in E.
    apply field_injective in E as [E _]; try now apply cidr_ip_no_slash.
    unfold cidr_ip in E. simpl in E.
    apply field_injective in E as [-> E]; auto.
    pose proof Ha as (_ & [H2 _] & _). pose proof Hb as (_ & [H2' _] & _).
    apply digits_no_dot in H2, H2'.
    apply field_injective in E as [-> _]; auto.
Qed.

Lemma cidrBlocksOverlap_spec_witness :
  ConfigurationValidator.cidrBlocksOverlap
    (cidr_text {| octet1 := "10"; octet2 := "1"; octet3 := "0"; octet4 := "0";
                  prefixLength := "16" |})
    (cidr_text {| octet1 := "10"; octet2 := "1"; octet3 := "5"; octet4 := "0";
                  prefixLength := "24" |}) = true.
Proof.
  apply (proj1 cidrBlocksOverlap_spec).
  - unfold cidr_syntax, digits_between; simpl; repeat split; lia.
  - unfold cidr_syntax, digits_between; simpl; repeat split; lia.
  - right. split; reflexivity.
Defined.

(** The comparison is between the octets as they are written: a leading
    zero makes two networks differ. *)
Example cidrBlocksOverlap_leading_zero :
  ConfigurationValidator.validateCidrBlock "10.01.0.0/16" = true /\
  ConfigurationValidator.cidrBlocksOverlap "10.01.0.0/16" "10.1.0.0/16" = false.
Proof. split; reflexivity. Qed.

(** C8. [shouldEnableTransitGateway] is true exactly when the bundle's
    [enableTransitGateway] flag is set and the region asked about is the
    primary region: false for any other region whatever the flag, and false
    for the primary region when the flag is off. *)
Theorem shouldEnableTransitGateway_spec :
  forall (this : ConfigurationManager.t) (regionName : string),
    let settings := crossRegionSettings (ConfigurationManager.deploymentConfig this) in
    (ConfigurationManager.shouldEnableTransitGateway this regionName = true <->
     enableTransitGateway settings = true /\ regionName = primaryRegion settings) /\
    (regionName <> primaryRegion settings ->
     ConfigurationManager.shouldEnableTransitGateway this regionName = false) /\
    (enableTransitGateway settings = false ->
     ConfigurationManager.shouldEnableTransitGateway this regionName = false).
Proof.
  intros this regionName settings.
  unfold ConfigurationManager.shouldEnableTransitGateway,
    ConfigurationManager.getPrimaryRegion. fold settings.
  destruct (String.eqb_spec regionName (primaryRegion settings)) as [E|E];
    destruct (enableTransitGateway settings); simpl; intuition congruence.
Qed.

End Primitives.

(* ================================================================== *)
(** ** Properties of configuration resolution *)
(* ================================================================== *)

Section Resolution.

Import Js ConfigurationManager.
Local Open Scope string_scope.

Lemma some_true {A : Type} (f : A -> Result bool) (a : list A) :
  some f a = ok true -> exists x, In x a /\ f x = ok true.
Proof.
  induction a as [|x a IH]; simpl; [discriminate|].
  destruct (f x) as [e|[]] eqn:Hx; simpl; [discriminate | eauto |].
  intros H. destruct (IH H) as (y & Hy & Hfy). eauto.
Qed.

Lemma some_all_false {A : Type} (f : A -> Result bool) (a : list A) :
  (forall x, In x a -> f x = ok false) -> some f a = ok false.
Proof.
  induction a as [|x a IH]; simpl; [reflexivity|].
  intros H. rewrite (H x) by auto. simpl. apply IH. auto.
Qed.

Lemma startsWith_iff (s p : string) : startsWith s p = true <-> prefixed_by s p.
Proof.
  unfold prefixed_by. revert s. induction p as [|c p IH]; intros s.
  - destruct s; simpl; split; eauto.
  - destruct s as [|d s]; simpl.
    + split; [discriminate | intros [rest H]; discriminate].
    + rewrite andb_true_iff, IH, Ascii.eqb_eq. split.
      * intros [-> [rest ->]]. eauto.
      * intros [rest H]. injection H as -> ->. eauto.
Qed.

Lemma two_regions_duplicate (rs : list RegionConfig) (r1 r2 : RegionConfig) :
  two_regions rs r1 r2 -> cidrBlock r1 = cidrBlock r2 ->
  ~ NoDup (map cidrBlock rs).
Proof.
  intros (i & j & Hij & Hi & Hj) E Hnd.
  exact (NoDup_map_positions cidrBlock rs i j r1 r2 Hnd Hij Hi Hj E).
Qed.

Lemma two_regions_nonempty (rs : list RegionConfig) (r1 r2 : RegionConfig) :
  two_regions rs r1 r2 -> rs <> [].
Proof. intros (i & j & _ & Hi & _) ->. destruct i; discriminate. Qed.

Lemma find_unique_name (primary : string) (rs : list RegionConfig)
    (r : RegionConfig) :
  NoDup (map regionName rs) -> In r rs -> regionName r = primary ->
  find (fun r' => String.eqb (regionName r') primary) rs = Some r.
Proof.
  intros Hnd Hin <-. induction rs as [|x rs IH]; [destruct Hin|].
  simpl in Hnd. invert Hnd. simpl.
  destruct Hin as [->|Hin].
  - now rewrite String.eqb_refl.
  - destruct (String.eqb_spec (regionName x) (regionName r)) as [E'|_]; [|auto].
    exfalso. match goal with Hn : ~ In _ _ |- _ => apply Hn end.
    rewrite E'. now apply in_map.
Qed.

(** The checks of one environment, once its regions are known. *)
Lemma validateEnvironmentConfiguration_regions (this : t) (name : string)
    (env : EnvironmentConfig) (rs : list RegionConfig) :
  declares (deploymentConfig this) name env -> regions env = Some rs ->
  rs <> [] ->
  validateEnvironmentConfiguration this name =
    (validateCidrBlocks rs ;;
     forEach validateRegionConfiguration rs ;;
     match find (fun r => String.eqb (regionName r)
                            (primaryRegion (crossRegionSettings (deploymentConfig this))))
                rs with
     | Some primaryRegionInEnv =>
         if negb (deployPayment primaryRegionInEnv)
         then throw (Error ("Primary region '"
                            ++ primaryRegion (crossRegionSettings (deploymentConfig this))
                            ++ "' must have payment deployment enabled"))
         else ok tt
     | None => ok tt
     end).
Proof.
  intros (envs & He & Ho) Hr Hne. unfold validateEnvironmentConfiguration.
  rewrite He, Ho, Hr. destruct rs; [congruence | reflexivity].
Qed.

Lemma validateEnvironmentConfiguration_no_regions (this : t) (name : string)
    (env : EnvironmentConfig) :
  declares (deploymentConfig this) name env ->
  regions env = None \/ regions env = Some [] ->
  validateEnvironmentConfiguration this name =
    throw (Error ("No regions configured for environment: " ++ name)).
Proof.
  intros (envs & He & Ho) Hr. unfold validateEnvironmentConfiguration.
  rewrite He, Ho. destruct Hr as [->| ->]; reflexivity.
Qed.

Lemma rejected_unless (environment : option string)
    (customConfig : option DeploymentConfig) :
  (accepted environment customConfig -> False) ->
  rejected environment customConfig.
Proof. intros H. destruct (outcome environment customConfig); tauto. Qed.

(** C1, as the code has it. The primary region must be a region of some
    declared environment, not of each: a bundle is accepted only if one of
    its environments has a region of that name; when none has, construction
    fails, and the exception is "Primary region '...' not found in any
    environment configuration" once the earlier checks pass (the environments
    are there with the current one among them, the primary region and the
    payment endpoint are not empty, every [regions] array is present). *)
Theorem primary_region_in_some_environment :
  forall (environment : option string) (customConfig : option DeploymentConfig),
    keys_unique (config_of customConfig) ->
    (accepted environment customConfig ->
     exists name env r,
       declares (config_of customConfig) name env /\ has_region env r /\
       regionName r = primaryRegion (crossRegionSettings (config_of customConfig))) /\
    ((forall name env r,
        declares (config_of customConfig) name env -> has_region env r ->
        regionName r <> primaryRegion (crossRegionSettings (config_of customConfig))) ->
     rejected environment customConfig /\
     (validateEnvironments (instance_of environment customConfig) = ok tt ->
      primaryRegion (crossRegionSettings (config_of customConfig)) <> "" ->
      paymentApiEndpoint (crossRegionSettings (config_of customConfig)) <> "" ->
      (forall name env, declares (config_of customConfig) name env ->
                        regions env <> None) ->
      new environment customConfig =
        throw (Error ("Primary region '"
                      ++ primaryRegion (crossRegionSettings (config_of customConfig))
                      ++ "' not found in any environment configuration")))).
Proof.
  intros environment customConfig Hkeys.
  set (cfg := config_of customConfig) in *.
  set (primary := primaryRegion (crossRegionSettings cfg)).
  assert (Hacc : accepted environment customConfig ->
                 exists name env r,
                   declares cfg name env /\ has_region env r /\ regionName r = primary).
  { intros Ha. apply accepted_iff, validateConfiguration_ok in Ha.
    destruct Ha as (_ & Hcross & envs & He & _). simpl in He. fold cfg in He.
    unfold validateCrossRegionSettings in Hcross. simpl in Hcross.
    fold cfg in Hcross. fold primary in Hcross.
    destruct (String.eqb primary ""); [discriminate|].
    destruct (String.eqb (paymentApiEndpoint (crossRegionSettings cfg)) "");
      [discriminate|].
    rewrite He in Hcross.
    destruct (some _ (Object_values envs)) as [e|[]] eqn:Hsome;
      [discriminate | | discriminate].
    apply some_true in Hsome as (env & Hin & Hhas).
    unfold environment_has_region in Hhas.
    destruct (regions env) as [rs|] eqn:Hr; [|discriminate].
    injection Hhas as Hhas. apply existsb_exists in Hhas as (r & Hrin & Hname).
    apply String.eqb_eq in Hname.
    unfold Object_values in Hin. apply in_map_iff in Hin as ([k env'] & <- & Hin).
    exists k, env', r. repeat split; [|exists rs; auto | assumption].
    exists envs. split; [assumption|]. apply in_own; [now apply Hkeys | assumption]. }
  split; [exact Hacc|]. intros Hnone. split.
  - apply rejected_unless. intros Ha.
    destruct (Hacc Ha) as (name & env & r & Hd & Hh & Hn). exact (Hnone _ _ _ Hd Hh Hn).
  - intros Henv Hp Hpay Hregions.
    unfold new. fold (config_of customConfig). fold cfg.
    change {| deploymentConfig := cfg; currentEnvironment := _ |}
      with (instance_of environment customConfig).
    unfold validateConfiguration. rewrite Henv. simpl.
    unfold validateCrossRegionSettings. simpl. fold cfg. fold primary.
    apply String.eqb_neq in Hp, Hpay. rewrite Hp, Hpay.
    destruct (environments cfg) as [envs|] eqn:He.
    2:{ unfold validateEnvironments in Henv. simpl in Henv.
        fold cfg in Henv. now rewrite He in Henv. }
    rewrite some_all_false; [reflexivity|].
    intros env Hin. unfold Object_values in Hin.
    apply in_map_iff in Hin as ([k env'] & <- & Hin). simpl.
    assert (Hd : declares cfg k env').
    { exists envs. split; [assumption|]. apply in_own; [now apply Hkeys | assumption]. }
    unfold environment_has_region.
    destruct (regions env') as [rs|] eqn:Hr; [|now apply Hregions in Hd].
    f_equal. apply not_true_is_false. intros Hex.
    apply existsb_exists in Hex as (r & Hrin & Hname).
    apply String.eqb_eq in Hname.
    apply (Hnone k env' r Hd); [exists rs; auto | assumption].
Qed.

(** Destructs what a concrete bundle declares. *)
#[local] Arguments String.eqb : simpl never.

Ltac declared_cases :=
  repeat match goal with
  | H : declares _ _ _ |- _ =>
      let envs := fresh "envs" in
      destruct H as (envs & ? & ?); simpl in *
  | H : has_region _ _ |- _ => destruct H as (? & ? & ?); simpl in *
  | H : Some _ = Some _ |- _ => injection H as <-; simpl in *
  | H : (if (?a =? ?b)%string then _ else _) = Some _ |- _ =>
      destruct (String.eqb_spec a b); simpl in *; subst
  | H : In _ (_ :: _) |- _ => destruct H as [<-|H]; simpl in *
  | H : In _ [] |- _ => destruct H
  | H : _ = _ \/ _ |- _ => destruct H as [<-|H]; simpl in *
  | H : False |- _ => destruct H
  | H : None = Some _ |- _ => discriminate H
  end.

Ltac keys_are_unique :=
  let envs := fresh "envs" in
  let H := fresh "H" in
  intros envs H; injection H as <-; simpl;
  repeat constructor; simpl; intuition discriminate.

Lemma primary_region_in_some_environment_witness :
  keys_unique (config_of (Some Examples.primary_absent)) /\
  rejected (Some "test") (Some Examples.primary_absent) /\
  new (Some "test") (Some Examples.primary_absent) =
    throw (Error "Primary region 'us-east-1' not found in any environment configuration").
Proof.
  assert (Hk : keys_unique (config_of (Some Examples.primary_absent)))
    by keys_are_unique.
  assert (Hnone : forall name env r,
            declares (config_of (Some Examples.primary_absent)) name env ->
            has_region env r ->
            regionName r <>
            primaryRegion (crossRegionSettings (config_of (Some Examples.primary_absent)))).
  { intros name env r Hd Hh. declared_cases. intros E. discriminate E. }
  split; [exact Hk|].
  destruct (proj2 (primary_region_in_some_environment
                     (Some "test") (Some Examples.primary_absent) Hk) Hnone)
    as [Hrej Herr].
  split; [exact Hrej|].
  apply Herr.
  - reflexivity.
  - discriminate.
  - discriminate.
  - intros name env Hd. declared_cases. discriminate.
Defined.

(** C1, as the specification states it, fails: this bundle is accepted
    although its environment "edge" has no region named as the primary
    region. *)
Lemma primary_region_absent_from_accepted_environment :
  accepted (Some "development") (Some Examples.primary_absent_from_edge) /\
  declares Examples.primary_absent_from_edge "edge" Examples.edge /\
  regions Examples.edge = Some [Regions.eu_central_1] /\
  String.eqb (regionName Regions.eu_central_1)
    (primaryRegion (crossRegionSettings Examples.primary_absent_from_edge)) = false.
Proof.
  repeat split.
  - eexists. reflexivity.
  - eexists. split; reflexivity.
Qed.

(** X19. The part of the overlap check that resolution does carry out.
    Within an environment of an accepted bundle no two regions have the
    same [cidrBlock] text; a bundle where two regions of one environment
    have the same text is rejected, and the exception is "Overlapping CIDR
    blocks detected in region configuration" whenever validation reaches
    that environment. *)
Theorem identical_cidr_blocks_rejected :
  forall (environment : option string) (customConfig : option DeploymentConfig)
         (name : string) (env : EnvironmentConfig) (rs : list RegionConfig),
    declares (config_of customConfig) name env -> regions env = Some rs ->
    (accepted environment customConfig ->
     forall r1 r2, two_regions rs r1 r2 -> cidrBlock r1 <> cidrBlock r2) /\
    ((exists r1 r2, two_regions rs r1 r2 /\ cidrBlock r1 = cidrBlock r2) ->
     rejected environment customConfig /\
     (reaches (instance_of environment customConfig) name ->
      new environment customConfig =
        throw (Error "Overlapping CIDR blocks detected in region configuration"))).
Proof.
  intros environment customConfig name env rs Hd Hr.
  assert (Hacc : accepted environment customConfig ->
                 forall r1 r2, two_regions rs r1 r2 -> cidrBlock r1 <> cidrBlock r2).
  { intros Ha r1 r2 H2 E.
    destruct (accepted_environment _ _ _ _ Ha Hd) as (rs' & Hr' & _ & [Hc _] & _).
    assert (rs' = rs) by congruence. subst rs'.
    apply validateCidrBlocks_ok in Hc as [Hnd _].
    exact (two_regions_duplicate _ _ _ H2 E Hnd). }
  split; [exact Hacc|]. intros (r1 & r2 & H2 & E). split.
  - apply rejected_unless. intros Ha. exact (Hacc Ha r1 r2 H2 E).
  - intros Hreach. apply (new_first_error _ _ name); [assumption|].
    rewrite (validateEnvironmentConfiguration_regions _ name env rs);
      [ | assumption | assumption | exact (two_regions_nonempty _ _ _ H2)].
    now rewrite (validateCidrBlocks_duplicate rs (two_regions_duplicate _ _ _ H2 E)).
Qed.

(** Validation reaches an environment of a concrete bundle. *)
Ltac reaches_after before :=
  split; [reflexivity | split; [reflexivity |
    eexists; exists before; eexists;
    split; [reflexivity | split; [reflexivity | repeat constructor]]]].

Lemma identical_cidr_blocks_rejected_witness :
  rejected (Some "test") (Some Examples.same_cidr) /\
  new (Some "test") (Some Examples.same_cidr) =
    throw (Error "Overlapping CIDR blocks detected in region configuration").
Proof.
  pose (r1 := Examples.set_cidrBlock Regions.us_east_1 "10.1.0.0/16").
  pose (r2 := Examples.set_cidrBlock Regions.eu_central_1 "10.1.0.0/16").
  assert (Hd : declares (config_of (Some Examples.same_cidr)) "test"
                 (Examples.test_environment (Some [r1; r2])))
    by (eexists; split; reflexivity).
  assert (H2 : exists a b, two_regions [r1; r2] a b /\ cidrBlock a = cidrBlock b).
  { exists r1, r2. split; [|reflexivity].
    exists 0%nat, 1%nat. repeat split. discriminate. }
  destruct (proj2 (identical_cidr_blocks_rejected
                     (Some "test") (Some Examples.same_cidr) "test"
                     (Examples.test_environment (Some [r1; r2])) [r1; r2]
                     Hd eq_refl) H2) as [Hrej Herr].
  split; [exact Hrej|]. apply Herr. reaches_after (@nil string).
Defined.

(** C2. The code at the input where it falls short of the claim and of its
    own documentation ([validateCidrBlocks]: "Validate CIDR blocks don't
    overlap within an environment"): this bundle is accepted although
    ["10.1.0.0/16"] and ["10.1.5.0/24"], two blocks of its environment, are
    on the same first-two-octet network, which [cidrBlocksOverlap], the
    helper of the same file that resolution never calls, reports as an
    overlap. *)
Lemma network_equal_cidr_blocks_accepted :
  accepted (Some "test") (Some Examples.shared_network) /\
  declares Examples.shared_network "test"
    (Examples.test_environment (Some [Regions.us_east_1; Examples.eu_on_10_1])) /\
  two_regions [Regions.us_east_1; Examples.eu_on_10_1]
    Regions.us_east_1 Examples.eu_on_10_1 /\
  ConfigurationValidator.cidrBlocksOverlap
    (cidrBlock Regions.us_east_1) (cidrBlock Examples.eu_on_10_1) = true.
Proof.
  repeat split.
  - eexists. reflexivity.
  - eexists. split; reflexivity.
  - exists 0%nat, 1%nat. repeat split. discriminate.
Qed.

(** C3, as the code has it. In every environment of an accepted bundle the
    region that [find] returns for the primary region's name (the first of
    that name) has [deployPayment] set, and so has every region of that name
    when the names of the environment are distinct; a bundle where that
    region of some environment has [deployPayment] false is rejected, and
    the exception is "Primary region '...' must have payment deployment
    enabled" whenever validation reaches that environment and its regions
    pass the earlier checks. *)
Theorem primary_region_payment :
  forall (environment : option string) (customConfig : option DeploymentConfig)
         (name : string) (env : EnvironmentConfig) (r : RegionConfig),
    declares (config_of customConfig) name env ->
    primary_region_of (config_of customConfig) env r ->
    (accepted environment customConfig -> deployPayment r = true) /\
    (accepted environment customConfig ->
     forall rs r',
       regions env = Some rs -> NoDup (map regionName rs) -> In r' rs ->
       regionName r' = primaryRegion (crossRegionSettings (config_of customConfig)) ->
       deployPayment r' = true) /\
    (deployPayment r = false ->
     rejected environment customConfig /\
     (reaches (instance_of environment customConfig) name ->
      (forall rs, regions env = Some rs -> regions_valid rs) ->
      new environment customConfig =
        throw (Error ("Primary region '"
                      ++ primaryRegion (crossRegionSettings (config_of customConfig))
                      ++ "' must have payment deployment enabled")))).
Proof.
  intros environment customConfig name env r Hd Hp.
  assert (Hacc : accepted environment customConfig ->
                 forall r', primary_region_of (config_of customConfig) env r' ->
                            deployPayment r' = true).
  { intros Ha.
    destruct (accepted_environment _ _ _ _ Ha Hd) as (rs & _ & _ & _ & H).
    exact H. }
  split; [|split].
  - intros Ha. now apply Hacc.
  - intros Ha rs r' Hr Hnd Hin Hname. apply (Hacc Ha).
    exists rs. split; [assumption|]. now apply find_unique_name.
  - intros Hfalse. split.
    + apply rejected_unless. intros Ha. specialize (Hacc Ha r Hp). congruence.
    + intros Hreach Hvalid. apply (new_first_error _ _ name); [assumption|].
      destruct Hp as (rs & Hr & Hfind).
      rewrite (validateEnvironmentConfiguration_regions _ name env rs);
        [ | assumption | assumption | intros ->; discriminate].
      destruct (Hvalid rs Hr) as [Hc Hf]. apply forEach_ok in Hf.
      rewrite Hc, Hf. simpl. rewrite Hfind, Hfalse. reflexivity.
Qed.

Lemma primary_region_payment_witness :
  rejected (Some "test") (Some Examples.primary_without_payment) /\
  new (Some "test") (Some Examples.primary_without_payment) =
    throw (Error "Primary region 'us-east-1' must have payment deployment enabled").
Proof.
  pose (r := Examples.set_deployPayment Regions.us_east_1 false).
  assert (Hd : declares (config_of (Some Examples.primary_without_payment)) "test"
                 (Examples.test_environment (Some [r])))
    by (eexists; split; reflexivity).
  assert (Hp : primary_region_of (config_of (Some Examples.primary_without_payment))
                 (Examples.test_environment (Some [r])) r)
    by (eexists; split; reflexivity).
  destruct (proj2 (proj2 (primary_region_payment
                     (Some "test") (Some Examples.primary_without_payment) "test"
                     (Examples.test_environment (Some [r])) r Hd Hp)) eq_refl)
    as [Hrej Herr].
  split; [exact Hrej|]. apply Herr.
  - reaches_after (@nil string).
  - intros rs Hr. injection Hr as <-. split; [reflexivity|].
    repeat constructor.
Defined.

(** C3, as the specification states it, fails: this bundle is accepted
    although a region of its environment is named as the primary region and
    has [deployPayment] false (an earlier region has the same name). *)
Lemma shadowed_primary_region_without_payment_accepted :
  accepted (Some "test") (Some Examples.shadowed_primary) /\
  declares Examples.shadowed_primary "test"
    (Examples.test_environment
       (Some [Regions.us_east_1; Examples.second_us_east_1])) /\
  In Examples.second_us_east_1 [Regions.us_east_1; Examples.second_us_east_1] /\
  regionName Examples.second_us_east_1 =
    primaryRegion (crossRegionSettings Examples.shadowed_primary) /\
  deployPayment Examples.second_us_east_1 = false.
Proof.
  repeat split.
  - eexists. reflexivity.
  - eexists. split; reflexivity.
  - right. left. reflexivity.
Qed.

Lemma accepted_region (environment : option string)
    (customConfig : option DeploymentConfig) (name : string)
    (env : EnvironmentConfig) (r : RegionConfig) :
  accepted environment customConfig ->
  declares (config_of customConfig) name env -> has_region env r ->
  validateRegionConfiguration r = ok tt.
Proof.
  intros Ha Hd (rs & Hr & Hin).
  destruct (accepted_environment _ _ _ _ Ha Hd) as (rs' & Hr' & _ & [_ Hf] & _).
  assert (rs' = rs) by congruence. subst rs'.
  rewrite Forall_forall in Hf. auto.
Qed.

(** C4, as the code has it. Every [regionName] of an accepted bundle
    matches [^[a-z]{2}-[a-z]+-\d+$]; a bundle with a region, in any declared
    environment, whose name does not match is rejected, and the check of
    that region throws "Invalid region name format: ...".  That two regions
    of an environment have different names is not checked. *)
Theorem region_names_match_pattern :
  forall (environment : option string) (customConfig : option DeploymentConfig)
         (name : string) (env : EnvironmentConfig) (r : RegionConfig),
    declares (config_of customConfig) name env -> has_region env r ->
    (accepted environment customConfig -> lang regionRegex (regionName r)) /\
    ((lang regionRegex (regionName r) -> False) ->
     rejected environment customConfig /\
     validateRegionConfiguration r =
       throw (Error ("Invalid region name format: " ++ regionName r))).
Proof.
  intros environment customConfig name env r Hd Hh.
  assert (Hacc : accepted environment customConfig ->
                 lang regionRegex (regionName r)).
  { intros Ha. apply test_lang.
    apply (validateRegionConfiguration_ok r).
    exact (accepted_region _ _ _ _ _ Ha Hd Hh). }
  split; [exact Hacc|]. intros Hno. split.
  - apply rejected_unless. auto.
  - unfold validateRegionConfiguration.
    destruct (test regionRegex (regionName r)) eqn:Ht; [|reflexivity].
    apply test_lang in Ht. tauto.
Qed.

Lemma region_names_match_pattern_witness :
  rejected (Some "test") (Some Examples.invalid_region_name) /\
  validateRegionConfiguration
    (Examples.set_regionName Regions.us_east_1 "invalid-region") =
    throw (Error "Invalid region name format: invalid-region").
Proof.
  pose (r := Examples.set_regionName Regions.us_east_1 "invalid-region").
  assert (Hd : declares (config_of (Some Examples.invalid_region_name)) "test"
                 (Examples.test_environment (Some [r])))
    by (eexists; split; reflexivity).
  assert (Hh : has_region (Examples.test_environment (Some [r])) r)
    by (eexists; split; [reflexivity | left; reflexivity]).
  apply (proj2 (region_names_match_pattern
                  (Some "test") (Some Examples.invalid_region_name) "test"
                  (Examples.test_environment (Some [r])) r Hd Hh)).
  intros Hl. apply test_lang in Hl. discriminate Hl.
Defined.

(** C4, as the specification states it, fails: this bundle is accepted
    although two regions of its environment have the same name. *)
Lemma repeated_region_name_accepted :
  accepted (Some "test") (Some Examples.repeated_name) /\
  declares Examples.repeated_name "test"
    (Examples.test_environment
       (Some [Regions.us_east_1; Examples.us_east_1_again])) /\
  two_regions [Regions.us_east_1; Examples.us_east_1_again]
    Regions.us_east_1 Examples.us_east_1_again /\
  regionName Regions.us_east_1 = regionName Examples.us_east_1_again.
Proof.
  repeat split.
  - eexists. reflexivity.
  - eexists. split; reflexivity.
  - exists 0%nat, 1%nat. repeat split. discriminate.
Qed.




(** C10, as the code has it. Every environment of an accepted bundle has at
    least one region; a bundle with an environment whose [regions] array is
    missing or empty is rejected, and the exception is "No regions
    configured for environment: ...", naming that environment, whenever
    validation reaches it (an earlier check that fails throws first). *)
Theorem environments_have_regions :
  forall (environment : option string) (customConfig : option DeploymentConfig)
         (name : string) (env : EnvironmentConfig),
    declares (config_of customConfig) name env ->
    (accepted environment customConfig ->
     exists rs, regions env = Some rs /\ rs <> []) /\
    (regions env = None \/ regions env = Some [] ->
     rejected environment customConfig /\
     (reaches (instance_of environment customConfig) name ->
      new environment customConfig =
        throw (Error ("No regions configured for environment: " ++ name)))).
Proof.
  intros environment customConfig name env Hd.
  assert (Hacc : accepted environment customConfig ->
                 exists rs, regions env = Some rs /\ rs <> []).
  { intros Ha.
    destruct (accepted_environment _ _ _ _ Ha Hd) as (rs & Hr & Hne & _).
    eauto. }
  split; [exact Hacc|]. intros Hbad. split.
  - apply rejected_unless. intros Ha. destruct (Hacc Ha) as (rs & Hr & Hne).
    destruct Hbad; congruence.
  - intros Hreach. apply (new_first_error _ _ name); [assumption|].
    now apply validateEnvironmentConfiguration_no_regions with (env := env).
Qed.

Lemma environments_have_regions_witness :
  new (Some "test") (Some Examples.staging_empty) =
    throw (Error "No regions configured for environment: staging") /\
  new (Some "test") (Some Examples.staging_missing) =
    throw (Error "No regions configured for environment: staging").
Proof.
  assert (Hd1 : declares (config_of (Some Examples.staging_empty)) "staging"
                  (Examples.test_environment (Some [])))
    by (eexists; split; reflexivity).
  assert (Hd2 : declares (config_of (Some Examples.staging_missing)) "staging"
                  (Examples.test_environment None))
    by (eexists; split; reflexivity).
  split.
  - apply (proj2 (environments_have_regions
                    (Some "test") (Some Examples.staging_empty) "staging"
                    (Examples.test_environment (Some [])) Hd1));
      [right; reflexivity | reaches_after ["test"]].
  - apply (proj2 (environments_have_regions
                    (Some "test") (Some Examples.staging_missing) "staging"
                    (Examples.test_environment None) Hd2));
      [left; reflexivity | reaches_after ["test"]].
Defined.

(** C10, as stated, fails: the only environment of this bundle has no
    region, and the exception that construction throws is about the primary
    region and does not name the environment. *)
Lemma no_regions_error_names_no_environment :
  declares Examples.no_regions "test" (Examples.test_environment (Some [])) /\
  new (Some "test") (Some Examples.no_regions) =
    throw (Error "Primary region 'us-east-1' not found in any environment configuration") /\
  mentions "Primary region 'us-east-1' not found in any environment configuration"
           "test" = false.
Proof.
  repeat split. eexists. split; reflexivity.
Qed.

(** The manager of the default bundle, for the development environment. *)
Lemma shouldEnableTransitGateway_spec_witness :
  accepted None None /\
  shouldEnableTransitGateway (instance_of None None) "us-east-1" = true /\
  shouldEnableTransitGateway (instance_of None None) "eu-central-1" = false.
Proof.
  split; [eexists; reflexivity|]. split.
  - apply (proj1 (shouldEnableTransitGateway_spec (instance_of None None) "us-east-1")).
    split; reflexivity.
  - apply (proj1 (proj2 (shouldEnableTransitGateway_spec (instance_of None None)
                           "eu-central-1"))).
    discriminate.
Defined.

End Resolution.

(* ================================================================== *)
(** ** Properties of the network stack *)
(* ================================================================== *)

Section Topology.

Import NetworkStack.
Local Open Scope string_scope.

(** C9. Whatever the properties the stack is built with, its database
    security group is created with [allowAllOutbound] false and ends up with
    exactly three ingress rules, in this order: 3306/tcp from the app group,
    6379/tcp from the app group, all traffic from itself; the web and app
    groups are created with [allowAllOutbound] true. *)
Theorem database_tier_egress_restricted :
  forall props : NetworkStackProps,
    exists web app db,
      own (securityGroups (new props)) (webSecurityGroup (new props)) = Some web /\
      own (securityGroups (new props)) (appSecurityGroup (new props)) = Some app /\
      own (securityGroups (new props)) (databaseSecurityGroup (new props)) = Some db /\
      allowAllOutbound db = false /\
      ingressRules db =
        [ {| rule_peer := securityGroup (appSecurityGroup (new props));
             rule_port := tcp 3306;
             rule_description := "Allow MySQL access from app tier" |};
          {| rule_peer := securityGroup (appSecurityGroup (new props));
             rule_port := tcp 6379;
             rule_description := "Allow Redis access from app tier" |};
          {| rule_peer := securityGroup (databaseSecurityGroup (new props));
             rule_port := allTraffic;
             rule_description := "Allow communication within database tier" |} ] /\
      allowAllOutbound web = true /\
      allowAllOutbound app = true /\
      webSecurityGroup (new props) <> appSecurityGroup (new props) /\
      appSecurityGroup (new props) <> databaseSecurityGroup (new props) /\
      webSecurityGroup (new props) <> databaseSecurityGroup (new props).
Proof.
  intros props. do 3 eexists.
  repeat split; try reflexivity; discriminate.
Qed.

End Topology.

(* ================================================================== *)
(** ** Field rules of an accepted bundle *)
(* ================================================================== *)

Section Fields.

Import Js ConfigurationManager.
Local Open Scope string_scope.

Lemma validateInstanceTypes_ok (types : InstanceTypes) (region : string) :
  validateInstanceTypes types region = ok tt ->
  test validInstanceTypePattern (instanceTypes_iot types) = true /\
  test validInstanceTypePattern (instanceTypes_payment types) = true.
Proof.
  unfold validateInstanceTypes.
  destruct (test validInstanceTypePattern (instanceTypes_iot types));
    simpl; [|discriminate].
  destruct (test validInstanceTypePattern (instanceTypes_payment types));
    simpl; [auto | discriminate].
Qed.

Lemma not_less (x y : QArith_base.Q) :
  match QArith_base.Qcompare x y with Lt => true | _ => false end = false <->
  QArith_base.Qle y x.
Proof.
  rewrite QArith_base.Qle_alt, <- (QArith_base.Qcompare_antisym x y).
  destruct (QArith_base.Qcompare x y); simpl; split;
    solve [congruence | discriminate | intros H; now elim H].
Qed.

Lemma passes_range (lo hi : Z) (x : double) :
  less x (integer lo) || greater x (integer hi) = false <-> NaN_or_within lo hi x.
Proof.
  unfold NaN_or_within, greater, integer. rewrite orb_false_iff.
  destruct x as [| | |q]; simpl.
  - split; [auto | intros _; auto].
  - split; [intros [_ H]; discriminate H|].
    intros [H|(q & H & _)]; discriminate H.
  - split; [intros [H _]; discriminate H|].
    intros [H|(q & H & _)]; discriminate H.
  - rewrite !not_less. split.
    + intros [H1 H2]. right. exists q. auto.
    + intros [H|(q' & H & H1 & H2)]; [discriminate H|]. injection H as <-. auto.
Qed.

Lemma validateDatabaseConfig_ok (db : DatabaseConfig) (type region : string) :
  validateDatabaseConfig db type region = ok tt -> database_rules db.
Proof.
  unfold validateDatabaseConfig, database_rules.
  destruct (test validDbInstancePattern (instanceClass db)) eqn:Hc;
    cbn [negb]; [|discriminate].
  destruct (less (allocatedStorage db) (integer 20)
            || greater (allocatedStorage db) (integer 65536)) eqn:Hs;
    cbn [orb negb]; [discriminate|].
  destruct (less (backupRetentionPeriod db) (integer 0)
            || greater (backupRetentionPeriod db) (integer 35)) eqn:Hb;
    cbn [orb negb]; [discriminate|].
  apply passes_range in Hs, Hb.
  intros H'. split; [now apply test_lang|]. split; [exact Hs|]. split; [exact Hb|].
  intros v Hv Hne. rewrite Hv in H'. apply String.eqb_neq in Hne.
  rewrite Hne in H'. simpl in H'. apply test_lang.
  destruct (test engineVersionPattern v); [reflexivity | discriminate].
Qed.

Lemma validateRegionConfiguration_fields (r : RegionConfig) :
  validateRegionConfiguration r = ok tt ->
  validateInstanceTypes (instanceTypes r) (regionName r) = ok tt /\
  database_rules (databaseConfig_iot (databaseConfig r)) /\
  database_rules (databaseConfig_payment (databaseConfig r)).
Proof.
  unfold validateRegionConfiguration.
  destruct (test regionRegex (regionName r)); simpl; [|discriminate].
  destruct (availabilityZones r) as [azs|]; [|discriminate].
  destruct (List.length azs <? 2)%nat; [discriminate|].
  destruct (forEach _ azs) as [e|[]]; simpl; [discriminate|].
  destruct (validateInstanceTypes _ _) as [e|[]]; simpl; [discriminate|].
  destruct (validateDatabaseConfig (databaseConfig_iot _) _ _) as [e|[]] eqn:H1;
    simpl; [discriminate|].
  intros H2. apply validateDatabaseConfig_ok in H1, H2. auto.
Qed.

Lemma manager_cidrRegex_lang (s : string) :
  test cidrRegex s = true <-> exists c, s = cidr_text c /\ cidr_syntax c.
Proof.
  change cidrRegex with ConfigurationValidator.cidrRegex.
  rewrite test_lang. apply cidrRegex_lang.
Qed.

Lemma validateCidrBlock_in_range (c : Cidr) :
  cidr_syntax c ->
  ConfigurationValidator.validateCidrBlock (cidr_text c) = true <->
  cidr_in_range c.
Proof.
  intros Hs. rewrite (validateCidrBlock_text _ Hs).
  pose proof Hs as ([H1 _] & [H2 _] & [H3 _] & [H4 _] & _).
  apply decimal_nonneg in H1, H2, H3, H4.
  unfold cidr_in_range. repeat rewrite andb_true_iff. rewrite !Z.leb_le. lia.
Qed.

(** X1. Every [cidrBlock] of an accepted bundle is a dotted-quad/prefix
    text, and [validateCidrBlock] accepts it exactly when its length and
    octets are in range, which resolution does not ask for; a bundle with a
    [cidrBlock] that is no such text is rejected. *)
Theorem accepted_cidr_blocks_are_texts :
  forall (environment : option string) (customConfig : option DeploymentConfig)
         (name : string) (env : EnvironmentConfig) (r : RegionConfig),
    declares (config_of customConfig) name env -> has_region env r ->
    (accepted environment customConfig ->
     exists c,
       cidrBlock r = cidr_text c /\ cidr_syntax c /\
       (ConfigurationValidator.validateCidrBlock (cidrBlock r) = true <->
        cidr_in_range c)) /\
    ((forall c, cidrBlock r = cidr_text c -> cidr_syntax c -> False) ->
     rejected environment customConfig).
Proof.
  intros environment customConfig name env r Hd Hh.
  assert (Hacc : accepted environment customConfig ->
                 exists c, cidrBlock r = cidr_text c /\ cidr_syntax c).
  { intros Ha. pose proof Hh as (rs & Hr & Hin).
    destruct (accepted_environment _ _ _ _ Ha Hd) as (rs' & Hr' & _ & [Hc _] & _).
    assert (rs' = rs) by congruence. subst rs'.
    apply validateCidrBlocks_ok in Hc as [_ Hall].
    rewrite Forall_forall in Hall. now apply manager_cidrRegex_lang, Hall. }
  split.
  - intros Ha. destruct (Hacc Ha) as (c & Hc & Hs).
    exists c. split; [assumption|]. split; [assumption|].
    rewrite Hc. now apply validateCidrBlock_in_range.
  - intros Hno. apply rejected_unless. intros Ha.
    destruct (Hacc Ha) as (c & Hc & Hs). eauto.
Qed.

Lemma accepted_cidr_blocks_are_texts_witness :
  (exists c,
     cidrBlock Regions.us_east_1 = cidr_text c /\ cidr_syntax c /\
     (ConfigurationValidator.validateCidrBlock (cidrBlock Regions.us_east_1) = true <->
      cidr_in_range c)) /\
  rejected (Some "test") (Some MoreExamples.no_prefix_length).
Proof.
  split.
  - apply (proj1 (accepted_cidr_blocks_are_texts None None "development"
                    Regions.development Regions.us_east_1
                    ltac:(eexists; split; reflexivity)
                    ltac:(eexists; split; [reflexivity | left; reflexivity]))).
    eexists. reflexivity.
  - apply (proj2 (accepted_cidr_blocks_are_texts
                    (Some "test") (Some MoreExamples.no_prefix_length) "test"
                    (Examples.test_environment
                       (Some [Examples.set_cidrBlock Regions.us_east_1 "10.1.0.0"]))
                    (Examples.set_cidrBlock Regions.us_east_1 "10.1.0.0")
                    ltac:(eexists; split; reflexivity)
                    ltac:(eexists; split; [reflexivity | left; reflexivity]))).
    intros c Hc Hs.
    assert (Ht : test cidrRegex "10.1.0.0" = true)
      by (apply manager_cidrRegex_lang; exists c; auto).
    discriminate Ht.
Defined.

(** Resolution does not check the ranges: this bundle is accepted and
    [validateCidrBlock] refuses its block. *)
Example out_of_range_block_accepted :
  accepted (Some "test") (Some MoreExamples.out_of_range) /\
  ConfigurationValidator.validateCidrBlock "999.1.0.0/99" = false.
Proof. split; [eexists|]; reflexivity. Qed.

(** X2. Both database configurations of every region of an accepted bundle
    keep the rules of [validateDatabaseConfig]: the instance class matches
    [^db\.[a-z]\d+\.[a-z0-9]+$], the storage is [NaN] or a finite number
    from 20 to 65536, the backup retention [NaN] or a finite number from 0
    to 35, and an engine version that is given and not empty matches
    [^\d+\.\d+(\.\d+)?$]; a bundle with a region that breaks one of them is
    rejected.  The two comparisons of each range test let [NaN] through and
    stop the infinities. *)
Theorem accepted_database_rules :
  forall (environment : option string) (customConfig : option DeploymentConfig)
         (name : string) (env : EnvironmentConfig) (r : RegionConfig),
    declares (config_of customConfig) name env -> has_region env r ->
    (accepted environment customConfig ->
     database_rules (databaseConfig_iot (databaseConfig r)) /\
     database_rules (databaseConfig_payment (databaseConfig r))) /\
    ((database_rules (databaseConfig_iot (databaseConfig r)) ->
      database_rules (databaseConfig_payment (databaseConfig r)) -> False) ->
     rejected environment customConfig).
Proof.
  intros environment customConfig name env r Hd Hh.
  assert (Hacc : accepted environment customConfig ->
                 database_rules (databaseConfig_iot (databaseConfig r)) /\
                 database_rules (databaseConfig_payment (databaseConfig r))).
  { intros Ha. pose proof (accepted_region _ _ _ _ _ Ha Hd Hh) as Hok.
    now apply validateRegionConfiguration_fields in Hok. }
  split; [exact Hacc|]. intros Hno. apply rejected_unless. intros Ha.
  destruct (Hacc Ha). auto.
Qed.

Lemma accepted_database_rules_witness :
  database_rules (databaseConfig_iot (databaseConfig Regions.eu_central_1)) /\
  database_rules (databaseConfig_payment (databaseConfig Regions.eu_central_1)).
Proof.
  apply (proj1 (accepted_database_rules (Some "production") None "production"
                  Regions.production Regions.eu_central_1
                  ltac:(eexists; split; reflexivity)
                  ltac:(eexists; split; [reflexivity | right; left; reflexivity]))).
  eexists. reflexivity.
Defined.

Example storage_not_a_number_accepted :
  accepted (Some "test") (Some MoreExamples.storage_not_a_number) /\
  new (Some "test") (Some MoreExamples.storage_unbounded) =
    throw (Error "IoT database allocated storage must be between 20 and 65536 GB in region us-east-1").
Proof. split; [eexists|]; reflexivity. Qed.

(** X3. Every region of an accepted bundle passes the stand-alone
    validators for its name, its two instance types and its two database
    instance classes; for its zones, [validateAvailabilityZone] comes down
    to the zone pattern, the prefix having been checked. *)
Theorem accepted_regions_pass_validators :
  forall (environment : option string) (customConfig : option DeploymentConfig)
         (name : string) (env : EnvironmentConfig) (r : RegionConfig),
    declares (config_of customConfig) name env -> has_region env r ->
    accepted environment customConfig ->
    ConfigurationValidator.validateRegionName (regionName r) = true /\
    ConfigurationValidator.validateInstanceType
      (instanceTypes_iot (instanceTypes r)) = true /\
    ConfigurationValidator.validateInstanceType
      (instanceTypes_payment (instanceTypes r)) = true /\
    ConfigurationValidator.validateRdsInstanceClass
      (instanceClass (databaseConfig_iot (databaseConfig r))) = true /\
    ConfigurationValidator.validateRdsInstanceClass
      (instanceClass (databaseConfig_payment (databaseConfig r))) = true /\
    exists azs,
      availabilityZones r = Some azs /\
      forall az, In az azs ->
        ConfigurationValidator.validateAvailabilityZone az (regionName r) =
        test ConfigurationValidator.availabilityZoneRegex az.
Proof.
  intros environment customConfig name env r Hd Hh Ha.
  pose proof (accepted_region _ _ _ _ _ Ha Hd Hh) as Hok.
  pose proof (validateRegionConfiguration_ok _ Hok) as (Hname & azs & Hz & _ & Hall).
  pose proof (validateRegionConfiguration_fields _ Hok) as (Ht & Hi & Hp).
  apply validateInstanceTypes_ok in Ht as [Ht1 Ht2].
  destruct Hi as [Hi _]. destruct Hp as [Hp _]. apply test_lang in Hi, Hp.
  repeat split; try assumption.
  exists azs. split; [assumption|]. intros az Hin.
  rewrite Forall_forall in Hall.
  unfold ConfigurationValidator.validateAvailabilityZone.
  now rewrite (Hall az Hin).
Qed.

Lemma accepted_regions_pass_validators_witness :
  ConfigurationValidator.validateRegionName "ap-southeast-2" = true /\
  ConfigurationValidator.validateInstanceType "t3.medium" = true /\
  ConfigurationValidator.validateRdsInstanceClass "db.t3.small" = true.
Proof.
  destruct (accepted_regions_pass_validators (Some "production") None "production"
              Regions.production Regions.ap_southeast_2
              ltac:(eexists; split; reflexivity)
              ltac:(eexists; split; [reflexivity | right; right; left; reflexivity])
              ltac:(eexists; reflexivity))
    as (H1 & H2 & _ & _ & H3 & _).
  exact (conj H1 (conj H2 H3)).
Defined.

(** *** The active environment *)

Lemma validateEnvironments_declared (environment : string)
    (customConfig : option DeploymentConfig) (env : EnvironmentConfig) :
  declares (config_of customConfig) environment env ->
  validateEnvironments (instance_of (Some environment) customConfig) = ok tt.
Proof.
  intros (envs & He & Ho). unfold validateEnvironments. simpl. rewrite He.
  destruct envs as [|entry envs]; [discriminate|]. simpl List.length.
  cbn [Nat.eqb]. unfold truthy_at. now rewrite Ho.
Qed.

Lemma forEach_ext {A : Type} (f g : A -> Result unit) (a : list A) :
  (forall x, f x = g x) -> forEach f a = forEach g a.
Proof.
  intros H. induction a as [|x a IH]; simpl; [reflexivity|].
  now rewrite H, IH.
Qed.

(** After its first step, validation only reads the bundle. *)
Lemma validateConfiguration_same_bundle (this1 this2 : t) :
  deploymentConfig this1 = deploymentConfig this2 ->
  validateEnvironments this1 = ok tt -> validateEnvironments this2 = ok tt ->
  validateConfiguration this1 = validateConfiguration this2.
Proof.
  intros H H1 H2. unfold validateConfiguration. rewrite H1, H2. simpl.
  unfold validateCrossRegionSettings. rewrite H.
  destruct (primaryRegion _ =? ""); [reflexivity|].
  destruct (paymentApiEndpoint _ =? ""); [reflexivity|].
  destruct (environments (deploymentConfig this2)) as [envs|]; [|reflexivity].
  destruct (some _ _) as [e|[]]; simpl; try reflexivity.
  apply forEach_ext. intros k. unfold validateEnvironmentConfiguration.
  now rewrite H.
Qed.

Lemma new_outcome (environment : option string)
    (customConfig : option DeploymentConfig) :
  new environment customConfig =
    match validateConfiguration (instance_of environment customConfig) with
    | inl e => inl e
    | inr _ => inr (instance_of environment customConfig)
    end.
Proof. reflexivity. Qed.

(** X4. Validation is of the bundle as a whole: for two environments that
    the bundle declares, construction succeeds for the one exactly when it
    does for the other, and fails with the same exception. *)
Theorem acceptance_ignores_active_environment :
  forall (customConfig : option DeploymentConfig) (e1 e2 : string)
         (env1 env2 : EnvironmentConfig),
    declares (config_of customConfig) e1 env1 ->
    declares (config_of customConfig) e2 env2 ->
    (accepted (Some e1) customConfig <-> accepted (Some e2) customConfig) /\
    (forall err,
       new (Some e1) customConfig = throw err <->
       new (Some e2) customConfig = throw err).
Proof.
  intros customConfig e1 e2 env1 env2 H1 H2.
  assert (E : validateConfiguration (instance_of (Some e1) customConfig) =
              validateConfiguration (instance_of (Some e2) customConfig)).
  { apply validateConfiguration_same_bundle; [reflexivity | |];
      eapply validateEnvironments_declared; eassumption. }
  split.
  - rewrite !accepted_iff, E. tauto.
  - intros err. rewrite !new_outcome, E. clear E.
    destruct (validateConfiguration _) as [e|[]]; unfold throw;
      split; intros H; first [exact H | discriminate H].
Qed.

Lemma acceptance_ignores_active_environment_witness :
  accepted (Some "production") None /\
  new (Some "staging") (Some Examples.staging_empty) =
    throw (Error "No regions configured for environment: staging").
Proof.
  split.
  - apply (proj1 (proj1 (acceptance_ignores_active_environment None
                           "development" "production"
                           Regions.development Regions.production
                           ltac:(eexists; split; reflexivity)
                           ltac:(eexists; split; reflexivity)))).
    eexists. reflexivity.
  - apply (proj1 (proj2 (acceptance_ignores_active_environment
                           (Some Examples.staging_empty) "test" "staging"
                           (Examples.test_environment (Some [Regions.us_east_1]))
                           (Examples.test_environment (Some []))
                           ltac:(eexists; split; reflexivity)
                           ltac:(eexists; split; reflexivity)) _)).
    reflexivity.
Defined.

End Fields.

(* ================================================================== *)
(** ** The queries of a constructed manager *)
(* ================================================================== *)

Section QueriesOfManager.

Import Js ConfigurationManager Queries.
Local Open Scope string_scope.

Lemma new_instance (environment : option string)
    (customConfig : option DeploymentConfig) (this : t) :
  new environment customConfig = inr this ->
  this = instance_of environment customConfig /\
  validateConfiguration this = ok tt.
Proof.
  rewrite new_outcome.
  destruct (validateConfiguration _) as [e|[]] eqn:Hv; [discriminate|].
  intros H. injection H as <-. auto.
Qed.

Lemma constructed (environment : option string)
    (customConfig : option DeploymentConfig) (this : t) :
  new environment customConfig = inr this ->
  accepted environment customConfig /\
  deploymentConfig this = config_of customConfig.
Proof.
  intros H. split; [now exists this|].
  apply new_instance in H as [-> _]. reflexivity.
Qed.

Lemma get_declared {A : Type} (d : Dict A) (k : string) (a : A) :
  own d k = Some a -> get d k = Some (Object a).
Proof. intros H. unfold get. now rewrite H. Qed.



Lemma validateEnvironments_current (this : t) :
  validateEnvironments this = ok tt ->
  exists envs,
    environments (deploymentConfig this) = Some envs /\
    truthy_at envs (currentEnvironment this) = true.
Proof.
  unfold validateEnvironments.
  destruct (environments (deploymentConfig this)) as [envs|]; [|discriminate].
  destruct (List.length (Object_keys envs) =? 0)%nat; [discriminate|].
  destruct (truthy_at envs (currentEnvironment this)) eqn:Ht;
    [intros _; exists envs; auto | discriminate].
Qed.



Lemma getEnvironmentConfig_current (this : t) (env : EnvironmentConfig) :
  current_environment this env ->
  getEnvironmentConfig this None = ok (Object env).
Proof.
  intros (envs & He & Ho). unfold getEnvironmentConfig. simpl or_else.
  rewrite He. now rewrite (get_declared _ _ _ Ho).
Qed.



Lemma default_region_name (name : string) (r : RegionConfig) :
  own Regions.DEFAULT_REGIONS name = Some r -> regionName r = name.
Proof.
  unfold Regions.DEFAULT_REGIONS. cbn [own].
  repeat match goal with
  | |- (if String.eqb ?a name then _ else _) = Some _ -> _ =>
      destruct (String.eqb_spec a name) as [<-|_];
      [intros H; injection H as <-; reflexivity|]
  end.
  discriminate.
Qed.

Lemma find_named (name : string) (rs : list RegionConfig) (r : RegionConfig) :
  find (fun r' => String.eqb (regionName r') name) rs = Some r ->
  In r rs /\ regionName r = name.
Proof.
  intros H. apply find_some in H as [Hin Hn]. now apply String.eqb_eq in Hn.
Qed.

Lemma find_absent (name : string) (rs : list RegionConfig) :
  find (fun r' => String.eqb (regionName r') name) rs = None ->
  forall r, In r rs -> regionName r = name -> False.
Proof.
  intros H r Hin Hn. apply (find_none _ _ H) in Hin. simpl in Hin.
  apply String.eqb_neq in Hin. auto.
Qed.

Lemma inherited_iff (name : string) :
  existsb (String.eqb name) Object_prototype_keys = true <-> inherited name.
Proof.
  unfold inherited. rewrite existsb_exists. split.
  - intros (x & Hin & Hx). apply String.eqb_eq in Hx. now subst x.
  - intros Hin. exists name. split; [assumption | apply String.eqb_refl].
Qed.

Lemma inherited_no_default (name : string) :
  inherited name -> own Regions.DEFAULT_REGIONS name = None.
Proof.
  unfold inherited. cbn [In Object_prototype_keys].
  intros H. repeat (destruct H as [<-|H]; [reflexivity|]). destruct H.
Qed.

Lemma get_default_region (name : string) :
  (forall r, get Regions.DEFAULT_REGIONS name = Some (Object r) <->
             own Regions.DEFAULT_REGIONS name = Some r) /\
  (get Regions.DEFAULT_REGIONS name = Some Builtin <-> inherited name) /\
  (get Regions.DEFAULT_REGIONS name = None <->
   own Regions.DEFAULT_REGIONS name = None /\ (inherited name -> False)).
Proof.
  unfold get.
  destruct (own Regions.DEFAULT_REGIONS name) as [d|] eqn:Ho.
  - split; [|split].
    + intros r. split; intros H; injection H as <-; reflexivity.
    + split; [discriminate|]. intros H.
      apply inherited_no_default in H. congruence.
    + split; [discriminate | intros [H _]; discriminate H].
  - destruct (existsb _ _) eqn:He.
    + apply inherited_iff in He. split; [|split].
      * intros r. split; discriminate.
      * tauto.
      * split; [discriminate | tauto].
    + assert (Hn : inherited name -> False)
        by (intros H; apply inherited_iff in H; congruence).
      split; [|split].
      * intros r. split; discriminate.
      * split; [discriminate | tauto].
      * tauto.
Qed.

(** X6. On a constructed manager whose current environment is declared,
    [getRegionConfig(name)] has three outcomes.  It returns a region, which
    is then called [name] and is a region of the current environment or,
    when that environment has none of the name, the entry [name] of the
    default table: a region of the current environment goes before the
    default of the same name.  It returns a member of [Object.prototype],
    which is no region, exactly when [name] is the name of such a member
    (["constructor"], ["toString"], ...) and no region of the current
    environment has it.  It throws, and then "Region configuration not
    found for: ...", exactly when neither the environment nor the default
    table has the name and no object inherits it. *)
Theorem getRegionConfig_by_name :
  forall (environment : option string) (customConfig : option DeploymentConfig)
         (this : t) (env : EnvironmentConfig) (name : string),
    new environment customConfig = inr this -> current_environment this env ->
    (forall r, getRegionConfig this name = ok (Object r) ->
               regionName r = name /\
               (has_region env r \/ own Regions.DEFAULT_REGIONS name = Some r)) /\
    (forall r, has_region env r -> regionName r = name ->
               exists r', getRegionConfig this name = ok (Object r') /\
                          has_region env r' /\ regionName r' = name) /\
    ((forall r, has_region env r -> regionName r = name -> False) ->
     forall r, own Regions.DEFAULT_REGIONS name = Some r ->
               getRegionConfig this name = ok (Object r)) /\
    (getRegionConfig this name = ok Builtin <->
     inherited name /\
     (forall r, has_region env r -> regionName r = name -> False)) /\
    (forall e, getRegionConfig this name = throw e <->
               e = Error ("Region configuration not found for: " ++ name) /\
               (forall r, has_region env r -> regionName r = name -> False) /\
               own Regions.DEFAULT_REGIONS name = None /\
               (inherited name -> False)).
Proof.
  intros environment customConfig this env name Hnew Hcur.
  pose proof (constructed _ _ _ Hnew) as [Ha Hcfg].
  assert (Hd : declares (config_of customConfig) (currentEnvironment this) env)
    by (rewrite <- Hcfg; exact Hcur).
  destruct (accepted_environment _ _ _ _ Ha Hd) as (rs & Hr & _).
  unfold getRegionConfig. rewrite (getEnvironmentConfig_current _ _ Hcur).
  cbn [bind ok regions_of]. rewrite Hr.
  destruct (find _ rs) as [found|] eqn:Hfind.
  - apply find_named in Hfind as [Hin Hn].
    assert (Hfound : has_region env found) by (exists rs; auto).
    split; [|split; [|split; [|split]]].
    + intros r H. injection H as <-. auto.
    + intros r _ _. exists found. auto.
    + intros Hno. exfalso. eauto.
    + split; [discriminate|]. intros [_ Hno]. exfalso. eauto.
    + intros e. split; [discriminate|]. intros (_ & Hno & _). exfalso. eauto.
  - assert (Habs : forall r, has_region env r -> regionName r = name -> False).
    { intros r (rs' & Hr' & Hin) Hn. assert (rs' = rs) by congruence.
      subst rs'. exact (find_absent _ _ Hfind r Hin Hn). }
    destruct (get_default_region name) as (Hobj & Hbuiltin & Hnone).
    destruct (get Regions.DEFAULT_REGIONS name) as [[d|]|].
    + pose proof (proj1 (Hobj d) eq_refl) as Ho.
      split; [|split; [|split; [|split]]].
      * intros r H. injection H as <-.
        split; [now apply default_region_name | auto].
      * intros r Hh Hn. exfalso. eauto.
      * intros _ r Ho'. congruence.
      * split; [discriminate|]. intros [Hi _]. apply Hbuiltin in Hi. discriminate Hi.
      * intros e. split; [discriminate|]. intros (_ & _ & Ho' & _). congruence.
    + pose proof (proj1 Hbuiltin eq_refl) as Hi.
      split; [|split; [|split; [|split]]].
      * intros r H. discriminate H.
      * intros r Hh Hn. exfalso. eauto.
      * intros _ r Ho'. apply Hobj in Ho'. discriminate Ho'.
      * split; auto.
      * intros e. split; [discriminate|]. intros (_ & _ & _ & Hn). tauto.
    + destruct (proj1 Hnone eq_refl) as [Ho Hi].
      split; [|split; [|split; [|split]]].
      * intros r H. discriminate H.
      * intros r Hh Hn. exfalso. eauto.
      * intros _ r Ho'. congruence.
      * split; [discriminate | tauto].
      * intros e. split.
        -- intros H. injection H as <-. auto.
        -- intros (-> & _). reflexivity.
Qed.

Lemma getRegionConfig_by_name_witness :
  (exists r', getRegionConfig
                (instance_of (Some "test") (Some Examples.shared_network))
                "eu-central-1" = ok (Object r') /\
              has_region (Examples.test_environment
                            (Some [Regions.us_east_1; Examples.eu_on_10_1])) r' /\
              regionName r' = "eu-central-1") /\
  getRegionConfig (instance_of None None) "ap-southeast-2" =
    ok (Object Regions.ap_southeast_2) /\
  getRegionConfig (instance_of None None) "constructor" = ok Builtin.
Proof.
  split; [|split].
  - destruct (getRegionConfig_by_name (Some "test") (Some Examples.shared_network)
                (instance_of (Some "test") (Some Examples.shared_network))
                (Examples.test_environment
                   (Some [Regions.us_east_1; Examples.eu_on_10_1]))
                "eu-central-1" eq_refl
                ltac:(eexists; split; reflexivity)) as (_ & Hshadow & _).
    destruct (Hshadow Examples.eu_on_10_1
                ltac:(eexists; split; [reflexivity | right; left; reflexivity])
                eq_refl) as (r' & H1 & H2 & H3).
    exists r'. repeat split; assumption.
  - reflexivity.
  - reflexivity.
Defined.

(** X7. On a constructed manager, for a selector that designates a
    declared environment, the three filters do not throw: each returns the
    regions of that environment that have its flag, in their order; and the
    payment regions contain the region of the environment that is found
    under the primary region's name, when there is one. *)
Theorem filtered_regions_after_construction :
  forall (environment : option string) (customConfig : option DeploymentConfig)
         (this : t) (selector : option string) (env : EnvironmentConfig),
    new environment customConfig = inr this ->
    getEnvironmentConfig this selector = ok (Object env) ->
    exists rs,
      regions env = Some rs /\
      getIoTRegions this selector = ok (filter deployIoT rs) /\
      getPaymentRegions this selector = ok (filter deployPayment rs) /\
      getDemoRegions this selector = ok (filter deployDemo rs) /\
      forall r, primary_region_of (deploymentConfig this) env r ->
                In r (filter deployPayment rs).
Proof.
  intros environment customConfig this selector env Hnew Hget.
  pose proof (constructed _ _ _ Hnew) as [Ha Hcfg].
  assert (Hd : declares (config_of customConfig)
                 (or_else selector (currentEnvironment this)) env).
  { rewrite <- Hcfg. unfold getEnvironmentConfig in Hget.
    destruct (environments (deploymentConfig this)) as [envs|] eqn:He;
      [|discriminate Hget].
    exists envs. split; [exact He|]. unfold get in Hget.
    destruct (own envs _) as [env'|]; [unfold ok in Hget; congruence|].
    destruct (existsb _ _); discriminate Hget. }
  destruct (accepted_environment _ _ _ _ Ha Hd) as (rs & Hr & _ & _ & Hpay).
  exists rs. split; [assumption|].
  unfold getIoTRegions, getPaymentRegions, getDemoRegions, filtered,
    getEnvironmentRegions.
  rewrite Hget. cbn [bind ok regions_of]. rewrite Hr.
  repeat split. intros r Hp. rewrite <- Hcfg in Hpay.
  pose proof (Hpay r Hp) as Hflag. destruct Hp as (rs' & Hr' & Hfind).
  assert (rs' = rs) by congruence. subst rs'.
  apply find_some in Hfind as [Hin _]. apply filter_In. auto.
Qed.

Lemma filtered_regions_after_construction_witness :
  getPaymentRegions (instance_of (Some "production") None) None =
    ok [Regions.us_east_1] /\
  getIoTRegions (instance_of (Some "production") None) None =
    ok [Regions.us_east_1; Regions.eu_central_1; Regions.ap_southeast_2].
Proof.
  destruct (filtered_regions_after_construction (Some "production") None
              (instance_of (Some "production") None) None Regions.production
              eq_refl eq_refl) as (rs & Hr & Hiot & Hpay & _).
  injection Hr as <-. split; [exact Hpay | exact Hiot].
Defined.

Lemma append_cancel_l (a b c : string) : a ++ b = a ++ c -> b = c.
Proof.
  induction a as [|x a IH]; simpl; [auto|]. intros H. injection H as H. auto.
Qed.

Lemma append_cancel_r (a b c : string) : a ++ c = b ++ c -> a = b.
Proof.
  intros H.
  assert (Hlen : String.length a = String.length b).
  { apply (f_equal String.length) in H. rewrite !length_app in H. lia. }
  revert b H Hlen. induction a as [|x a IH]; intros [|y b] H Hlen;
    simpl in *; try discriminate; [reflexivity|].
  injection H as -> H. injection Hlen as Hlen. f_equal. auto.
Qed.

(** X8. Stack names tell regions apart: two calls of [generateStackName]
    for the same environment that return the same name were made for the
    same region if the stack type is the same, and for the same stack type
    and region if the stack types hold no dash. *)
Theorem generateStackName_injective :
  forall (this : t) (environment : option string)
         (stackType1 stackType2 region1 region2 name : string),
    generateStackName this stackType1 region1 environment = ok name ->
    generateStackName this stackType2 region2 environment = ok name ->
    (stackType1 = stackType2 -> region1 = region2) /\
    (every_char (differs "-") stackType1 -> every_char (differs "-") stackType2 ->
     stackType1 = stackType2 /\ region1 = region2).
Proof.
  intros this environment t1 t2 r1 r2 name H1 H2.
  unfold generateStackName in H1, H2.
  destruct (getStackNaming this environment) as [e|[n|]];
    cbn [bind ok throw] in H1, H2; try discriminate.
  injection H1 as H1. injection H2 as H2. rewrite <- H2 in H1. clear H2.
  apply append_cancel_l in H1. simpl in H1. injection H1 as H1.
  split.
  - intros <-. apply append_cancel_l in H1. simpl in H1. injection H1 as H1.
    now apply append_cancel_r in H1.
  - intros Hd1 Hd2. simpl in H1.
    apply field_injective in H1 as [<- H1]; try assumption.
    split; [reflexivity|]. now apply append_cancel_r in H1.
Qed.

Lemma generateStackName_injective_witness :
  "us-east-1" = "us-east-1" /\
  generateStackName (instance_of None None) "Network" "us-east-1" None =
    ok "MultiRegionDemo-Network-us-east-1-Dev".
Proof.
  split; [|reflexivity].
  apply (proj1 (generateStackName_injective (instance_of None None) None
                  "Network" "Network" "us-east-1" "us-east-1"
                  "MultiRegionDemo-Network-us-east-1-Dev" eq_refl eq_refl)).
  reflexivity.
Defined.

End QueriesOfManager.

(* ================================================================== *)
(** ** The utilities of [regions.ts] and the loader *)
(* ================================================================== *)

Section Loading.

Import Js ConfigurationManager.
Local Open Scope string_scope.

Lemma positions_NoDup_map {A B : Type} (f : A -> B) (l : list A) :
  (forall i j a b, i <> j -> nth_error l i = Some a -> nth_error l j = Some b ->
                   f a <> f b) ->
  NoDup (map f l).
Proof.
  induction l as [|x l IH]; intros H; simpl; constructor.
  - intros Hin. apply in_map_iff in Hin as (y & Hy & Hin).
    apply In_nth_error in Hin as [j Hj].
    apply (H 0%nat (S j) x y); [discriminate | reflexivity | exact Hj | auto].
  - apply IH. intros i j a b Hij Hi Hj.
    apply (H (S i) (S j)); auto.
Qed.

Lemma distinct_cidr_blocks (rs : list RegionConfig) :
  NoDup (map cidrBlock rs) <->
  forall r1 r2, two_regions rs r1 r2 -> cidrBlock r1 <> cidrBlock r2.
Proof.
  split.
  - intros Hnd r1 r2 H2 E. exact (two_regions_duplicate _ _ _ H2 E Hnd).
  - intros H. apply positions_NoDup_map. intros i j a b Hij Hi Hj.
    apply H. exists i, j. auto.
Qed.

Lemma util_validateCidrBlocks_NoDup (rs : list RegionConfig) :
  RegionsUtil.validateCidrBlocks rs = ok true <-> NoDup (map cidrBlock rs).
Proof.
  unfold RegionsUtil.validateCidrBlocks.
  destruct (Nat.eqb_spec (List.length (map cidrBlock rs))
                         (Set_size (map cidrBlock rs))) as [E|E]; simpl.
  - apply Set_size_full in E. tauto.
  - split; [discriminate|]. intros H. now apply Set_size_full in H.
Qed.

(** X9. [validateCidrBlocks] of [regions.ts] returns [true] exactly when
    no two regions of the list have the same [cidrBlock] text, and throws
    "Overlapping CIDR blocks detected in region configuration" otherwise: it
    never returns [false]. The check of the manager passes exactly when
    this one does and every block is a dotted-quad/prefix text. *)
Theorem util_validateCidrBlocks_spec :
  forall rs : list RegionConfig,
    (RegionsUtil.validateCidrBlocks rs = ok true <->
     forall r1 r2, two_regions rs r1 r2 -> cidrBlock r1 <> cidrBlock r2) /\
    (RegionsUtil.validateCidrBlocks rs = ok true \/
     RegionsUtil.validateCidrBlocks rs =
       throw (Error "Overlapping CIDR blocks detected in region configuration")) /\
    (ConfigurationManager.validateCidrBlocks rs = ok tt <->
     RegionsUtil.validateCidrBlocks rs = ok true /\
     forall r, In r rs -> exists c, cidrBlock r = cidr_text c /\ cidr_syntax c).
Proof.
  intros rs. split; [|split].
  - rewrite util_validateCidrBlocks_NoDup. apply distinct_cidr_blocks.
  - unfold RegionsUtil.validateCidrBlocks.
    destruct (negb _); auto.
  - rewrite util_validateCidrBlocks_NoDup. split.
    + intros H. apply validateCidrBlocks_ok in H as [Hnd Hall].
      split; [assumption|]. intros r Hin. rewrite Forall_forall in Hall.
      now apply manager_cidrRegex_lang, Hall.
    + intros [Hnd Hall]. unfold ConfigurationManager.validateCidrBlocks.
      apply Set_size_full in Hnd. rewrite Hnd, Nat.eqb_refl. simpl.
      apply forEach_ok, Forall_map, Forall_forall. intros r Hin.
      now rewrite (proj2 (manager_cidrRegex_lang _) (Hall r Hin)).
Qed.

Lemma truthy_default (environment : string) :
  truthy_at [("development", Regions.development);
             ("production", Regions.production)] environment = true <->
  environment = "development" \/ environment = "production" \/
  inherited environment.
Proof.
  unfold truthy_at, inherited. cbn [own].
  destruct (String.eqb_spec "development" environment) as [<-|H1]; [tauto|].
  destruct (String.eqb_spec "production" environment) as [<-|H2]; [tauto|].
  rewrite existsb_exists. split.
  - intros (x & Hin & Hx). apply String.eqb_eq in Hx. subst x. auto.
  - intros [E|[E|Hin]]; try congruence.
    exists environment. split; [assumption | apply String.eqb_refl].
Qed.

Lemma new_default (environment : string) :
  new (Some environment) None =
    if truthy_at [("development", Regions.development);
                  ("production", Regions.production)] environment
    then ok (instance_of (Some environment) None)
    else throw (Error ("Current environment '" ++ environment
                       ++ "' not found in configuration")).
Proof.
  rewrite new_outcome.
  destruct (truthy_at _ environment) eqn:Ht.
  - assert (Hv : validateEnvironments (instance_of (Some environment) None) = ok tt).
    { unfold validateEnvironments. cbn. now rewrite Ht. }
    rewrite (validateConfiguration_same_bundle
               (instance_of (Some environment) None) (instance_of None None)
               eq_refl Hv eq_refl).
    reflexivity.
  - unfold validateConfiguration, validateEnvironments. cbn.
    now rewrite Ht.
Qed.

(** X10. [loadFromEnvironment] returns the default bundle, and nothing
    else: it succeeds when [CDK_ENVIRONMENT] is unset or empty, names
    "development" or "production", or is a name every object inherits; for
    any other value it throws "Current environment '...' not found in
    configuration". *)
Theorem loadFromEnvironment_spec :
  forall CDK_ENVIRONMENT : option string,
    (forall c, ConfigurationLoader.loadFromEnvironment CDK_ENVIRONMENT = ok c ->
               c = Regions.DEFAULT_DEPLOYMENT_CONFIG) /\
    (or_else CDK_ENVIRONMENT "development" = "development" \/
     or_else CDK_ENVIRONMENT "development" = "production" \/
     inherited (or_else CDK_ENVIRONMENT "development") ->
     ConfigurationLoader.loadFromEnvironment CDK_ENVIRONMENT =
       ok Regions.DEFAULT_DEPLOYMENT_CONFIG) /\
    (or_else CDK_ENVIRONMENT "development" <> "development" ->
     or_else CDK_ENVIRONMENT "development" <> "production" ->
     (inherited (or_else CDK_ENVIRONMENT "development") -> False) ->
     ConfigurationLoader.loadFromEnvironment CDK_ENVIRONMENT =
       throw (Error ("Current environment '"
                     ++ or_else CDK_ENVIRONMENT "development"
                     ++ "' not found in configuration"))).
Proof.
  intros v. unfold ConfigurationLoader.loadFromEnvironment.
  set (environment := or_else v "development").
  rewrite new_default.
  destruct (truthy_at _ environment) eqn:Ht.
  - apply truthy_default in Ht. cbn [bind ok]. split; [|split].
    + intros c H. injection H as <-. reflexivity.
    + reflexivity.
    + intros H1 H2 H3. exfalso. tauto.
  - cbn [bind throw]. split; [|split].
    + intros c H. discriminate H.
    + intros H. apply truthy_default in H. congruence.
    + reflexivity.
Qed.

Lemma loadFromEnvironment_spec_witness :
  ConfigurationLoader.loadFromEnvironment (Some "") =
    ok Regions.DEFAULT_DEPLOYMENT_CONFIG /\
  ConfigurationLoader.loadFromEnvironment (Some "staging") =
    throw (Error "Current environment 'staging' not found in configuration").
Proof.
  split.
  - apply (proj1 (proj2 (loadFromEnvironment_spec (Some "")))).
    left. reflexivity.
  - apply (proj2 (proj2 (loadFromEnvironment_spec (Some "staging"))));
      [discriminate | discriminate |].
    unfold inherited. simpl. intuition discriminate.
Defined.

End Loading.

(* ================================================================== *)
(** ** Merging configurations *)
(* ================================================================== *)

Section Merging.

Import Js ConfigurationManager ConfigurationLoader.
Local Open Scope string_scope.

Lemma own_replace_own {A : Type} (d : Dict A) (k k' : string) (v a : A) :
  own d k = Some a ->
  own (replace_own d k v) k' = if String.eqb k k' then Some v else own d k'.
Proof.
  induction d as [|[k0 v0] d IH]; simpl; [discriminate|].
  destruct (String.eqb_spec k0 k) as [->|Hk0]; intros H; simpl.
  - destruct (String.eqb_spec k k'); reflexivity.
  - rewrite (IH H). destruct (String.eqb_spec k0 k') as [<-|_]; [|reflexivity].
    apply String.eqb_neq in Hk0. rewrite String.eqb_sym in Hk0. now rewrite Hk0.
Qed.

Lemma own_cons_new {A : Type} (d : Dict A) (k k' : string) (v : A) :
  own ((k, v) :: d) k' = if String.eqb k k' then Some v else own d k'.
Proof. reflexivity. Qed.

Lemma own_insert_index {A : Type} (d : Dict A) (i : Z) (k k' : string) (v : A) :
  own d k = None ->
  own (insert_index d i k v) k' = if String.eqb k k' then Some v else own d k'.
Proof.
  induction d as [|[k0 v0] d IH]; [reflexivity|]. cbn [own insert_index].
  destruct (String.eqb_spec k0 k) as [->|Hk0]; [discriminate|]. intros H.
  destruct (array_index k0) as [j|]; [|reflexivity].
  destruct (j <? i)%Z; [|reflexivity].
  cbn [own]. rewrite (IH H).
  destruct (String.eqb_spec k0 k') as [<-|_]; [|reflexivity].
  apply String.eqb_neq in Hk0. rewrite String.eqb_sym in Hk0. now rewrite Hk0.
Qed.

Lemma own_append {A : Type} (d : Dict A) (k k' : string) (v : A) :
  own d k = None ->
  own (d ++ [(k, v)])%list k' = if String.eqb k k' then Some v else own d k'.
Proof.
  induction d as [|[k0 v0] d IH]; [reflexivity|]. cbn [own app].
  destruct (String.eqb_spec k0 k) as [->|Hk0]; [discriminate|]. intros H.
  rewrite (IH H).
  destruct (String.eqb_spec k0 k') as [<-|_]; [|reflexivity].
  apply String.eqb_neq in Hk0. rewrite String.eqb_sym in Hk0. now rewrite Hk0.
Qed.

(** Reading after writing. *)
Lemma own_assign {A : Type} (d d' : Dict A) (k k' : string) (v : A) :
  assign d k v = Some d' ->
  own d' k' = if String.eqb k k' then Some v else own d k'.
Proof.
  unfold assign. destruct (own d k) as [a|] eqn:Ho.
  - intros H. injection H as <-. now apply own_replace_own with (a := a).
  - destruct (String.eqb k "__proto__"); [discriminate|].
    destruct (array_index k) as [i|]; intros H; injection H as <-.
    + now apply own_insert_index.
    + now apply own_append.
Qed.

Lemma assign_defined {A : Type} (d : Dict A) (k : string) (v : A) :
  k <> "__proto__" -> exists d', assign d k v = Some d'.
Proof.
  intros Hk. unfold assign. apply String.eqb_neq in Hk. rewrite Hk.
  destruct (own d k); [eauto|]. destruct (array_index k); eauto.
Qed.

Lemma spread_environment_twice (base : option EnvironmentConfig)
    (o : EnvironmentConfig) :
  spread_environment (Some (spread_environment base o)) o =
  spread_environment base o.
Proof.
  unfold spread_environment. simpl. destruct (regions o); reflexivity.
Qed.

(** The environments after the loop, key by key. *)
Lemma merge_environments_own (overrides : Dict EnvironmentConfig)
    (keys : list string) (merged merged' : Dict EnvironmentConfig) (k : string) :
  merge_environments merged overrides keys = Some merged' ->
  own merged' k =
    match (if existsb (String.eqb k) keys then own overrides k else None) with
    | Some o => Some (spread_environment (own merged k) o)
    | None => own merged k
    end.
Proof.
  revert merged. induction keys as [|e keys IH]; intros merged; cbn [merge_environments].
  - intros H. injection H as <-. reflexivity.
  - cbn [existsb].
    destruct (own overrides e) as [o|] eqn:Ho.
    + destruct (assign merged e _) as [m1|] eqn:Ha; [|discriminate].
      intros H. rewrite (IH _ H), (own_assign _ _ _ k _ Ha).
      rewrite (String.eqb_sym k e).
      destruct (String.eqb_spec e k) as [->|Hne]; simpl.
      * rewrite Ho. destruct (existsb _ keys); [|reflexivity].
        now rewrite spread_environment_twice.
      * reflexivity.
    + intros H. rewrite (IH _ H). rewrite (String.eqb_sym k e).
      destruct (String.eqb_spec e k) as [->|Hne]; simpl; [|reflexivity].
      rewrite Ho. destruct (existsb _ keys); reflexivity.
Qed.

Lemma own_key_listed {A : Type} (d : Dict A) (k : string) :
  existsb (String.eqb k) (Object_keys d) = false -> own d k = None.
Proof.
  induction d as [|[k0 v0] d IH]; [reflexivity|]. cbn [Object_keys map existsb fst own].
  rewrite (String.eqb_sym k k0).
  destruct (String.eqb k0 k); simpl; [discriminate | exact IH].
Qed.

Lemma merged_environments_own (base : DeploymentConfig)
    (overrideConfig : PartialDeploymentConfig)
    (overrides envs : Dict EnvironmentConfig) (k : string) :
  override_environments overrideConfig = Some overrides ->
  merge_environments (environments_of base) overrides (Object_keys overrides)
    = Some envs ->
  own envs k =
    match override_at overrideConfig k with
    | Some o => Some (spread_environment (own (environments_of base) k) o)
    | None => own (environments_of base) k
    end.
Proof.
  intros Hov H. rewrite (merge_environments_own _ _ _ _ k H).
  unfold override_at. rewrite Hov.
  destruct (existsb _ _) eqn:He; [reflexivity|].
  now rewrite (own_key_listed _ _ He).
Qed.

(** What [mergeConfigurations] hands to the constructor. *)
Lemma mergeConfigurations_candidate (base : DeploymentConfig)
    (overrideConfig : PartialDeploymentConfig) (r : Result DeploymentConfig) :
  mergeConfigurations base overrideConfig = Some r ->
  exists merged envs,
    r = (manager <- new (Some "development") (Some merged) ;; ok merged) /\
    environments merged = Some envs /\
    crossRegionSettings merged =
      match override_crossRegionSettings overrideConfig with
      | Some s => s
      | None => crossRegionSettings base
      end /\
    forall k,
      own envs k =
        match override_at overrideConfig k with
        | Some o => Some (spread_environment (own (environments_of base) k) o)
        | None => own (environments_of base) k
        end.
Proof.
  unfold mergeConfigurations. fold (environments_of base).
  destruct (override_environments overrideConfig) as [overrides|] eqn:Hov.
  - destruct (merge_environments _ _ _) as [envs|] eqn:Hm; [|discriminate].
    intros H. injection H as <-. eexists. exists envs.
    split; [reflexivity|]. split; [reflexivity|]. split; [reflexivity|].
    intros k. now apply merged_environments_own with (overrides := overrides).
  - intros H. injection H as <-. eexists. eexists.
    split; [reflexivity|]. split; [reflexivity|]. split; [reflexivity|].
    intros k. unfold override_at. now rewrite Hov.
Qed.

Lemma bind_returns {A B : Type} (c : Result A) (b b' : B) :
  (x <- c ;; ok b) = ok b' -> b = b' /\ exists a, c = inr a.
Proof.
  destruct c as [e|a]; cbn [bind ok]; [discriminate|].
  intros H. injection H as <-. eauto.
Qed.

Lemma merge_environments_defined (overrides : Dict EnvironmentConfig)
    (keys : list string) (merged : Dict EnvironmentConfig) :
  (In "__proto__" keys -> False) ->
  exists merged', merge_environments merged overrides keys = Some merged'.
Proof.
  revert merged. induction keys as [|e keys IH]; intros merged Hk;
    cbn [merge_environments]; [eauto|].
  assert (Hrest : In "__proto__" keys -> False) by (intros H; apply Hk; now right).
  destruct (own overrides e) as [o|]; [|now apply IH].
  destruct (assign_defined merged e (spread_environment (own merged e) o))
    as [m1 ->]; [|now apply IH].
  intros ->. apply Hk. now left.
Qed.

Lemma own_environments_of (cfg : DeploymentConfig) (name : string)
    (env : EnvironmentConfig) :
  own (environments_of cfg) name = Some env <-> declares cfg name env.
Proof.
  unfold environments_of, declares. split.
  - destruct (environments cfg) as [envs|]; [eauto | discriminate].
  - intros (envs & -> & H). exact H.
Qed.



(** X12. What a merge returns, field by field: the cross-region settings
    are those of the override when it has them and those of the base
    otherwise; an environment the override does not name is that of the
    base; one it names takes [stackNaming], [tags] and [settings] from the
    override, and [regions] too unless the override has no such property,
    in which case the regions of the base stay.  The merge is defined in
    this embedding whenever no environment of the override is called
    ["__proto__"]. *)
Theorem mergeConfigurations_fields :
  forall (base : DeploymentConfig) (overrideConfig : PartialDeploymentConfig),
    ((forall overrides,
        override_environments overrideConfig = Some overrides ->
        In "__proto__" (Object_keys overrides) -> False) ->
     exists r, mergeConfigurations base overrideConfig = Some r) /\
    (forall merged,
       mergeConfigurations base overrideConfig = Some (ok merged) ->
       crossRegionSettings merged =
         match override_crossRegionSettings overrideConfig with
         | Some s => s
         | None => crossRegionSettings base
         end /\
       forall name,
         (override_at overrideConfig name = None ->
          forall env, declares merged name env <-> declares base name env) /\
         (forall o, override_at overrideConfig name = Some o ->
            exists env,
              declares merged name env /\
              stackNaming env = stackNaming o /\ tags env = tags o /\
              settings env = settings o /\
              (forall rs, regions o = Some rs -> regions env = Some rs) /\
              (regions o = None ->
               forall b, declares base name b -> regions env = regions b))).
Proof.
  intros base overrideConfig. split.
  - intros Hproto. unfold mergeConfigurations.
    destruct (override_environments overrideConfig) as [overrides|] eqn:Hov;
      [|eauto].
    destruct (merge_environments_defined overrides (Object_keys overrides)
                match environments base with Some envs => envs | None => [] end
                (Hproto overrides eq_refl)) as [envs ->].
    eauto.
  - intros merged H.
    apply mergeConfigurations_candidate in H
      as (merged' & envs & Hr & He & Hcrs & Hown).
    symmetry in Hr. apply bind_returns in Hr as [<- _].
    split; [exact Hcrs|]. intros name. specialize (Hown name). split.
    + intros Ho env. rewrite Ho in Hown.
      rewrite <- (own_environments_of base), <- Hown.
      unfold declares. rewrite He. split.
      * intros (envs' & E & H'). now injection E as <-.
      * eauto.
    + intros o Ho. rewrite Ho in Hown. eexists. split.
      * exists envs. split; [exact He | exact Hown].
      * repeat split; simpl.
        -- intros rs ->. reflexivity.
        -- intros -> b Hb. apply own_environments_of in Hb. now rewrite Hb.
Qed.

Lemma mergeConfigurations_fields_witness :
  exists merged env,
    mergeConfigurations Regions.DEFAULT_DEPLOYMENT_CONFIG
      MoreExamples.rename_development = Some (ok merged) /\
    declares merged "development" env /\
    stackNaming env = {| prefix := "Demo"; suffix := "Sandbox" |} /\
    regions env = regions Regions.development /\
    declares merged "production" Regions.production.
Proof.
  eexists.
  destruct (proj2 (mergeConfigurations_fields Regions.DEFAULT_DEPLOYMENT_CONFIG
                     MoreExamples.rename_development) _ eq_refl)
    as [_ Hname].
  destruct (Hname "development") as [_ Hdev].
  destruct (Hdev MoreExamples.renamed_development eq_refl)
    as (env & Hd & Hs & _ & _ & _ & Hr).
  destruct (Hname "production") as [Hprod _].
  exists env. split; [reflexivity|]. split; [exact Hd|]. split; [exact Hs|].
  split.
  - apply (Hr eq_refl). eexists. split; reflexivity.
  - apply (Hprod eq_refl). eexists. split; reflexivity.
Defined.

(** X13. Merging nothing changes nothing and still validates: with an
    override that has neither environments nor settings, the merge returns
    a bundle equal to the base exactly when the constructor accepts the
    base for the environment "development". *)
Theorem mergeConfigurations_nothing :
  forall base : DeploymentConfig,
    mergeConfigurations base
      {| override_environments := None; override_crossRegionSettings := None |}
      = Some (ok base) <->
    accepted (Some "development") (Some base).
Proof.
  intros base. unfold mergeConfigurations. cbn. split.
  - intros H. injection H as H. apply bind_returns in H as [E [manager Hnew]].
    rewrite E in Hnew. now exists manager.
  - intros [manager Hnew]. pose proof Hnew as Hnew'.
    apply new_instance in Hnew as [Hthis Hv].
    apply validateConfiguration_ok in Hv as (Henv & _).
    apply validateEnvironments_current in Henv as (envs & He & _).
    rewrite Hthis in He. destruct base as [benvs bcrs]. simpl in He.
    subst benvs. simpl. now rewrite Hnew'.
Qed.

End Merging.

(* ================================================================== *)
(** ** The stacks of [main.ts] *)
(* ================================================================== *)

Section Stacks.

Import Js ConfigurationManager Queries.
Local Open Scope string_scope.

Lemma NoDup_map_injective {A B : Type} (f : A -> B) (l : list A) :
  (forall x y, f x = f y -> x = y) -> NoDup l -> NoDup (map f l).
Proof.
  intros Hinj Hnd. induction Hnd as [|x l Hx _ IH]; simpl; constructor; [|exact IH].
  intros Hin. apply in_map_iff in Hin as (y & Hy & Hin).
  apply Hinj in Hy. now subst y.
Qed.

Lemma createNetworkStacksIn_current (cdk : Main.Cdk) (this : t)
    (env : EnvironmentConfig) (label : string) (rs : list RegionConfig)
    (app : list Main.CreatedStack) :
  current_environment this env ->
  Main.createNetworkStacksIn cdk this label rs app =
    match first_refusal cdk app (map (network_stack_for this env label) rs) with
    | Some e => throw e
    | None => ok (app ++ map (network_stack_for this env label) rs)%list
    end.
Proof.
  intros Hcur. revert app. induction rs as [|r rs IH]; intros app.
  - simpl. now rewrite app_nil_r.
  - cbn [Main.createNetworkStacksIn map first_refusal].
    unfold generateStackName, getStackNaming, getCommonTags.
    rewrite (getEnvironmentConfig_current _ _ Hcur).
    cbn [bind ok stackNaming_of tags_of]. unfold Main.new_NetworkStack.
    cbn [network_stack_for Main.stackName Main.stackProps].
    destruct (cdk app _ _) as [e|]; [reflexivity|].
    cbn [bind ok]. rewrite IH. cbn [network_stack_for].
    destruct (first_refusal _ _ _); [reflexivity|].
    now rewrite <- app_assoc.
Qed.

Lemma createNetworkStacks_current (this : t) (env : EnvironmentConfig)
    (label : string) (rs : list RegionConfig) :
  current_environment this env ->
  Main.createNetworkStacks this label rs =
    ok (map (network_stack_for this env label) rs).
Proof.
  intros Hcur. unfold Main.createNetworkStacks, Main.createNetworkStacksUnder.
  rewrite (createNetworkStacksIn_current _ _ _ _ _ _ Hcur).
  assert (H : forall app l, first_refusal Main.lenient app l = None).
  { intros app l. revert app. induction l as [|x l IHl]; intros app; simpl; auto. }
  now rewrite H.
Qed.

Lemma network_stack_for_region (this : t) (env : EnvironmentConfig)
    (label : string) (r : RegionConfig) :
  stack_of_region this env r (network_stack_for this env label r).
Proof.
  unfold stack_of_region, network_stack_for.
  cbn [Main.stackName Main.stackProps Main.stack props_region props_cidrBlock
       props_tags].
  split; [reflexivity|]. split; [reflexivity|]. split; [reflexivity|].
  split; [reflexivity|]. split; [reflexivity|].
  unfold NetworkStack.new. cbn [NetworkStack.transitGateway props_enableTransitGateway].
  unfold shouldEnableTransitGateway, getPrimaryRegion.
  destruct (enableTransitGateway _); simpl.
  - destruct (String.eqb_spec (regionName r)
                (primaryRegion (crossRegionSettings (deploymentConfig this))));
      split; try tauto; split; try tauto; discriminate.
  - split; [|auto]. split; [discriminate | intros [H _]; discriminate H].
Qed.

Lemma stack_names_injective (p q a b : string) :
  p ++ "-" ++ "Network" ++ "-" ++ a ++ "-" ++ q =
  p ++ "-" ++ "Network" ++ "-" ++ b ++ "-" ++ q -> a = b.
Proof.
  intros H. apply append_cancel_l in H. simpl in H.
  injection H as H. now apply append_cancel_r in H.
Qed.

(** X14. For a constructed manager whose current environment is declared,
    the loop of [main.ts] asks for one stack per region of the list, in
    order: the stack is called [{prefix}-Network-{regionName}-{suffix}], is
    given the region's name and block and the environment's tags, and is to
    hold a transit gateway exactly when the bundle enables it and the region
    is the primary one; regions of different names get stacks of different
    names.  The code of the loop itself does not throw: whatever the CDK
    does, the loop returns these stacks when the CDK refuses none of them,
    and otherwise throws what the CDK throws at the first one it refuses. *)
Theorem createNetworkStacks_one_per_region :
  forall (environment : option string) (customConfig : option DeploymentConfig)
         (this : t) (env : EnvironmentConfig) (label : string)
         (cdk : Main.Cdk) (rs : list RegionConfig),
    new environment customConfig = inr this -> current_environment this env ->
    Forall2 (stack_of_region this env) rs
      (map (network_stack_for this env label) rs) /\
    (NoDup (map regionName rs) ->
     NoDup (map Main.stackName (map (network_stack_for this env label) rs))) /\
    Main.createNetworkStacksUnder cdk this label rs =
      match first_refusal cdk [] (map (network_stack_for this env label) rs) with
      | Some e => throw e
      | None => ok (map (network_stack_for this env label) rs)
      end.
Proof.
  intros environment customConfig this env label cdk rs _ Hcur.
  split; [|split].
  - induction rs as [|r rs IH]; simpl; constructor; [|exact IH].
    apply network_stack_for_region.
  - intros Hnd. rewrite map_map. cbn [network_stack_for Main.stackName].
    rewrite <- (map_map regionName
                  (fun a => prefix (stackNaming env) ++ "-" ++ "Network" ++ "-"
                            ++ a ++ "-" ++ suffix (stackNaming env))).
    apply NoDup_map_injective; [|assumption].
    intros a b. apply stack_names_injective.
  - unfold Main.createNetworkStacksUnder.
    now rewrite (createNetworkStacksIn_current _ _ _ _ _ _ Hcur).
Qed.

Lemma createNetworkStacks_one_per_region_witness :
  (exists stacks,
     Main.createNetworkStacksUnder MoreExamples.distinct_ids
       (instance_of (Some "production") None) "production"
       [Regions.us_east_1; Regions.eu_central_1; Regions.ap_southeast_2]
       = ok stacks /\
     Forall2 (stack_of_region (instance_of (Some "production") None)
                Regions.production)
             [Regions.us_east_1; Regions.eu_central_1; Regions.ap_southeast_2]
             stacks /\
     NoDup (map Main.stackName stacks)) /\
  Main.createNetworkStacksUnder MoreExamples.distinct_ids
    (instance_of (Some "test") (Some Examples.repeated_name)) "test"
    [Regions.us_east_1; Examples.us_east_1_again]
    = throw (Error "There is already a Construct with name 'Test-Network-us-east-1-Stack' in App").
Proof.
  split.
  - destruct (createNetworkStacks_one_per_region (Some "production") None
                (instance_of (Some "production") None) Regions.production
                "production" MoreExamples.distinct_ids
                [Regions.us_east_1; Regions.eu_central_1; Regions.ap_southeast_2]
                eq_refl ltac:(eexists; split; reflexivity))
      as (H1 & H2 & H3).
    eexists. split; [exact H3|]. split; [exact H1|]. apply H2.
    repeat constructor; simpl; intuition discriminate.
  - exact (proj2 (proj2
      (createNetworkStacks_one_per_region (Some "test") (Some Examples.repeated_name)
         (instance_of (Some "test") (Some Examples.repeated_name))
         (Examples.test_environment
            (Some [Regions.us_east_1; Examples.us_east_1_again]))
         "test" MoreExamples.distinct_ids
         [Regions.us_east_1; Examples.us_east_1_again]
         eq_refl ltac:(eexists; split; reflexivity)))).
Defined.

Lemma not_inherited_default :
  (inherited "development" -> False) /\ (inherited "production" -> False).
Proof. unfold inherited. simpl. intuition discriminate. Qed.

(** X15. What [main.ts] does for every value of the context key
    "environment" (unset and empty stand for "development"): for
    "development" it creates the one stack of us-east-1, with a transit
    gateway; for "production" the stacks of us-east-1, eu-central-1 and
    ap-southeast-2 in this order, the first alone with a transit gateway;
    for a name every object inherits it fails with a [TypeError], the
    regions being [undefined]; for any other name the constructor throws
    "Current environment '...' not found in configuration". *)
Theorem main_outcomes :
  forall context : option string,
    (or_else context "development" = "development" ->
     exists s,
       Main.main context = ok [s] /\
       stack_of_region (instance_of (Some "development") None)
         Regions.development Regions.us_east_1 s /\
       NetworkStack.transitGateway (Main.stack s) =
         Some NetworkStack.createTransitGateway) /\
    (or_else context "development" = "production" ->
     exists s1 s2 s3,
       Main.main context = ok [s1; s2; s3] /\
       stack_of_region (instance_of (Some "production") None)
         Regions.production Regions.us_east_1 s1 /\
       stack_of_region (instance_of (Some "production") None)
         Regions.production Regions.eu_central_1 s2 /\
       stack_of_region (instance_of (Some "production") None)
         Regions.production Regions.ap_southeast_2 s3 /\
       NetworkStack.transitGateway (Main.stack s1) =
         Some NetworkStack.createTransitGateway /\
       NetworkStack.transitGateway (Main.stack s2) = None /\
       NetworkStack.transitGateway (Main.stack s3) = None) /\
    (inherited (or_else context "development") ->
     Main.main context = throw (TypeError "forEach")) /\
    (or_else context "development" <> "development" ->
     or_else context "development" <> "production" ->
     (inherited (or_else context "development") -> False) ->
     Main.main context =
       throw (Error ("Current environment '" ++ or_else context "development"
                     ++ "' not found in configuration"))).
Proof.
  intros context. unfold Main.main.
  set (environment := or_else context "development").
  split; [|split; [|split]].
  - intros E. rewrite E.
    exists (network_stack_for (instance_of (Some "development") None)
              Regions.development "development" Regions.us_east_1).
    split; [reflexivity|]. split; [apply network_stack_for_region | reflexivity].
  - intros E. rewrite E.
    exists (network_stack_for (instance_of (Some "production") None)
              Regions.production "production" Regions.us_east_1),
           (network_stack_for (instance_of (Some "production") None)
              Regions.production "production" Regions.eu_central_1),
           (network_stack_for (instance_of (Some "production") None)
              Regions.production "production" Regions.ap_southeast_2).
    split; [reflexivity|].
    do 3 (split; [apply network_stack_for_region|]).
    split; [reflexivity|]. split; reflexivity.
  - intros Hinh. rewrite new_default.
    rewrite (proj2 (truthy_default environment)) by auto.
    cbn [bind ok]. unfold getEnvironmentRegions, getEnvironmentConfig.
    cbn [or_else instance_of currentEnvironment deploymentConfig config_of
         environments Regions.DEFAULT_DEPLOYMENT_CONFIG].
    unfold get. cbn [own].
    destruct (String.eqb_spec "development" environment) as [E|_];
      [rewrite <- E in Hinh; now apply not_inherited_default in Hinh|].
    destruct (String.eqb_spec "production" environment) as [E|_];
      [rewrite <- E in Hinh; now apply not_inherited_default in Hinh|].
    assert (Hex : existsb (String.eqb environment) Object_prototype_keys = true).
    { apply existsb_exists. exists environment.
      split; [exact Hinh | apply String.eqb_refl]. }
    rewrite Hex. reflexivity.
  - intros H1 H2 H3. rewrite new_default.
    destruct (truthy_at _ environment) eqn:Ht; [|reflexivity].
    apply truthy_default in Ht. tauto.
Qed.

Lemma main_outcomes_witness :
  (exists s,
     Main.main None = ok [s] /\
     stack_of_region (instance_of (Some "development") None)
       Regions.development Regions.us_east_1 s /\
     NetworkStack.transitGateway (Main.stack s) =
       Some NetworkStack.createTransitGateway) /\
  Main.main (Some "constructor") = throw (TypeError "forEach") /\
  Main.main (Some "staging") =
    throw (Error "Current environment 'staging' not found in configuration").
Proof.
  destruct (main_outcomes None) as (Hdev & _).
  destruct (main_outcomes (Some "constructor")) as (_ & _ & Hinh & _).
  destruct (main_outcomes (Some "staging")) as (_ & _ & _ & Hother).
  split; [apply Hdev; reflexivity|]. split.
  - apply Hinh. unfold inherited. simpl. auto.
  - apply Hother; [discriminate | discriminate |].
    unfold inherited. simpl. intuition discriminate.
Defined.

End Stacks.

(* ================================================================== *)
(** ** The web and application tiers *)
(* ================================================================== *)

Section Tiers.

Import NetworkStack.
Local Open Scope string_scope.

(** X16. Whatever the properties the stack is built with, the web group
    ends up with exactly two ingress rules, 80/tcp and 443/tcp from any
    IPv4 address, and the app group with exactly five, in this order:
    8080/tcp and 8443/tcp from the web group, all traffic from itself,
    8883/tcp and 443/tcp from any IPv4 address; no rule of the database
    group admits any IPv4 address or the web group. *)
Theorem web_and_app_tier_rules :
  forall props : NetworkStackProps,
    exists web app db,
      own (securityGroups (new props)) (webSecurityGroup (new props)) = Some web /\
      own (securityGroups (new props)) (appSecurityGroup (new props)) = Some app /\
      own (securityGroups (new props)) (databaseSecurityGroup (new props)) = Some db /\
      ingressRules web =
        [ {| rule_peer := anyIpv4; rule_port := tcp 80;
             rule_description := "Allow HTTP traffic from internet" |};
          {| rule_peer := anyIpv4; rule_port := tcp 443;
             rule_description := "Allow HTTPS traffic from internet" |} ] /\
      ingressRules app =
        [ {| rule_peer := securityGroup (webSecurityGroup (new props));
             rule_port := tcp 8080;
             rule_description := "Allow HTTP traffic from web tier" |};
          {| rule_peer := securityGroup (webSecurityGroup (new props));
             rule_port := tcp 8443;
             rule_description := "Allow HTTPS traffic from web tier" |};
          {| rule_peer := securityGroup (appSecurityGroup (new props));
             rule_port := allTraffic;
             rule_description := "Allow communication within app tier" |};
          {| rule_peer := anyIpv4; rule_port := tcp 8883;
             rule_description := "Allow MQTT over TLS for IoT devices" |};
          {| rule_peer := anyIpv4; rule_port := tcp 443;
             rule_description := "Allow HTTPS for IoT device management" |} ] /\
      forallb (fun rule =>
                 match rule_peer rule with
                 | anyIpv4 => false
                 | securityGroup g =>
                     negb (String.eqb g (webSecurityGroup (new props)))
                 end)
              (ingressRules db) = true /\
      List.length (securityGroups (new props)) = 3%nat.
Proof.
  intros props. do 3 eexists. repeat split; reflexivity.
Qed.

End Tiers.

(* ================================================================== *)
(** ** Region names and availability zones *)
(* ================================================================== *)

Section Zones.

Import Js.
Local Open Scope string_scope.

Lemma lang_star_class (p : ascii -> bool) (s : string) :
  lang (Star (Class p)) s <-> every_char p s.
Proof.
  split.
  - intros H. remember (Star (Class p)) as r eqn:Er. revert Er.
    induction H as [| | | | | |r0 s1 s2 H1 _ _ IH2]; try discriminate.
    + intros _. exact I.
    + intros Er. injection Er as ->. apply every_char_app. split; [|auto].
      apply lang_class_iff in H1 as (c & -> & Hc). simpl. auto.
  - induction s as [|c s IH]; simpl.
    + intros _. constructor.
    + intros [Hc Hs]. apply (lang_star_cons _ (String c "") s); [|auto].
      now constructor.
Qed.

Lemma lang_plus_class (p : ascii -> bool) (s : string) :
  lang (Plus (Class p)) s <-> every_char p s /\ s <> "".
Proof.
  unfold Plus. rewrite lang_seq_class. split.
  - intros (c & s' & -> & Hc & H). apply lang_star_class in H.
    simpl. split; [auto | discriminate].
  - intros [H Hne]. destruct s as [|c s']; [congruence|].
    destruct H as [Hc Hs]. exists c, s'. rewrite lang_star_class. auto.
Qed.

Lemma lang_seq_lit (c : ascii) (r : regex) (s : string) :
  lang (Seq (Lit c) r) s <-> exists s', s = String c s' /\ lang r s'.
Proof.
  unfold Lit. rewrite lang_seq_class. split.
  - intros (d & s' & -> & Hd & H). apply Ascii.eqb_eq in Hd. subst d. eauto.
  - intros (s' & -> & H). exists c, s'. rewrite Ascii.eqb_refl. auto.
Qed.

(** The words of [[a-z]{2}-[a-z]+-] followed by a word of [r]. *)
Lemma lang_region_head (r : regex) (s : string) :
  lang (Seq (Rep 2 Lower) (Seq (Lit "-") (Seq (Plus Lower) (Seq (Lit "-") r)))) s <->
  exists a b w t,
    s = String a (String b ("-" ++ w ++ "-" ++ t)) /\
    is_lower a = true /\ is_lower b = true /\
    every_char is_lower w /\ w <> "" /\ lang r t.
Proof.
  rewrite lang_seq_iff. split.
  - intros (s1 & s2 & -> & H1 & H2).
    apply (lang_rep_class is_lower 2 s1) in H1 as [Hl Hlen].
    destruct s1 as [|a [|b [|c s1]]]; try discriminate. destruct Hl as (Ha & Hb & _).
    apply lang_seq_lit in H2 as (s3 & -> & H2).
    apply lang_seq_iff in H2 as (w & s4 & -> & Hw & H4).
    apply lang_plus_class in Hw as [Hw Hne].
    apply lang_seq_lit in H4 as (t & -> & Ht).
    exists a, b, w, t. simpl in *.
    split; [reflexivity | auto 10].
  - intros (a & b & w & t & -> & Ha & Hb & Hw & Hne & Ht).
    exists (String a (String b "")), ("-" ++ w ++ "-" ++ t).
    split; [reflexivity|]. split.
    + apply (lang_rep_class is_lower 2). simpl. auto.
    + apply lang_seq_lit. eexists. split; [reflexivity|].
      apply lang_seq_iff. exists w, ("-" ++ t).
      split; [reflexivity|]. split; [now apply lang_plus_class|].
      apply lang_seq_lit. exists t. split; [reflexivity | assumption].
Qed.

Lemma regionRegex_lang (s : string) :
  lang ConfigurationManager.regionRegex s <->
  exists n, s = region_text n /\ region_syntax n.
Proof.
  unfold ConfigurationManager.regionRegex. rewrite lang_region_head. split.
  - intros (a & b & w & t & -> & Ha & Hb & Hw & Hne & Ht).
    apply lang_plus_class in Ht as [Ht Hnt].
    exists (Build_RegionName a b w t).
    split; [reflexivity|]. unfold region_syntax. simpl. auto 10.
  - intros ([a b w t] & -> & (Ha & Hb & Hw & Hne & Ht & Hnt)). simpl in *.
    exists a, b, w, t. split; [reflexivity|].
    repeat split; try assumption. now apply lang_plus_class.
Qed.

(** X17. [validateRegionName] accepts exactly the names made of two
    lower-case letters, a dash, one or more lower-case letters, a dash, and
    one or more digits. *)
Theorem validateRegionName_spec :
  forall s : string,
    ConfigurationValidator.validateRegionName s = true <->
    exists n, s = region_text n /\ region_syntax n.
Proof.
  intros s. unfold ConfigurationValidator.validateRegionName,
    ConfigurationValidator.regionRegex.
  rewrite test_lang. apply regionRegex_lang.
Qed.

Lemma availabilityZoneRegex_lang (s : string) :
  lang ConfigurationValidator.availabilityZoneRegex s <->
  exists n c,
    s = region_text n ++ String c "" /\ region_syntax n /\ is_lower c = true.
Proof.
  unfold ConfigurationValidator.availabilityZoneRegex.
  rewrite lang_region_head. split.
  - intros (a & b & w & t & -> & Ha & Hb & Hw & Hne & Ht).
    apply lang_seq_iff in Ht as (d & l & -> & Hd & Hl).
    apply lang_plus_class in Hd as [Hd Hnd].
    apply lang_class_iff in Hl as (c & -> & Hc).
    exists (Build_RegionName a b w d), c.
    split; [|unfold region_syntax; simpl; auto 10].
    unfold region_text. simpl. now rewrite !append_assoc.
  - intros ([a b w d] & c & -> & (Ha & Hb & Hw & Hne & Hd & Hnd) & Hc).
    simpl in *. exists a, b, w, (d ++ String c "").
    split; [unfold region_text; simpl; now rewrite !append_assoc|].
    repeat split; try assumption.
    apply lang_seq_iff. exists d, (String c "").
    split; [reflexivity|]. split; [now apply lang_plus_class | now constructor].
Qed.

Lemma lower_not_digit (c : ascii) : is_lower c = true -> is_digit c = false.
Proof.
  unfold is_lower, is_digit, in_range. rewrite andb_true_iff.
  intros [H1 _]. apply Nat.leb_le in H1.
  change (nat_of_ascii "a") with 97%nat in H1.
  change (nat_of_ascii "9") with 57%nat.
  apply andb_false_iff. right. apply Nat.leb_gt. lia.
Qed.

Lemma lower_no_dash (s : string) :
  every_char is_lower s -> every_char (differs "-") s.
Proof.
  apply every_char_weaken. intros c Hc. unfold differs.
  destruct (Ascii.eqb_spec c "-") as [->|_]; [discriminate Hc | reflexivity].
Qed.

(** Digits, then something, against digits, then a letter. *)
Lemma digits_then_letter (d1 rest d2 : string) (c : ascii) :
  every_char is_digit d1 -> every_char is_digit d2 -> is_lower c = true ->
  d1 ++ rest = d2 ++ String c "" ->
  exists ds, rest = ds ++ String c "" /\ every_char is_digit ds.
Proof.
  revert d2. induction d1 as [|x d1 IH]; intros d2 H1 H2 Hc E; simpl in E.
  - exists d2. auto.
  - destruct H1 as [Hx H1]. destruct d2 as [|y d2]; simpl in E.
    + injection E as -> _. apply lower_not_digit in Hc. congruence.
    + injection E as -> E. destruct H2 as [_ H2]. eauto.
Qed.

(** X18. For a region name that [validateRegionName] accepts,
    [validateAvailabilityZone] accepts exactly the zones written as that
    name, then any digits, then one lower-case letter: the zones of the
    region, and also those of every region whose number continues its own
    (["us-east-12a"] for ["us-east-1"]). *)
Theorem validateAvailabilityZone_spec :
  forall az region : string,
    ConfigurationValidator.validateRegionName region = true ->
    (ConfigurationValidator.validateAvailabilityZone az region = true <->
     exists digits letter,
       az = region ++ digits ++ String letter "" /\
       every_char is_digit digits /\ is_lower letter = true).
Proof.
  intros az region Hregion.
  unfold ConfigurationValidator.validateRegionName,
    ConfigurationValidator.regionRegex in Hregion.
  apply test_lang, regionRegex_lang in Hregion as (n & -> & Hn).
  unfold ConfigurationValidator.validateAvailabilityZone.
  rewrite andb_true_iff, startsWith_iff, test_lang, availabilityZoneRegex_lang.
  destruct n as [a b w d].
  pose proof Hn as (Ha & Hb & Hw & Hnw & Hd & Hnd). simpl in Ha, Hb, Hw, Hnw, Hd, Hnd.
  split.
  - intros [[rest ->] (m & c & E & Hm & Hc)].
    pose proof Hm as (_ & _ & Hw' & _ & Hd' & _).
    unfold region_text in E. simpl in E. injection E as _ _ E.
    rewrite !append_assoc in E. simpl in E.
    apply field_injective in E as [_ E]; try now apply lower_no_dash.
    destruct (digits_then_letter _ _ _ _ Hd Hd' Hc E) as (ds & -> & Hds).
    exists ds, c. auto.
  - intros (ds & c & -> & Hds & Hc). split; [now eexists|].
    exists (Build_RegionName a b w (d ++ ds)), c.
    split; [|split; [|assumption]].
    + unfold region_text. simpl. do 3 f_equal.
      rewrite !append_assoc. simpl. now rewrite append_assoc.
    + unfold region_syntax. simpl. repeat split; try assumption.
      * apply every_char_app. auto.
      * intros E. apply append_eq_nil in E as [E _]. auto.
Qed.

Lemma validateAvailabilityZone_spec_witness :
  ConfigurationValidator.validateAvailabilityZone "us-east-12a" "us-east-1" = true.
Proof.
  apply (proj2 (validateAvailabilityZone_spec "us-east-12a" "us-east-1" eq_refl)).
  exists "2", "a"%char. repeat split.
Defined.

End Zones.
